(** * Lightweight Orchestration Core: a shallow embedding of the engine

    The development follows [CoreEngine] (registerAgent, submitTask,
    processQueue, decomposeTask, handleTaskSplitting, handleTaskCollaboration,
    handleTaskReassignment, findBestAgentForTask, calculateCompatibility,
    logOutput, collaborate, checkAndAggregateParent, handleTaskFailure,
    updateAgentPerformance), [MetaReflectionModule] (predictSuccess,
    evaluateAssignment, updateAgentMetadata, predictImpact,
    suggestRemediation) and [validateTask] / [validateAgent].

    Conventions of the embedding.
    - JavaScript numbers that the engine computes with are exact rationals
      ([Q]); IEEE rounding is not modelled, and a quotient with divisor 0,
      an infinity or [NaN] in JavaScript, is [Q]'s 0: the statements below
      divide by non-zero values only.  A double computed by the code differs
      from the exact value by a rounding error of the order of 1e-16, which
      at a decimal tie decides the direction in which [toFixed] rounds; the
      statements about a rounded result therefore bound it ([double_slack])
      and fix its value only on inputs away from a tie.  The numeric fields
      of a value coming back from the dispatcher are [JS.num], which adds
      [NaN] and [undefined].
    - A JavaScript object used as a map ([agents], [taskOutputs],
      [skillScores], ...) is an association list in insertion order, because
      [Object.values] enumerates in that order and the engine's stable sorts
      break ties by it.  That is the order of JavaScript for keys that are
      not array indices, and a lookup of an absent key fails as it does in
      JavaScript for keys that are not property names of [Object.prototype];
      the identifiers the engine generates are of that kind, and a
      statement that depends on a key chosen by a caller being of that kind
      assumes it ([plain_key]).
    - Task objects are shared by reference between the queue and the
      continuation of a dispatch.  Identifiers produced by [uuidv4] are
      unique, so a reference is represented by the task id and a mutation
      through the reference by [update_task] on the first queue element
      carrying that id (the element [Array.prototype.find] returns).
    - [uuidv4] and the dispatcher are oracles: their results are arguments.
    - Time stamps and log lines have no influence on the engine state and are
      left out. *)

From Stdlib Require Import Bool List String Ascii ZArith QArith Qround Qabs.
From Stdlib Require Import Lia Lqa Permutation Sorted.
Import ListNotations.

Local Open Scope string_scope.
Local Open Scope Q_scope.

(** ** JavaScript values used by the engine *)

Module JS.

(** [x || d] on a finite number: [0] is falsy. *)
Definition or_num (x d : Q) : Q := if Qeq_bool x 0 then d else x.

(** [x || d] on a possibly missing number. *)
Definition or_opt (x : option Q) (d : Q) : Q :=
  match x with
  | Some v => or_num v d
  | None => d
  end.

(** [parseFloat(x.toFixed(d))] of an exact [x]: the nearest multiple of
    [10^-d], a tie going away from zero ([toFixed] treats the sign
    separately and picks the larger [n] on a tie).  The code applies it to
    the double it has computed, which can fall just below a tie that the
    exact value meets. *)
Definition toFixed (d : nat) (x : Q) : Q :=
  let scale := inject_Z (10 ^ Z.of_nat d) in
  if Qle_bool 0 x
  then inject_Z (Qfloor (x * scale + 0.5)) / scale
  else - (inject_Z (Qfloor (- x * scale + 0.5)) / scale).

Definition qmin (a b : Q) : Q := if Qle_bool a b then a else b.
Definition qmax (a b : Q) : Q := if Qle_bool a b then b else a.

Definition qsum (l : list Q) : Q := fold_left Qplus l 0.

(** A numeric field of an untyped payload. *)
Inductive num : Type :=
| Num (q : Q)
| NaN
| Undefined.

(** [v < c] for a finite constant [c]; every comparison with [NaN] (and
    with [undefined], which converts to [NaN]) is false. *)
Definition lt (v : num) (c : Q) : bool :=
  match v with
  | Num q => negb (Qle_bool c q)
  | NaN | Undefined => false
  end.

(** [v || d]: [0], [NaN] and [undefined] are falsy. *)
Definition or_default (v : num) (d : Q) : Q :=
  match v with
  | Num q => or_num q d
  | NaN | Undefined => d
  end.

(** [a + b] *)
Definition add (a b : num) : num :=
  match a, b with
  | Num x, Num y => Num (x + y)
  | _, _ => NaN
  end.

(** [a / n] for a length [n]; [0 / 0] is [NaN].  A non-zero numerator over
    [0] would be an infinity, which no caller produces: the only length-0
    division is that of an empty sum. *)
Definition div_len (a : num) (n : nat) : num :=
  match a, n with
  | Num x, S _ => Num (x / inject_Z (Z.of_nat n))
  | _, _ => NaN
  end.

(** [parseFloat(v.toFixed(d))] *)
Definition toFixed_num (d : nat) (v : num) : num :=
  match v with
  | Num x => Num (toFixed d x)
  | NaN | Undefined => NaN
  end.

(** Template-literal rendering of a possibly missing string. *)
Definition show (s : option string) : string :=
  match s with
  | Some x => x
  | None => "undefined"
  end.

(** [Array.prototype.sort] with a comparator: the sort is stable, so for
    a consistent comparator the result is the one of a stable insertion
    sort.  [before a b] holds when [cmp(a, b) <= 0]. *)
Section Sort.
Context {A : Type} (before : A -> A -> bool).

Fixpoint insert (x : A) (l : list A) : list A :=
  match l with
  | [] => [x]
  | y :: l' => if before x y then x :: y :: l' else y :: insert x l'
  end.

Fixpoint sort (l : list A) : list A :=
  match l with
  | [] => []
  | x :: l' => insert x (sort l')
  end.
End Sort.

(** [a.join(sep)] *)
Fixpoint join (sep : string) (l : list string) : string :=
  match l with
  | [] => EmptyString
  | [x] => x
  | x :: l' => x ++ sep ++ join sep l'
  end.

End JS.

(** ** Data model *)

Inductive TaskStatus : Type :=
| pending
| processing
| waiting_for_subtasks
| completed
| failed.

Inductive AgentStatus : Type :=
| idle
| busy.

Definition TaskStatus_eqb (a b : TaskStatus) : bool :=
  match a, b with
  | pending, pending
  | processing, processing
  | waiting_for_subtasks, waiting_for_subtasks
  | completed, completed
  | failed, failed => true
  | _, _ => false
  end.

Definition AgentStatus_eqb (a b : AgentStatus) : bool :=
  match a, b with
  | idle, idle | busy, busy => true
  | _, _ => false
  end.

(** Per-domain statistics kept by the meta-reflection module.  A missing
    [uncertainty] is represented by [0]: the only reader is
    [uncertainty || ...], which treats both alike. *)
Record DomainPerf : Type := {
  d_tasksCompleted : Q;
  d_successRate : Q;
  d_averageImpact : Q;
  d_uncertainty : Q;
  d_confidence : Q
}.

(** [performanceData]; a missing [domains] and an empty one are read alike,
    so the initialisation [domains = {}] in [predictSuccess] is invisible. *)
Record PerformanceData : Type := {
  tasksCompleted : Q;
  successRate : Q;
  averageImpact : Q;
  domains : list (string * DomainPerf)
}.

Record Agent : Type := {
  agent_id : string;
  domainLabels : list string;
  skillScores : list (string * Q);
  apiEndpoint : string;
  performanceData : PerformanceData;
  agent_status : AgentStatus
}.

(** A task of the queue.  [priority] may be missing; a missing
    [predictedImpact] (tasks pushed into the queue by hand) is [0], which is
    how the sort reads it; a missing [subtasks] or [interferedBy] is the
    empty list, which is how [processQueue] and [predictSuccess] read it. *)
Record Task : Type := {
  id : string;
  description : string;
  domainLabel : string;
  complexityScore : Q;
  priority : option Q;
  dependencies : list string;
  subtasks : list string;
  parentTaskId : option string;
  interferedBy : list string;
  status : TaskStatus;
  assignedTo : option string;
  retryCount : nat;
  failedAgents : list string;
  predictedImpact : Q;
  predictedSuccess : option Q;
  isCollaborative : bool;
  suggestedAction : option string
}.

(** What [dispatchToAgent] resolves with, when it is an object. *)
Record DispatchResult : Type := {
  r_resultData : option string;
  r_confidenceScore : JS.num;
  r_actualImpact : JS.num;
  r_executionTime : JS.num
}.

(** The three ways a dispatch ends: the promise rejects, it resolves with
    [null] or [undefined], or it resolves with an object. *)
Inductive DispatchOutcome : Type :=
| Rejected
| ResolvedNullish
| Resolved (r : DispatchResult).

(** A record of [taskOutputs]. *)
Record TaskOutput : Type := {
  o_taskId : string;
  o_agentId : string;
  o_resultData : option string;
  o_confidenceScore : JS.num;
  o_predictedImpact : Q;
  o_actualImpact : Q;
  o_executionTime : JS.num
}.

(** One entry of [collaborationSpace[ctx].sharedResults]; [sr_data] is the
    payload already rendered by [JSON.stringify]. *)
Record SharedResult : Type := {
  sr_taskId : string;
  sr_agentId : string;
  sr_data : string
}.

(** The engine object. *)
Record Engine : Type := {
  agents : list Agent;
  taskQueue : list Task;
  taskOutputs : list (string * TaskOutput);
  collaborationSpace : list (string * list SharedResult)
}.

Definition AGGREGATOR_SYSTEM : string := "AGGREGATOR_SYSTEM".
Definition CONFIDENCE_THRESHOLD : Q := 0.6.
Definition threshold : Q := 0.65.

Definition new_engine : Engine :=
  {| agents := []; taskQueue := []; taskOutputs := []; collaborationSpace := [] |}.

(** ** Objects used as maps, and mutation through references *)

Section Objects.
Context {V : Type}.

(** [obj[k]] *)
Fixpoint obj_get (k : string) (o : list (string * V)) : option V :=
  match o with
  | [] => None
  | (k', v) :: o' => if String.eqb k' k then Some v else obj_get k o'
  end.

(** [obj[k] = v]: an existing key keeps its place, a new one goes last. *)
Fixpoint obj_set (k : string) (v : V) (o : list (string * V)) : list (string * V) :=
  match o with
  | [] => [(k, v)]
  | (k', v') :: o' =>
      if String.eqb k' k then (k, v) :: o' else (k', v') :: obj_set k v o'
  end.

(** [Object.values(obj)] *)
Definition obj_values (o : list (string * V)) : list V := map snd o.
End Objects.

(** [includes] on an array of strings *)
Definition includes (l : list string) (x : string) : bool :=
  existsb (String.eqb x) l.

(** [this.agents[agentId]] *)
Definition get_agent (aid : string) (l : list Agent) : option Agent :=
  find (fun a => String.eqb (agent_id a) aid) l.

(** A mutation of [this.agents[agentId]]. *)
Fixpoint update_agent (aid : string) (f : Agent -> Agent) (l : list Agent) : list Agent :=
  match l with
  | [] => []
  | a :: l' =>
      if String.eqb (agent_id a) aid then f a :: l' else a :: update_agent aid f l'
  end.

(** [this.agents[agentId] = a] *)
Definition set_agent (a : Agent) (l : list Agent) : list Agent :=
  match get_agent (agent_id a) l with
  | Some _ => update_agent (agent_id a) (fun _ => a) l
  | None => l ++ [a]
  end.

(** [this.taskQueue.find(t => t.id === taskId)] *)
Definition find_task (tid : string) (q : list Task) : option Task :=
  find (fun t => String.eqb (id t) tid) q.

(** A mutation of the task object that [find_task] returns. *)
Fixpoint update_task (tid : string) (f : Task -> Task) (q : list Task) : list Task :=
  match q with
  | [] => []
  | t :: q' =>
      if String.eqb (id t) tid then f t :: q' else t :: update_task tid f q'
  end.

Definition set_agent_status (st : AgentStatus) (a : Agent) : Agent :=
  {| agent_id := agent_id a; domainLabels := domainLabels a;
     skillScores := skillScores a; apiEndpoint := apiEndpoint a;
     performanceData := performanceData a; agent_status := st |}.

Definition set_performanceData (p : PerformanceData) (a : Agent) : Agent :=
  {| agent_id := agent_id a; domainLabels := domainLabels a;
     skillScores := skillScores a; apiEndpoint := apiEndpoint a;
     performanceData := p; agent_status := agent_status a |}.

Definition set_status (st : TaskStatus) (t : Task) : Task :=
  {| id := id t; description := description t; domainLabel := domainLabel t;
     complexityScore := complexityScore t; priority := priority t;
     dependencies := dependencies t; subtasks := subtasks t;
     parentTaskId := parentTaskId t; interferedBy := interferedBy t;
     status := st; assignedTo := assignedTo t; retryCount := retryCount t;
     failedAgents := failedAgents t; predictedImpact := predictedImpact t;
     predictedSuccess := predictedSuccess t;
     isCollaborative := isCollaborative t; suggestedAction := suggestedAction t |}.

Definition set_assignedTo (a : option string) (t : Task) : Task :=
  {| id := id t; description := description t; domainLabel := domainLabel t;
     complexityScore := complexityScore t; priority := priority t;
     dependencies := dependencies t; subtasks := subtasks t;
     parentTaskId := parentTaskId t; interferedBy := interferedBy t;
     status := status t; assignedTo := a; retryCount := retryCount t;
     failedAgents := failedAgents t; predictedImpact := predictedImpact t;
     predictedSuccess := predictedSuccess t;
     isCollaborative := isCollaborative t; suggestedAction := suggestedAction t |}.

Definition set_predictedSuccess (p : option Q) (t : Task) : Task :=
  {| id := id t; description := description t; domainLabel := domainLabel t;
     complexityScore := complexityScore t; priority := priority t;
     dependencies := dependencies t; subtasks := subtasks t;
     parentTaskId := parentTaskId t; interferedBy := interferedBy t;
     status := status t; assignedTo := assignedTo t; retryCount := retryCount t;
     failedAgents := failedAgents t; predictedImpact := predictedImpact t;
     predictedSuccess := p;
     isCollaborative := isCollaborative t; suggestedAction := suggestedAction t |}.

Definition set_retry (n : nat) (fa : list string) (t : Task) : Task :=
  {| id := id t; description := description t; domainLabel := domainLabel t;
     complexityScore := complexityScore t; priority := priority t;
     dependencies := dependencies t; subtasks := subtasks t;
     parentTaskId := parentTaskId t; interferedBy := interferedBy t;
     status := status t; assignedTo := assignedTo t; retryCount := n;
     failedAgents := fa; predictedImpact := predictedImpact t;
     predictedSuccess := predictedSuccess t;
     isCollaborative := isCollaborative t; suggestedAction := suggestedAction t |}.

Definition set_subtasks (l : list string) (t : Task) : Task :=
  {| id := id t; description := description t; domainLabel := domainLabel t;
     complexityScore := complexityScore t; priority := priority t;
     dependencies := dependencies t; subtasks := l;
     parentTaskId := parentTaskId t; interferedBy := interferedBy t;
     status := status t; assignedTo := assignedTo t; retryCount := retryCount t;
     failedAgents := failedAgents t; predictedImpact := predictedImpact t;
     predictedSuccess := predictedSuccess t;
     isCollaborative := isCollaborative t; suggestedAction := suggestedAction t |}.

Definition set_predictedImpact (p : Q) (t : Task) : Task :=
  {| id := id t; description := description t; domainLabel := domainLabel t;
     complexityScore := complexityScore t; priority := priority t;
     dependencies := dependencies t; subtasks := subtasks t;
     parentTaskId := parentTaskId t; interferedBy := interferedBy t;
     status := status t; assignedTo := assignedTo t; retryCount := retryCount t;
     failedAgents := failedAgents t; predictedImpact := p;
     predictedSuccess := predictedSuccess t;
     isCollaborative := isCollaborative t; suggestedAction := suggestedAction t |}.

Definition set_collaboration (p : Q) (t : Task) : Task :=
  {| id := id t; description := description t; domainLabel := domainLabel t;
     complexityScore := complexityScore t; priority := Some p;
     dependencies := dependencies t; subtasks := subtasks t;
     parentTaskId := parentTaskId t; interferedBy := interferedBy t;
     status := status t; assignedTo := assignedTo t; retryCount := retryCount t;
     failedAgents := failedAgents t; predictedImpact := predictedImpact t;
     predictedSuccess := predictedSuccess t;
     isCollaborative := true;
     suggestedAction := Some "USE_COLLABORATION_PROTOCOL" |}.

Definition with_agents (l : list Agent) (e : Engine) : Engine :=
  {| agents := l; taskQueue := taskQueue e; taskOutputs := taskOutputs e;
     collaborationSpace := collaborationSpace e |}.

Definition with_taskQueue (q : list Task) (e : Engine) : Engine :=
  {| agents := agents e; taskQueue := q; taskOutputs := taskOutputs e;
     collaborationSpace := collaborationSpace e |}.

Definition with_taskOutputs (o : list (string * TaskOutput)) (e : Engine) : Engine :=
  {| agents := agents e; taskQueue := taskQueue e; taskOutputs := o;
     collaborationSpace := collaborationSpace e |}.

(** ** MetaReflectionModule *)

Module MetaReflection.

Definition default_domainPerf : DomainPerf :=
  {| d_tasksCompleted := 0; d_successRate := 0.5; d_averageImpact := 0;
     d_uncertainty := 1; d_confidence := 0 |}.

(** [predictSuccess(agent, task)], reading [this.core.taskQueue]. *)
Definition predictSuccess (q : list Task) (agent : Agent) (task : Task) : Q :=
  let domain := domainLabel task in
  let domainPerf :=
    match obj_get domain (domains (performanceData agent)) with
    | Some d => d
    | None => default_domainPerf
    end in
  let skillScore :=
    JS.or_num
      (JS.or_opt (obj_get domain (skillScores agent))
                 (JS.qsum (obj_values (skillScores agent)) / 10))
      5 / 10 in
  let historyScore := d_successRate domainPerf in
  let uncertainty :=
    JS.or_num (d_uncertainty domainPerf) (1 / (d_tasksCompleted domainPerf + 1)) in
  let historyWeight := 1 - uncertainty in
  let skillWeight := uncertainty in
  let prediction := historyScore * historyWeight + skillScore * skillWeight in
  let activeInterferences :=
    filter (fun t =>
              includes (interferedBy task) (domainLabel t)
              && (TaskStatus_eqb (status t) processing
                  || TaskStatus_eqb (status t) completed)) q in
  let prediction :=
    match activeInterferences with
    | [] => prediction
    | _ :: _ =>
        let reduction := inject_Z (Z.of_nat (List.length activeInterferences)) * 0.15 in
        JS.qmax 0.1 (prediction - reduction)
    end in
  JS.toFixed 4 prediction.

(** The agents [evaluateAssignment] considers. *)
Definition availableAgents (ags : list Agent) (excludeIds : list string) : list Agent :=
  filter (fun a => AgentStatus_eqb (agent_status a) idle
                   && negb (includes excludeIds (agent_id a))) ags.

(** [evaluateAssignment(task, excludeIds)]: [{agentId, predictedSuccess}]. *)
Definition evaluateAssignment (e : Engine) (task : Task) (excludeIds : list string)
  : option string * Q :=
  let evaluations :=
    map (fun agent => (agent_id agent, predictSuccess (taskQueue e) agent task))
        (availableAgents (agents e) excludeIds) in
  match JS.sort (fun a b => Qle_bool (snd b) (snd a)) evaluations with
  | [] => (None, 0)
  | best :: _ => (Some (fst best), snd best)
  end.

Definition fresh_domainPerf : DomainPerf :=
  {| d_tasksCompleted := 0; d_successRate := 0; d_averageImpact := 0;
     d_uncertainty := 1; d_confidence := 0.5 |}.

Definition learn_domain (success : bool) (impact : Q) (d : DomainPerf) : DomainPerf :=
  let tc := d_tasksCompleted d + 1 in
  let prevSuccesses := d_successRate d * (tc - 1) in
  let sr := (prevSuccesses + (if success then 1 else 0)) / tc in
  let avg :=
    if success then (d_averageImpact d * (tc - 1) + impact) / tc
    else d_averageImpact d in
  let unc := 1 / (tc + 1) in
  {| d_tasksCompleted := tc; d_successRate := sr; d_averageImpact := avg;
     d_uncertainty := unc; d_confidence := sr * 0.7 + (1 - unc) * 0.3 |}.

(** [updateAgentMetadata(agentId, domain, success, impact)] *)
Definition updateAgentMetadata (ags : list Agent) (agentId domain : string)
           (success : bool) (impact : Q) : list Agent :=
  update_agent agentId
    (fun agent =>
       let perf := performanceData agent in
       let dPerf :=
         match obj_get domain (domains perf) with
         | Some d => d
         | None => fresh_domainPerf
         end in
       set_performanceData
         {| tasksCompleted := tasksCompleted perf;
            successRate := successRate perf;
            averageImpact := averageImpact perf;
            domains := obj_set domain (learn_domain success impact dPerf) (domains perf) |}
         agent)
    ags.

(** The loop of [predictImpact]: weighted impact sum and task count of the
    domain over all agents. *)
Definition domainImpact (ags : list Agent) (domain : string) : Q * Q :=
  fold_left
    (fun acc agent =>
       match obj_get domain (domains (performanceData agent)) with
       | Some dPerf =>
           if negb (Qle_bool (d_tasksCompleted dPerf) 0)
           then (fst acc + d_averageImpact dPerf * d_tasksCompleted dPerf,
                 snd acc + d_tasksCompleted dPerf)
           else acc
       | None => acc
       end)
    ags (0, 0).

(** [predictImpact(task)], from the task's complexity, priority and domain. *)
Definition predictImpact (ags : list Agent) (complexity : Q) (prio : option Q)
           (domain : string) : Q :=
  let baseImpact := JS.or_num complexity 5 in
  let priorityMultiplier := 1 + JS.or_opt prio 1 / 10 in
  let '(domainImpactSum, domainTaskCount) := domainImpact ags domain in
  let avgDomainImpact :=
    if negb (Qle_bool domainTaskCount 0)
    then domainImpactSum / domainTaskCount else 5 in
  JS.toFixed 2 (baseImpact * priorityMultiplier * 0.6 + avgDomainImpact * 0.4).

Inductive Strategy : Type := SPLIT | COLLABORATE | REROUTE.

(** [suggestRemediation(task, predictedSuccess)] *)
Definition suggestRemediation (ags : list Agent) (task : Task) : Strategy :=
  if negb (Qle_bool (complexityScore task) 6) then SPLIT
  else
    let otherAgents :=
      filter (fun a =>
                includes (domainLabels a) (domainLabel task)
                || negb (Qle_bool
                           (JS.or_opt (obj_get (domainLabel task) (skillScores a)) 0) 4))
             ags in
    if (1 <? List.length otherAgents)%nat then COLLABORATE else REROUTE.

End MetaReflection.

(** ** CoreEngine *)

Definition nl : string := String (ascii_of_nat 10) EmptyString.

(** A string that passes an [if (s)] test: present and not empty. *)
Definition truthy (s : option string) : option string :=
  match s with
  | Some x => if String.eqb x EmptyString then None else Some x
  | None => None
  end.



(** [updateAgentPerformance(agentId, success, impact, domain)]; the callers
    check that the agent exists. *)
Definition updateAgentPerformance (ags : list Agent) (agentId : string)
           (success : bool) (impact : Q) (domain : string) : list Agent :=
  let ags1 :=
    update_agent agentId
      (fun agent =>
         let perf := performanceData agent in
         let tc := tasksCompleted perf + 1 in
         let previousSuccesses := successRate perf * (tc - 1) in
         set_performanceData
           {| tasksCompleted := tc;
              successRate := (previousSuccesses + (if success then 1 else 0)) / tc;
              averageImpact :=
                if success then (averageImpact perf * (tc - 1) + impact) / tc
                else averageImpact perf;
              domains := domains perf |}
           agent)
      ags in
  if String.eqb domain EmptyString then ags1
  else MetaReflection.updateAgentMetadata ags1 agentId domain success impact.

(** The retry bookkeeping shared by [handleTaskReassignment] and
    [handleTaskFailure]: count the attempt, remember the agent, requeue
    below three attempts and fail otherwise. *)
Definition retry_or_fail (agentId : string) (t : Task) : Task :=
  let t1 := set_retry (retryCount t + 1) (failedAgents t ++ [agentId]) t in
  if (retryCount t1 <? 3)%nat
  then set_assignedTo None (set_status pending t1)
  else set_status failed t1.

(** [handleTaskReassignment(task, agentId, reason)] *)
Definition handleTaskReassignment (e : Engine) (task : Task) (agentId : string) : Engine :=
  let ags :=
    match get_agent agentId (agents e) with
    | Some _ => update_agent agentId (set_agent_status idle) (agents e)
    | None => agents e
    end in
  with_taskQueue (update_task (id task) (retry_or_fail agentId) (taskQueue e))
                 (with_agents ags e).

(** [handleTaskFailure(task, agentId, error)] *)
Definition handleTaskFailure (e : Engine) (task : Task) (agentId : string) : Engine :=
  let ags :=
    match get_agent agentId (agents e) with
    | Some _ =>
        updateAgentPerformance
          (update_agent agentId (set_agent_status idle) (agents e))
          agentId false 0 (domainLabel task)
    | None => agents e
    end in
  with_taskQueue (update_task (id task) (retry_or_fail agentId) (taskQueue e))
                 (with_agents ags e).

(** The record [logOutput] writes to [taskOutputs[taskId]]. *)
Definition output_record (task : option Task) (taskId agentId : string)
           (output : DispatchResult) : TaskOutput :=
  {| o_taskId := taskId;
     o_agentId := agentId;
     o_resultData := r_resultData output;
     o_confidenceScore := r_confidenceScore output;
     o_predictedImpact := match task with Some t => predictedImpact t | None => 0 end;
     o_actualImpact := JS.or_default (r_actualImpact output) 0;
     o_executionTime := r_executionTime output |}.

(** [logOutput(taskId, agentId, output)] up to the call of
    [checkAndAggregateParent]: store the record, complete the task, release
    the agent and update its statistics.  When the task is not in the queue
    only the record is stored (and the final log statement throws); the
    engine's own calls always name a queued task. *)
Definition commit_output (e : Engine) (taskId agentId : string) (output : DispatchResult)
  : Engine :=
  let task := find_task taskId (taskQueue e) in
  let e1 :=
    with_taskOutputs
      (obj_set taskId (output_record task taskId agentId output) (taskOutputs e)) e in
  match task with
  | None => e1
  | Some t =>
      let e2 := with_taskQueue (update_task taskId (set_status completed) (taskQueue e1)) e1 in
      match get_agent agentId (agents e2) with
      | Some _ =>
          with_agents
            (updateAgentPerformance
               (update_agent agentId (set_agent_status idle) (agents e2))
               agentId true (JS.or_default (r_actualImpact output) 0) (domainLabel t))
            e2
      | None => e2
      end
  end.

(** The parent [logOutput] notifies, if the task is queued and has one. *)
Definition parent_to_notify (e : Engine) (taskId : string) : option string :=
  match find_task taskId (taskQueue e) with
  | Some t => truthy (parentTaskId t)
  | None => None
  end.

(** [logOutput(taskId, agentId, output)], with the call of
    [checkAndAggregateParent] abstracted as [aggregate]. *)
Definition logOutput_with (aggregate : Engine -> string -> Engine)
           (e : Engine) (taskId agentId : string) (output : DispatchResult) : Engine :=
  let e' := commit_output e taskId agentId output in
  match parent_to_notify e taskId with
  | Some p => aggregate e' p
  | None => e'
  end.

(** The sub-tasks of a parent, as [checkAndAggregateParent] finds them. *)
Definition subtasks_of (parentId : string) (q : list Task) : list Task :=
  filter (fun t => match parentTaskId t with
                   | Some p => String.eqb p parentId
                   | None => false
                   end) q.

(** [subtasks.map(s => this.taskOutputs[s.id]).filter(Boolean)] *)
Definition subtaskResults_of (e : Engine) (subs : list Task) : list TaskOutput :=
  flat_map (fun s => match obj_get (id s) (taskOutputs e) with
                     | Some r => [r]
                     | None => []
                     end) subs.

(** The text assembled from the children's results and the shared
    contributions of the parent's collaboration context. *)
Definition aggregatedData (results : list TaskOutput) (shared : option (list SharedResult))
  : string :=
  let base :=
    JS.join (nl ++ "---" ++ nl)
            (map (fun r => "[Agent " ++ o_agentId r ++ "]: " ++ JS.show (o_resultData r))
                 results) in
  match shared with
  | Some (x :: l) =>
      fold_left
        (fun acc res =>
           acc ++ "[Task " ++ sr_taskId res ++ " by Agent " ++ sr_agentId res ++ "]: "
               ++ sr_data res ++ nl)
        (x :: l)
        (base ++ nl ++ nl ++ "=== Collaborative Contributions ===" ++ nl)
  | _ => base
  end.

(** The [aggregatedResult] object; its [predictedImpact] is only logged. *)
Record AggregatedResult : Type := {
  agg_result : DispatchResult;
  agg_predictedImpact : JS.num
}.

Definition mean_fixed (d : nat) (l : list JS.num) : JS.num :=
  JS.toFixed_num d (JS.div_len (fold_left JS.add l (JS.Num 0)) (List.length l)).

Definition aggregatedResult (results : list TaskOutput)
           (shared : option (list SharedResult)) : AggregatedResult :=
  {| agg_result :=
       {| r_resultData := Some (aggregatedData results shared);
          r_confidenceScore := mean_fixed 2 (map o_confidenceScore results);
          r_actualImpact :=
            mean_fixed 1 (map (fun r => JS.Num (JS.or_num (o_actualImpact r) 0)) results);
          r_executionTime :=
            JS.Num (fold_left (fun acc r => acc + JS.or_default (o_executionTime r) 0)
                              results 0) |};
     agg_predictedImpact :=
       mean_fixed 1 (map (fun r => JS.Num (JS.or_num (o_predictedImpact r) 0)) results) |}.

(** [checkAndAggregateParent(parentTaskId)].  The recursion through
    [logOutput] completes one more task at each level, so the number of
    queued tasks bounds its depth; [fuel] carries that bound. *)
Fixpoint checkAndAggregateParent (fuel : nat) (e : Engine) (parentId : string) : Engine :=
  match fuel with
  | O => e
  | S fuel' =>
      match find_task parentId (taskQueue e) with
      | None => e
      | Some parentTask =>
          if TaskStatus_eqb (status parentTask) completed then e
          else
            let subs := subtasks_of parentId (taskQueue e) in
            let allCompleted :=
              (0 <? List.length subs)%nat
              && forallb (fun s => TaskStatus_eqb (status s) completed) subs in
            if allCompleted then
              let agg :=
                aggregatedResult (subtaskResults_of e subs)
                                 (obj_get parentId (collaborationSpace e)) in
              logOutput_with (checkAndAggregateParent fuel') e parentId
                             AGGREGATOR_SYSTEM (agg_result agg)
            else e
      end
  end.

(** [logOutput(taskId, agentId, output)] *)
Definition logOutput (e : Engine) (taskId agentId : string) (output : DispatchResult)
  : Engine :=
  logOutput_with (checkAndAggregateParent (List.length (taskQueue e)))
                 e taskId agentId output.

(** The comparator of the two queue sorts, as [cmp(a, b) <= 0]: priority
    first, then predicted impact, both descending. *)
Definition queue_before (a b : Task) : bool :=
  let priorityDiff := JS.or_opt (priority b) 1 - JS.or_opt (priority a) 1 in
  if negb (Qeq_bool priorityDiff 0) then Qle_bool priorityDiff 0
  else Qle_bool (JS.or_num (predictedImpact b) 0 - JS.or_num (predictedImpact a) 0) 0.

Definition sort_queue (q : list Task) : list Task := JS.sort queue_before q.

(** An element of [subtaskSpecs]. *)
Record SubtaskSpec : Type := {
  s_description : string;
  s_domainLabel : string;
  s_complexityScore : Q;
  s_priority : option Q;
  s_dependencies : option (list string)
}.

Definition make_subtask (ags : list Agent) (parentId subtaskId : string)
           (spec : SubtaskSpec) : Task :=
  {| id := subtaskId;
     description := s_description spec;
     domainLabel := s_domainLabel spec;
     complexityScore := s_complexityScore spec;
     priority := s_priority spec;
     dependencies := match s_dependencies spec with Some l => l | None => [] end;
     subtasks := [];
     parentTaskId := Some parentId;
     interferedBy := [];
     status := pending;
     assignedTo := None;
     retryCount := 0;
     failedAgents := [];
     predictedImpact :=
       MetaReflection.predictImpact ags (s_complexityScore spec) (s_priority spec)
                                    (s_domainLabel spec);
     predictedSuccess := None;
     isCollaborative := false;
     suggestedAction := None |}.

(** The loop of [decomposeTask]; [uuid i] is the identifier drawn for the
    [i]-th spec. *)
Fixpoint push_subtasks (ags : list Agent) (parentId : string) (uuid : nat -> string)
         (i : nat) (specs : list SubtaskSpec) (q : list Task) : list Task :=
  match specs with
  | [] => q
  | spec :: rest =>
      let subtaskId := "subtask_" ++ uuid i in
      let subtask := make_subtask ags parentId subtaskId spec in
      push_subtasks ags parentId uuid (S i) rest
        (update_task parentId (fun p => set_subtasks (subtasks p ++ [subtaskId]) p)
                     (q ++ [subtask]))
  end.

(** [decomposeTask(parentTaskId, subtaskSpecs)]; [None] when it throws
    because the parent is not queued. *)
Definition decomposeTask (e : Engine) (parentId : string) (specs : list SubtaskSpec)
           (uuid : nat -> string) : option Engine :=
  match find_task parentId (taskQueue e) with
  | None => None
  | Some _ =>
      let q1 := update_task parentId (set_status waiting_for_subtasks) (taskQueue e) in
      let q2 := push_subtasks (agents e) parentId uuid 0 specs q1 in
      Some (with_taskQueue (sort_queue q2) e)
  end.

(** The two specs [handleTaskSplitting] builds. *)
Definition first_half_spec (task : Task) : SubtaskSpec :=
  {| s_description := "Subtask 1: Initial phase of " ++ description task;
     s_domainLabel := domainLabel task;
     s_complexityScore := inject_Z (Qceiling (complexityScore task / 2));
     s_priority := Some (JS.or_opt (priority task) 1 + 1);
     s_dependencies := None |}.

Definition second_half_spec (task : Task) : SubtaskSpec :=
  {| s_description := "Subtask 2: Conclusion of " ++ description task;
     s_domainLabel := domainLabel task;
     s_complexityScore := inject_Z (Qfloor (complexityScore task / 2));
     s_priority := priority task;
     s_dependencies := Some [] |}.

Definition splitting_specs (task : Task) : list SubtaskSpec :=
  [first_half_spec task; second_half_spec task].

(** [handleTaskSplitting(task)] *)
Definition handleTaskSplitting (e : Engine) (task : Task) (uuid : nat -> string)
  : option Engine :=
  decomposeTask e (id task) (splitting_specs task) uuid.

(** [handleTaskCollaboration(task)] *)
Definition handleTaskCollaboration (e : Engine) (task : Task) : Engine :=
  with_taskQueue
    (update_task (id task)
                 (fun t => set_collaboration (JS.qmin (JS.or_opt (priority t) 1 + 2) 10) t)
                 (taskQueue e))
    e.

(** The test of [processQueue]'s [find]: pending, not a parent waiting for
    sub-tasks, every dependency queued and completed. *)
Definition isReady (q : list Task) (t : Task) : bool :=
  if negb (TaskStatus_eqb (status t) pending) then false
  else if (0 <? List.length (subtasks t))%nat then false
  else if (0 <? List.length (dependencies t))%nat then
    forallb (fun depId =>
               match find_task depId q with
               | Some depTask => TaskStatus_eqb (status depTask) completed
               | None => false
               end) (dependencies t)
  else true.

Definition nextTask (e : Engine) : option Task :=
  find (isReady (taskQueue e)) (taskQueue e).

(** A dispatch in flight: the task and the agent it was sent to. *)
Definition Dispatch : Type := (string * string)%type.

(** The transition to [processing] and the call of the dispatcher. *)
Definition start_dispatch (e : Engine) (task : Task) (agentId : string) (p : Q)
  : Engine * option Dispatch :=
  (with_agents (update_agent agentId (set_agent_status busy) (agents e))
     (with_taskQueue
        (update_task (id task)
                     (fun t => set_predictedSuccess (Some p)
                                 (set_assignedTo (Some agentId) (set_status processing t)))
                     (taskQueue e))
        e),
   Some (id task, agentId)).

(** [processQueue()] up to its [await]: the new engine and the dispatch it
    issued, if any.  [uuid] supplies the identifiers a split draws. *)
Definition processQueue_begin (e : Engine) (uuid : nat -> string)
  : Engine * option Dispatch :=
  match nextTask e with
  | None => (e, None)
  | Some task =>
      let '(agentId, predictedSuccess) :=
        MetaReflection.evaluateAssignment e task (failedAgents task) in
      match truthy agentId with
      | None => (e, None)
      | Some agentId =>
          if negb (Qle_bool threshold predictedSuccess) then
            match MetaReflection.suggestRemediation (agents e) task with
            | MetaReflection.SPLIT =>
                match handleTaskSplitting e task uuid with
                | Some e' => (e', None)
                | None => (e, None)
                end
            | MetaReflection.COLLABORATE =>
                start_dispatch (handleTaskCollaboration e task) task agentId predictedSuccess
            | MetaReflection.REROUTE => (e, None)
            end
          else start_dispatch e task agentId predictedSuccess
      end
  end.

(** [processQueue()] after its [await], for the dispatch of [task] to
    [agentId].  Reading a property of [null] or [undefined] throws, which
    the [catch] turns into [handleTaskFailure] like a rejection; so does the
    last statement of [logOutput] should the task have left the queue, after
    the record is stored. *)
Definition processQueue_resume (e : Engine) (task : Task) (agentId : string)
           (outcome : DispatchOutcome) : Engine :=
  match outcome with
  | Rejected | ResolvedNullish => handleTaskFailure e task agentId
  | Resolved result =>
      if JS.lt (r_confidenceScore result) CONFIDENCE_THRESHOLD
      then handleTaskReassignment e task agentId
      else
        match find_task (id task) (taskQueue e) with
        | Some _ => logOutput e (id task) agentId result
        | None => handleTaskFailure (commit_output e (id task) agentId result) task agentId
        end
  end.

(** ** Validation, registration and submission *)

(** What a call returns, or what it throws. *)
Inductive Outcome (E A : Type) : Type :=
| Returned (a : A)
| Thrown (err : E).
Arguments Returned {E A} a.
Arguments Thrown {E A} err.

(** The object handed to [submitTask].  A field is absent or holds a value
    of its documented type. *)
Record TaskData : Type := {
  td_description : option string;
  td_domainLabel : option string;
  td_complexityScore : option Q;
  td_priority : option Q;
  td_dependencies : option (list string);
  td_parentTaskId : option string;
  td_interferedBy : list string
}.

Inductive TaskError : Type :=
| BadDescription
| BadDomainLabel
| UnknownDomain
| BadComplexityScore
| ComplexityOutOfRange.

(** The [performanceData] of a registration. *)
Record PerfSeed : Type := {
  seed_tasksCompleted : option Q;
  seed_successRate : option Q;
  seed_averageImpact : option Q;
  seed_domains : list (string * DomainPerf)
}.

(** The object handed to [registerAgent]. *)
Record AgentMetadata : Type := {
  md_id : option string;
  md_domainLabels : option (list string);
  md_skillScores : option (list (string * Q));
  md_apiEndpoint : option string;
  md_performanceData : option PerfSeed
}.

Inductive AgentError : Type :=
| DuplicateId
| BadDomainLabels
| InvalidDomainLabel (label : string)
| BadSkillScores
| BadApiEndpoint
| BadPerformanceData.

Section WithDomains.

(** The constant of [constants/Domains.js]. *)
Variable VALID_DOMAINS : list string.

(** [validateTask(task)]: the list of errors; the task is valid when it is
    empty. *)
Definition validateTask (task : TaskData) : list TaskError :=
  (match truthy (td_description task) with
   | None => [BadDescription]
   | Some _ => []
   end)
  ++ (match truthy (td_domainLabel task) with
      | None => [BadDomainLabel]
      | Some d => if includes VALID_DOMAINS d then [] else [UnknownDomain]
      end)
  ++ (match td_complexityScore task with
      | None => [BadComplexityScore]
      | Some c =>
          if negb (Qle_bool 1 c) || negb (Qle_bool c 10)
          then [ComplexityOutOfRange] else []
      end).

Definition isValid {E : Type} (errors : list E) : bool :=
  match errors with
  | [] => true
  | _ :: _ => false
  end.

(** [validateAgent(metadata, existingAgents)] *)
Definition validateAgent (metadata : AgentMetadata) (existingAgents : list Agent)
  : list AgentError :=
  (match truthy (md_id metadata) with
   | Some i => match get_agent i existingAgents with
               | Some _ => [DuplicateId]
               | None => []
               end
   | None => []
   end)
  ++ (match md_domainLabels metadata with
      | None | Some [] => [BadDomainLabels]
      | Some labels =>
          flat_map (fun label => if includes VALID_DOMAINS label then []
                                 else [InvalidDomainLabel label]) labels
      end)
  ++ (match md_skillScores metadata with
      | None => [BadSkillScores]
      | Some _ => []
      end)
  ++ (match truthy (md_apiEndpoint metadata) with
      | None => [BadApiEndpoint]
      | Some _ => []
      end)
  ++ (match md_performanceData metadata with
      | None => [BadPerformanceData]
      | Some _ => []
      end).

Definition or_else {A : Type} (x : option A) (d : A) : A :=
  match x with
  | Some v => v
  | None => d
  end.

(** The identifier [registerAgent] gives the agent; [uuid8] is the first
    group of a fresh [uuidv4()]. *)
Definition registered_id (metadata : AgentMetadata) (uuid8 : string) : string :=
  match truthy (md_id metadata) with
  | Some i => i
  | None => "agent_" ++ uuid8
  end.

(** [registerAgent(metadata)] *)
Definition registerAgent (e : Engine) (metadata : AgentMetadata) (uuid8 : string)
  : Outcome (list AgentError) (Engine * string) :=
  let errors := validateAgent metadata (agents e) in
  if negb (isValid errors) then Thrown errors
  else
    let agentId := registered_id metadata uuid8 in
    let seed :=
      or_else (md_performanceData metadata)
              {| seed_tasksCompleted := None; seed_successRate := None;
                 seed_averageImpact := None; seed_domains := [] |} in
    let agent :=
      {| agent_id := agentId;
         domainLabels := or_else (md_domainLabels metadata) [];
         skillScores := or_else (md_skillScores metadata) [];
         apiEndpoint := or_else (md_apiEndpoint metadata) EmptyString;
         performanceData :=
           {| tasksCompleted := or_else (seed_tasksCompleted seed) 0;
              successRate := or_else (seed_successRate seed) 0;
              averageImpact := or_else (seed_averageImpact seed) 0;
              domains := seed_domains seed |};
         agent_status := idle |} in
    Returned (with_agents (set_agent agent (agents e)) e, agentId).

(** [submitTask(taskData)]; [uuid] is a fresh [uuidv4()]. *)
Definition submitTask (e : Engine) (taskData : TaskData) (uuid : string)
  : Outcome (list TaskError) (Engine * string) :=
  let errors := validateTask taskData in
  if negb (isValid errors) then Thrown errors
  else
    let taskId := "task_" ++ uuid in
    let domain := or_else (td_domainLabel taskData) EmptyString in
    let complexity := or_else (td_complexityScore taskData) 0 in
    let task :=
      {| id := taskId;
         description := or_else (td_description taskData) EmptyString;
         domainLabel := domain;
         complexityScore := complexity;
         priority := td_priority taskData;
         dependencies := or_else (td_dependencies taskData) [];
         subtasks := [];
         parentTaskId := truthy (td_parentTaskId taskData);
         interferedBy := td_interferedBy taskData;
         status := pending;
         assignedTo := None;
         retryCount := 0;
         failedAgents := [];
         predictedImpact :=
           MetaReflection.predictImpact (agents e) complexity (td_priority taskData) domain;
         predictedSuccess := None;
         isCollaborative := false;
         suggestedAction := None |} in
    Returned (with_taskQueue (sort_queue (taskQueue e ++ [task])) e, taskId).

(** *** Runs of the engine

    A configuration is the engine together with the dispatches whose
    [await] has not returned yet.  An operation is a call of the public
    interface, a tick of the execution loop, or the return of one dispatch;
    they interleave freely, as the dispatches are asynchronous. *)

Record Config : Type := {
  engine : Engine;
  inflight : list Dispatch
}.

Inductive Op : Type :=
| OpRegister (metadata : AgentMetadata) (uuid8 : string)
| OpSubmit (taskData : TaskData) (uuid : string)
| OpTick (uuid : nat -> string)
| OpResume (taskId agentId : string) (outcome : DispatchOutcome).

Definition initial : Config := {| engine := new_engine; inflight := [] |}.

Definition dispatch_eqb (a b : Dispatch) : bool :=
  String.eqb (fst a) (fst b) && String.eqb (snd a) (snd b).

Fixpoint remove_dispatch (d : Dispatch) (l : list Dispatch) : list Dispatch :=
  match l with
  | [] => []
  | x :: l' => if dispatch_eqb x d then l' else x :: remove_dispatch d l'
  end.

Definition queued (tid : string) (e : Engine) : bool :=
  match find_task tid (taskQueue e) with
  | Some _ => true
  | None => false
  end.

(** The identifiers a tick may draw do not collide: [uuidv4] is taken to
    be collision free. *)
Definition fresh_split_ids (e : Engine) (uuid : nat -> string) : bool :=
  negb (queued ("subtask_" ++ uuid 0%nat) e)
  && negb (queued ("subtask_" ++ uuid 1%nat) e)
  && negb (String.eqb (uuid 0%nat) (uuid 1%nat)).

(** One operation.  [None] marks what is not a run: a colliding uuid, or
    the return of a dispatch that is not in flight.  A call that throws
    leaves the configuration as it is. *)
Definition apply_op (c : Config) (op : Op) : option Config :=
  match op with
  | OpRegister metadata uuid8 =>
      match registerAgent (engine c) metadata uuid8 with
      | Thrown _ => Some c
      | Returned (e', _) =>
          match get_agent (registered_id metadata uuid8) (agents (engine c)) with
          | Some _ => None
          | None => Some {| engine := e'; inflight := inflight c |}
          end
      end
  | OpSubmit taskData uuid =>
      match submitTask (engine c) taskData uuid with
      | Thrown _ => Some c
      | Returned (e', _) =>
          if queued ("task_" ++ uuid) (engine c) then None
          else Some {| engine := e'; inflight := inflight c |}
      end
  | OpTick uuid =>
      if fresh_split_ids (engine c) uuid then
        let '(e', d) := processQueue_begin (engine c) uuid in
        Some {| engine := e';
                inflight := match d with
                            | Some x => inflight c ++ [x]
                            | None => inflight c
                            end |}
      else None
  | OpResume taskId agentId outcome =>
      if existsb (dispatch_eqb (taskId, agentId)) (inflight c) then
        match find_task taskId (taskQueue (engine c)) with
        | Some task =>
            Some {| engine := processQueue_resume (engine c) task agentId outcome;
                    inflight := remove_dispatch (taskId, agentId) (inflight c) |}
        | None => None
        end
      else None
  end.

Fixpoint run (c : Config) (ops : list Op) : option Config :=
  match ops with
  | [] => Some c
  | op :: ops' =>
      match apply_op c op with
      | Some c' => run c' ops'
      | None => None
      end
  end.

End WithDomains.

(** ** Scenarios *)

(** Modelled from the spec: the valid domain set is an externally configured
    list, and [constants/Domains.js] is not among the sources.  The scenarios
    instantiate [VALID_DOMAINS] with the labels the repository's simulations
    use. *)
Definition DOMAINS : list string :=
  ["research"; "data-collection"; "analysis"; "logic"; "coding";
   "creative-writing"; "optimization"; "translation"; "summarization";
   "data-science"].

Definition no_seed : PerfSeed :=
  {| seed_tasksCompleted := None; seed_successRate := None;
     seed_averageImpact := None; seed_domains := [] |}.

Definition agent_md (name domain : string) (skill : Q) : AgentMetadata :=
  {| md_id := Some name;
     md_domainLabels := Some [domain];
     md_skillScores := Some [(domain, skill)];
     md_apiEndpoint := Some ("http://" ++ name);
     md_performanceData := Some no_seed |}.

Definition task_data (descr domain : string) (c : Q) (p : option Q)
           (deps : list string) : TaskData :=
  {| td_description := Some descr;
     td_domainLabel := Some domain;
     td_complexityScore := Some c;
     td_priority := p;
     td_dependencies := Some deps;
     td_parentTaskId := None;
     td_interferedBy := [] |}.

(** A supply of two identifiers. *)
Definition uuids (a b : string) (i : nat) : string :=
  match i with
  | O => a
  | _ => b
  end.

(** Identifiers for ticks that draw none. *)
Definition no_uuid : nat -> string := uuids "spare-0" "spare-1".

(** What [run] yields, the engine unchanged where a run is refused. *)
Definition run_from (c : Config) (ops : list Op) : Config :=
  match run DOMAINS c ops with
  | Some c' => c'
  | None => c
  end.

Definition status_of (tid : string) (e : Engine) : option TaskStatus :=
  option_map status (find_task tid (taskQueue e)).

Definition agent_status_of (aid : string) (e : Engine) : option AgentStatus :=
  option_map agent_status (get_agent aid (agents e)).

(** *** Cyclic chain and a dependent (tests/complex_dependency_workflow.js) *)

Definition injected (tid descr domain : string) (p c : Q) (deps : list string) : Task :=
  {| id := tid; description := descr; domainLabel := domain;
     complexityScore := c; priority := Some p; dependencies := deps;
     subtasks := []; parentTaskId := None; interferedBy := [];
     status := pending; assignedTo := None; retryCount := 0; failedAgents := [];
     predictedImpact := 0; predictedSuccess := None;
     isCollaborative := false; suggestedAction := None |}.

(** A placeholder for lookups that cannot fail. *)
Definition no_task : Task := injected EmptyString EmptyString EmptyString 0 0 [].

(** The task queued under [tid] in a configuration. *)
Definition task_of (tid : string) (c : Config) : Task :=
  or_else (find_task tid (taskQueue (engine c))) no_task.

Definition two_domain_md (name d1 d2 : string) (s1 s2 : Q) : AgentMetadata :=
  {| md_id := Some name;
     md_domainLabels := Some [d1; d2];
     md_skillScores := Some [(d1, s1); (d2, s2)];
     md_apiEndpoint := Some ("http://" ++ name);
     md_performanceData := Some no_seed |}.

Definition cycle_agents : Config :=
  run_from initial
    [OpRegister (two_domain_md "agent-alpha" "analysis" "logic" 9 8) EmptyString;
     OpRegister (two_domain_md "agent-beta" "creative-writing" "logic" 8 7) EmptyString;
     OpRegister (two_domain_md "agent-gamma" "logic" "analysis" 9 7) EmptyString].

Definition cycle_pushed : Engine :=
  with_taskQueue
    (taskQueue (engine cycle_agents)
       ++ [injected "task_cycle_1" "Circular Task A" "logic" 5 6 ["task_cycle_2"];
           injected "task_cycle_2" "Circular Task B" "analysis" 5 4 ["task_cycle_3"];
           injected "task_cycle_3" "Circular Task C" "logic" 5 5 ["task_cycle_1"]])
    (engine cycle_agents).

Definition cycle_engine : Engine :=
  match submitTask DOMAINS cycle_pushed
          (task_data "Task depending on Alpha and Beta outputs" "creative-writing"
                     7 (Some 8) ["task_cycle_1"; "task_cycle_2"]) "multi_dep" with
  | Returned (e, _) => e
  | Thrown _ => cycle_pushed
  end.

(** [n] ticks of the execution loop, the dispatches they issue dropped. *)
Definition ticks (n : nat) (uuid : nat -> string) (e : Engine) : Engine :=
  Nat.iter n (fun e' => fst (processQueue_begin e' uuid)) e.

(** *** A task that exhausts its retries, and a dependent *)

Definition cascade_config : Config :=
  run_from initial
    [OpRegister (agent_md "a1" "logic" 8) EmptyString;
     OpRegister (agent_md "a2" "logic" 8) EmptyString;
     OpRegister (agent_md "a3" "logic" 8) EmptyString;
     OpSubmit (task_data "antecedent" "logic" 5 (Some 5) []) "T";
     OpSubmit (task_data "dependent" "logic" 5 (Some 4) ["task_T"]) "D";
     OpTick no_uuid; OpResume "task_T" "a1" Rejected;
     OpTick no_uuid; OpResume "task_T" "a2" Rejected;
     OpTick no_uuid; OpResume "task_T" "a3" Rejected].

(** *** A corrupt dispatch result (tests/EdgeCaseSimulation.js, mode 'nan') *)

Definition nan_result : DispatchResult :=
  {| r_resultData := None; r_confidenceScore := JS.NaN;
     r_actualImpact := JS.NaN; r_executionTime := JS.NaN |}.

Definition chaos_dispatched : Config :=
  run_from initial
    [OpRegister (agent_md "chaotic_agent" "logic" 10) EmptyString;
     OpSubmit (task_data "Chaos task for nan" "logic" 5 (Some 10) []) "chaos";
     OpTick no_uuid].

Definition chaos_config : Config :=
  run_from chaos_dispatched [OpResume "task_chaos" "chaotic_agent" (Resolved nan_result)].

(** *** A low-confidence result *)

Definition result (data : string) (confidence impact time : Q) : DispatchResult :=
  {| r_resultData := Some data; r_confidenceScore := JS.Num confidence;
     r_actualImpact := JS.Num impact; r_executionTime := JS.Num time |}.

Definition low_confidence_dispatched : Config :=
  run_from initial
    [OpRegister (agent_md "solo" "logic" 8) EmptyString;
     OpSubmit (task_data "unsure" "logic" 5 (Some 5) []) "L";
     OpTick no_uuid].

(** *** Splitting and aggregation (tests/test_meta_reflection.js) *)

Definition split_submitted : Config :=
  run_from initial
    [OpRegister (agent_md "junior-1" "coding" 3) EmptyString;
     OpSubmit (task_data "Very complex task" "coding" 9 (Some 10) []) "P"].

Definition split_config : Config :=
  run_from split_submitted [OpTick (uuids "S1" "S2")].



(** *** A priority-0 task and a priority-1 task *)

Definition priority_config : Config :=
  run_from initial
    [OpRegister (agent_md "worker" "logic" 9) EmptyString;
     OpSubmit (task_data "priority one" "logic" 1 (Some 1) []) "Y";
     OpSubmit (task_data "priority zero" "logic" 9 (Some 0) []) "X"].

(** *** A priority raised by the collaboration strategy

    Two agents of skill 5 make every dispatch a collaboration, which raises
    the task's priority by 2 in place.  B (priority 4) is dispatched while A
    (priority 5) waits for Z; B is rejected and returns to the queue with
    priority 6, behind A; Z completes. *)

Definition bumped_ops : list Op :=
  [OpRegister (agent_md "j1" "logic" 5) EmptyString;
   OpRegister (agent_md "j2" "logic" 5) EmptyString;
   OpSubmit (task_data "Z" "logic" 5 (Some 9) []) "Z";
   OpSubmit (task_data "A" "logic" 5 (Some 5) ["task_Z"]) "A";
   OpSubmit (task_data "B" "logic" 5 (Some 4) []) "B";
   OpTick no_uuid;
   OpTick no_uuid;
   OpResume "task_B" "j2" Rejected;
   OpResume "task_Z" "j1" (Resolved (result "done" 0.9 5 100))].

Definition bumped_config : Config := run_from initial bumped_ops.

(** *** A submitted task that names a task in flight as its parent *)

Definition child_data (parent : string) : TaskData :=
  {| td_description := Some "child";
     td_domainLabel := Some "logic";
     td_complexityScore := Some 3;
     td_priority := Some 5;
     td_dependencies := None;
     td_parentTaskId := Some parent;
     td_interferedBy := [] |}.

Definition adopted_ops : list Op :=
  [OpRegister (agent_md "a1" "logic" 9) EmptyString;
   OpRegister (agent_md "a2" "logic" 9) EmptyString;
   OpSubmit (task_data "long running" "logic" 5 (Some 5) []) "P";
   OpTick no_uuid;
   OpSubmit (child_data "task_P") "S";
   OpTick no_uuid;
   OpResume "task_S" "a2" (Resolved (result "done" 0.9 5 100))].

Definition adopted_config : Config := run_from initial adopted_ops.

(** ** The specification's wording, where it is compared with the code *)

(** The priorities of the two children of a split as the specification has
    them: [p + 1] capped at 10, and [p]. *)
Definition spec_child_priorities (p : Q) : Q * Q := (JS.qmin (p + 1) 10, p).

(** The parent after a split into [child1] and [child2]. *)
Definition split_parent (child1 child2 : string) (p : Task) : Task :=
  set_subtasks (subtasks p ++ [child1; child2]) (set_status waiting_for_subtasks p).

(** The fields of a queued task that the submission schema constrains. *)
Definition schema_fields (t : Task) : TaskData :=
  {| td_description := Some (description t);
     td_domainLabel := Some (domainLabel t);
     td_complexityScore := Some (complexityScore t);
     td_priority := priority t;
     td_dependencies := Some (dependencies t);
     td_parentTaskId := parentTaskId t;
     td_interferedBy := interferedBy t |}.

(** The task [split_submitted] holds. *)
Definition split_parent_task : Task := task_of "task_P" split_submitted.

(** The same submission with priority 0, and its split. *)
Definition zero_submitted : Config :=
  run_from initial
    [OpRegister (agent_md "junior-1" "coding" 3) EmptyString;
     OpSubmit (task_data "Very complex task" "coding" 9 (Some 0) []) "P"].

Definition zero_config : Config :=
  run_from zero_submitted [OpTick (uuids "S1" "S2")].

(** A queue with one task of complexity 1. *)
Definition simple_submitted : Config :=
  run_from initial
    [OpSubmit (task_data "A simple task" "logic" 1 (Some 5) []) "one"].

Definition simple_task : Task := task_of "task_one" simple_submitted.



Definition effective_priority (task : Task) : Q :=
  match priority task with
  | Some p => if Qeq_bool p 0 then 1 else p
  | None => 1
  end.




(** A task's priority as the specification reads it: 1 when missing. *)
Definition spec_priority (t : Task) : Q := or_else (priority t) 1.

(** Descending effective priority, the order the queue sorts establish. *)
Definition priority_desc (a b : Task) : Prop :=
  effective_priority b <= effective_priority a.

(** What the queue keeps along a run: it is in that order unless some task
    carries the collaboration flag, which [handleTaskCollaboration] sets
    when it raises a priority in place. *)
Definition Ordered (q : list Task) : Prop :=
  (exists t, In t q /\ isCollaborative t = true) \/ StronglySorted priority_desc q.

(** The task [low_confidence_dispatched] holds, and a result of confidence
    0.4 for it. *)
Definition unsure_task : Task := task_of "task_L" low_confidence_dispatched.

Definition unsure_result : DispatchResult := result "a guess" 0.4 3 100.

(** The task [chaos_dispatched] holds. *)
Definition chaos_task : Task := task_of "task_chaos" chaos_dispatched.


(** The value the code rounds with [toFixed] is a double, which the
    arithmetic before it has moved away from the exact value by rounding
    errors of the order of 1e-16 for arguments in their documented ranges;
    at a decimal tie that decides the direction.  Statements about a
    rounded result therefore bound its distance from the exact value by
    half a unit of the last decimal kept plus this allowance, which
    exceeds the error of the doubles by several orders of magnitude. *)
Definition double_slack : Q := 1 # 1000000000.


(** The number of queued tasks that are not completed. *)
Definition open_tasks (q : list Task) : nat :=
  List.length (filter (fun t => negb (TaskStatus_eqb (status t) completed)) q).






(** ** The busy/processing invariant *)

(** What the invariant reads of the agents: identifier and status. *)
Definition agent_view (ags : list Agent) : list (string * AgentStatus) :=
  map (fun a => (agent_id a, agent_status a)) ags.

(** Some queued task is being processed by [aid]. *)
Definition processing_for (q : list Task) (aid : string) : Prop :=
  exists t, In t q /\ status t = processing /\ assignedTo t = Some aid.

(** The operations under which the invariant of C9 holds: no agent takes
    the aggregator's identifier, and no submitted task names a parent. *)
Definition plain_op (op : Op) : Prop :=
  match op with
  | OpRegister metadata uuid8 => registered_id metadata uuid8 <> AGGREGATOR_SYSTEM
  | OpSubmit taskData _ => truthy (td_parentTaskId taskData) = None
  | OpTick _ => True
  | OpResume _ _ _ => True
  end.

(** The inductive invariant: identifiers are unique; the dispatches in
    flight are exactly the processing tasks with their assignees, one per
    task and one per agent; the busy agents are exactly the assignees in
    flight; a task with children is waiting for them or completed; the
    aggregator's identifier is not an agent. *)
Record Inv (q : list Task) (ags : list Agent) (fl : list Dispatch) : Prop := {
  inv_ids : NoDup (map id q);
  inv_agent_ids : NoDup (map fst (agent_view ags));
  inv_flight_tasks : NoDup (map fst fl);
  inv_flight_agents : NoDup (map snd fl);
  inv_flight :
    forall tid aid, In (tid, aid) fl ->
      exists t, In t q /\ id t = tid /\ status t = processing /\ assignedTo t = Some aid;
  inv_processing :
    forall t, In t q -> status t = processing ->
      exists aid, assignedTo t = Some aid /\ In (id t, aid) fl
                  /\ In (aid, busy) (agent_view ags);
  inv_busy :
    forall aid, In (aid, busy) (agent_view ags) -> exists tid, In (tid, aid) fl;
  inv_parents :
    forall t p, In t q -> parentTaskId t = Some p ->
      exists pt, In pt q /\ id pt = p
                 /\ (status pt = waiting_for_subtasks \/ status pt = completed);
  inv_sentinel : ~ In AGGREGATOR_SYSTEM (map fst (agent_view ags))
}.

Definition Inv_config (c : Config) : Prop :=
  Inv (taskQueue (engine c)) (agents (engine c)) (inflight c).

(** An agent registered under the aggregator's identifier, busy while a
    split parent is aggregated. *)
Definition sentinel_ops : list Op :=
  [OpRegister (agent_md "junior-1" "coding" 3) EmptyString;
   OpSubmit (task_data "Very complex task" "coding" 9 (Some 10) []) "P";
   OpTick (uuids "S1" "S2");
   OpRegister (agent_md "senior" "coding" 9) EmptyString;
   OpRegister (agent_md "AGGREGATOR_SYSTEM" "logic" 9) EmptyString;
   OpSubmit (task_data "long running" "logic" 5 (Some 1) []) "L";
   OpTick no_uuid;
   OpTick no_uuid;
   OpTick no_uuid;
   OpResume "subtask_S1" "senior" (Resolved (result "first half" 0.8 6 100));
   OpResume "subtask_S2" "junior-1" (Resolved (result "second half" 0.9 4 150))].

Definition sentinel_config : Config := run_from initial sentinel_ops.

(** A run that leaves one dispatch in flight. *)
Definition dispatch_ops : list Op :=
  [OpRegister (agent_md "solo" "logic" 8) EmptyString;
   OpRegister (agent_md "spare" "logic" 7) EmptyString;
   OpSubmit (task_data "unsure" "logic" 5 (Some 5) []) "L";
   OpTick no_uuid].

Definition dispatch_config : Config := run_from initial dispatch_ops.

(** ** Further notions used by the properties of the engine *)

(** The order the queue sorts establish, in full: descending effective
    priority, and descending predicted impact among equal priorities. *)
Definition queue_order (a b : Task) : Prop :=
  effective_priority b < effective_priority a
  \/ (effective_priority b == effective_priority a
      /\ predictedImpact b <= predictedImpact a).

(** A submission of a logic task, and an engine with two agents of
    different skill. *)
Definition logic_data (descr : string) (c p : Q) : TaskData :=
  task_data descr "logic" c (Some p) [].

Definition two_tasks : Config :=
  run_from initial
    [OpSubmit (logic_data "first" 5 5) "A";
     OpSubmit (logic_data "second" 5 3) "B"].

Definition two_agents : Config :=
  run_from initial
    [OpRegister (agent_md "novice" "logic" 3) EmptyString;
     OpRegister (agent_md "expert" "logic" 9) EmptyString;
     OpRegister (agent_md "peer" "logic" 9) EmptyString].

(** Statistics of a domain that are what running means and their
    uncertainty can be: a count that is not negative, a success rate and an
    uncertainty between 0 and 1. *)
Definition calibrated (d : DomainPerf) : Prop :=
  0 <= d_tasksCompleted d
  /\ 0 <= d_successRate d <= 1
  /\ 0 <= d_uncertainty d <= 1.

(** The statistics [updateAgentMetadata] starts from. *)
Definition domain_stats (domain : string) (a : Agent) : DomainPerf :=
  match obj_get domain (domains (performanceData a)) with
  | Some d => d
  | None => MetaReflection.fresh_domainPerf
  end.

(** A task of the logic domain that tasks of the analysis domain disturb. *)
Definition disturbed_task : Task :=
  {| id := "task_d"; description := "disturbed"; domainLabel := "logic";
     complexityScore := 5; priority := Some 5; dependencies := [];
     subtasks := []; parentTaskId := None; interferedBy := ["analysis"];
     status := pending; assignedTo := None; retryCount := 0; failedAgents := [];
     predictedImpact := 0; predictedSuccess := None;
     isCollaborative := false; suggestedAction := None |}.

Definition busy_analysis (tid : string) : Task :=
  set_status processing (injected tid "analysis work" "analysis" 5 5 []).

Definition weak_agent : Agent :=
  {| agent_id := "weak"; domainLabels := ["logic"];
     skillScores := [("logic", 1)]; apiEndpoint := "http://weak";
     performanceData := {| tasksCompleted := 0; successRate := 0;
                           averageImpact := 0; domains := [] |};
     agent_status := idle |}.

(** An agent with a history in the logic domain: one success in three
    tasks. *)
Definition seasoned_agent : Agent :=
  {| agent_id := "seasoned"; domainLabels := ["logic"];
     skillScores := [("logic", 8)]; apiEndpoint := "http://seasoned";
     performanceData :=
       {| tasksCompleted := 3; successRate := 1 # 3; averageImpact := 2;
          domains := [("logic", {| d_tasksCompleted := 3; d_successRate := 1 # 3;
                                   d_averageImpact := 2; d_uncertainty := 0.25;
                                   d_confidence := 0.5 |})] |};
     agent_status := idle |}.

(** One agent that has already failed the task at the head of the queue,
    and a second task behind it. *)
Definition stalled_config : Config :=
  run_from initial
    [OpRegister (agent_md "only" "logic" 9) EmptyString;
     OpSubmit (logic_data "head" 5 5) "H";
     OpSubmit (logic_data "behind" 5 3) "U";
     OpTick no_uuid;
     OpResume "task_H" "only" Rejected].

(** One agent of low skill and a task of moderate complexity. *)
Definition reroute_config : Config :=
  run_from initial
    [OpRegister (agent_md "novice" "logic" 3) EmptyString;
     OpSubmit (logic_data "moderate" 5 5) "M"].

(** The identifiers [decomposeTask] draws for [n] specs, from the [i]-th
    on, and the sub-tasks it builds with them. *)
Definition subtask_ids (uuid : nat -> string) (i n : nat) : list string :=
  map (fun k => "subtask_" ++ uuid k) (seq i n).

Fixpoint new_subtasks (ags : list Agent) (parentId : string) (uuid : nat -> string)
         (i : nat) (specs : list SubtaskSpec) : list Task :=
  match specs with
  | [] => []
  | spec :: rest =>
      make_subtask ags parentId ("subtask_" ++ uuid i) spec
      :: new_subtasks ags parentId uuid (S i) rest
  end.

Definition spec_of (descr domain : string) (c p : Q) : SubtaskSpec :=
  {| s_description := descr; s_domainLabel := domain; s_complexityScore := c;
     s_priority := Some p; s_dependencies := None |}.

Definition three_specs : list SubtaskSpec :=
  [spec_of "collect" "research" 3 6; spec_of "analyse" "analysis" 4 5;
   spec_of "report" "summarization" 2 4].

(** A supply of identifiers: the digit of the index. *)
Definition numbered (k : nat) : string := String (ascii_of_nat (48 + k)) EmptyString.

(** The retry bookkeeping of a task is sound: the attempts counted are the
    agents remembered, there are at most three, fewer while the task can
    still be dispatched, and exactly three once it has failed. *)
Definition accounted (t : Task) : Prop :=
  retryCount t = List.length (failedAgents t)
  /\ (retryCount t <= 3)%nat
  /\ (status t = pending \/ status t = processing -> (retryCount t < 3)%nat)
  /\ (status t = failed -> retryCount t = 3%nat).

(** The invariant that carries it through a run: identifiers are unique,
    at most one dispatch is in flight per task, and a task in flight has
    attempts left. *)
Record Acct (q : list Task) (fl : list Dispatch) : Prop := {
  acct_ids : NoDup (map id q);
  acct_flight_ids : NoDup (map fst fl);
  acct_tasks : forall t, In t q -> accounted t;
  acct_flight :
    forall tid aid, In (tid, aid) fl ->
      exists t, In t q /\ id t = tid /\ (retryCount t < 3)%nat
                /\ (status t = processing \/ status t = completed)
}.

(** Three rejections of one task by three agents. *)
Definition exhaust_ops : list Op :=
  [OpRegister (agent_md "a1" "logic" 8) EmptyString;
   OpRegister (agent_md "a2" "logic" 8) EmptyString;
   OpRegister (agent_md "a3" "logic" 8) EmptyString;
   OpSubmit (logic_data "unlucky" 5 5) "T";
   OpTick no_uuid; OpResume "task_T" "a1" Rejected;
   OpTick no_uuid; OpResume "task_T" "a2" Rejected;
   OpTick no_uuid; OpResume "task_T" "a3" Rejected].

Definition exhausted : Config := run_from initial exhaust_ops.

(** A task is finished for good once it is completed or failed. *)
Definition terminal (t : Task) : Prop := status t = completed \/ status t = failed.

(** What may follow [bumped_ops]: the rejected task is dispatched again and
    completes, and a new task arrives. *)
Definition later_ops : list Op :=
  [OpTick no_uuid;
   OpSubmit (logic_data "newcomer" 4 7) "N";
   OpTick no_uuid].

(** ** The collaboration protocol

    [collaborate] works on [collaborationSpace] and on three more fields
    that nothing else in the engine reads: the log of interactions and, per
    context, the requests and the synchronisation points.  [Blackboard]
    adds them to the engine.  A payload is represented by its rendering
    under [JSON.stringify], which is all the aggregation uses, and by its
    [targetTaskId] property, which [REQUEST_INPUT] reads; a stored payload
    is handed back as its rendering. *)

Record Payload : Type := {
  p_json : string;
  p_targetTaskId : option string
}.

Record CollabRequest : Type := {
  req_from : string;
  req_taskId : string;
  req_payload : Payload
}.

Record CollabLog : Type := {
  log_taskId : string;
  log_agentId : string;
  log_action : string;
  log_payload : Payload
}.

Record Blackboard : Type := {
  core : Engine;
  requests : list (string * list CollabRequest);
  syncPoints : list (string * list (string * Payload));
  collaborationLogs : list CollabLog
}.

Definition with_collaborationSpace (s : list (string * list SharedResult)) (e : Engine)
  : Engine :=
  {| agents := agents e; taskQueue := taskQueue e; taskOutputs := taskOutputs e;
     collaborationSpace := s |}.

(** [sharedResults[taskId]] *)
Definition get_shared (taskId : string) (l : list SharedResult) : option SharedResult :=
  find (fun r => String.eqb (sr_taskId r) taskId) l.

(** [sharedResults[r.taskId] = r]: an existing key keeps its place. *)
Fixpoint set_shared (r : SharedResult) (l : list SharedResult) : list SharedResult :=
  match l with
  | [] => [r]
  | x :: l' =>
      if String.eqb (sr_taskId x) (sr_taskId r) then r :: l' else x :: set_shared r l'
  end.

(** The context a task collaborates in: its parent's, or its own. *)
Definition context_of (task : Task) : string :=
  match truthy (parentTaskId task) with
  | Some p => p
  | None => id task
  end.

(** [collaborate(taskId, agentId, action, payload)]: what the promise
    resolves with, or the message of the error it rejects with. *)
Definition collaborate (b : Blackboard) (taskId agentId action : string)
           (payload : Payload) : Outcome string (Blackboard * option string) :=
  match find_task taskId (taskQueue (core b)) with
  | None => Thrown ("Task " ++ taskId ++ " not found")
  | Some task =>
      let contextId :=
        match truthy (parentTaskId task) with
        | Some p => p
        | None => taskId
        end in
      let space :=
        match obj_get contextId (collaborationSpace (core b)) with
        | Some _ => collaborationSpace (core b)
        | None => obj_set contextId [] (collaborationSpace (core b))
        end in
      let shared := or_else (obj_get contextId space) [] in
      let logs :=
        (collaborationLogs b
           ++ [{| log_taskId := taskId; log_agentId := agentId;
                  log_action := action; log_payload := payload |}])%list in
      if String.eqb action "SHARE_RESULT" then
        Returned
          ({| core :=
                with_collaborationSpace
                  (obj_set contextId
                           (set_shared {| sr_taskId := taskId; sr_agentId := agentId;
                                          sr_data := p_json payload |} shared)
                           space)
                  (core b);
              requests := requests b;
              syncPoints := syncPoints b;
              collaborationLogs := logs |},
           None)
      else if String.eqb action "REQUEST_INPUT" then
        Returned
          ({| core := with_collaborationSpace space (core b);
              requests :=
                obj_set contextId
                        (or_else (obj_get contextId (requests b)) []
                           ++ [{| req_from := agentId; req_taskId := taskId;
                                  req_payload := payload |}])%list
                        (requests b);
              syncPoints := syncPoints b;
              collaborationLogs := logs |},
           match truthy (p_targetTaskId payload) with
           | Some target => option_map sr_data (get_shared target shared)
           | None => None
           end)
      else if String.eqb action "SYNC_PROGRESS" then
        Returned
          ({| core := with_collaborationSpace space (core b);
              requests := requests b;
              syncPoints :=
                obj_set contextId
                        (obj_set taskId payload
                                 (or_else (obj_get contextId (syncPoints b)) []))
                        (syncPoints b);
              collaborationLogs := logs |},
           None)
      else
        Returned
          ({| core := with_collaborationSpace space (core b);
              requests := requests b;
              syncPoints := syncPoints b;
              collaborationLogs := logs |},
           None)
  end.

(** The engine with an empty log and no requests or synchronisation
    points. *)
Definition blackboard (e : Engine) : Blackboard :=
  {| core := e; requests := []; syncPoints := []; collaborationLogs := [] |}.

Definition payload (json : string) (target : option string) : Payload :=
  {| p_json := json; p_targetTaskId := target |}.

(** The engine of [split_config], where the two halves of task_P wait. *)
Definition split_board : Blackboard := blackboard (engine split_config).



(** The property names every JavaScript object inherits from
    [Object.prototype].  A lookup [obj[k]] under such a name finds the
    inherited member where the object has no entry of its own, which an
    association list does not show; the identifiers the engine generates
    carry a prefix and are never among them.  Statements about a key that a
    caller chooses and that may be absent assume a plain key. *)
Definition prototype_names : list string :=
  ["constructor"; "__proto__"; "hasOwnProperty"; "isPrototypeOf";
   "propertyIsEnumerable"; "toLocaleString"; "toString"; "valueOf";
   "__defineGetter__"; "__defineSetter__"; "__lookupGetter__"; "__lookupSetter__"].

Definition plain_key (k : string) : Prop := ~ In k prototype_names.


(** * Properties *)

(** ** Queue and agent-map lemmas *)

Lemma find_task_id (tid : string) (q : list Task) (t : Task) :
  find_task tid q = Some t -> id t = tid /\ In t q.
Proof.
  unfold find_task. intro H. apply find_some in H. destruct H as [Hin Heq].
  apply String.eqb_eq in Heq. auto.
Qed.

Lemma find_task_none (tid : string) (q : list Task) :
  find_task tid q = None -> forall t, In t q -> id t <> tid.
Proof.
  unfold find_task. intros H t Hin Heq.
  apply (find_none _ _ H) in Hin. apply String.eqb_neq in Hin. contradiction.
Qed.

Lemma find_task_nodup (q : list Task) (t : Task) :
  NoDup (map id q) -> In t q -> find_task (id t) q = Some t.
Proof.
  induction q as [|x q IH]; simpl; intros Hnd Hin; [contradiction|].
  inversion Hnd as [|? ? Hnotin Hnd']; subst.
  destruct Hin as [->|Hin].
  - now rewrite String.eqb_refl.
  - destruct (String.eqb_spec (id x) (id t)) as [Heq|Hne].
    + exfalso. apply Hnotin. rewrite Heq. now apply in_map.
    + now apply IH.
Qed.

Lemma update_task_length (tid : string) (f : Task -> Task) (q : list Task) :
  List.length (update_task tid f q) = List.length q.
Proof.
  induction q as [|x q IH]; simpl; [reflexivity|].
  destruct (String.eqb (id x) tid); simpl; congruence.
Qed.

Lemma update_task_ids (tid : string) (f : Task -> Task) (q : list Task) :
  (forall t, id (f t) = id t) ->
  map id (update_task tid f q) = map id q.
Proof.
  intro Hf. induction q as [|x q IH]; simpl; [reflexivity|].
  destruct (String.eqb (id x) tid); simpl; [now rewrite Hf|now rewrite IH].
Qed.

Lemma find_task_update_same (tid : string) (f : Task -> Task) (q : list Task) :
  (forall t, id (f t) = id t) ->
  find_task tid (update_task tid f q) = option_map f (find_task tid q).
Proof.
  intro Hf. unfold find_task. induction q as [|x q IH]; simpl; [reflexivity|].
  destruct (String.eqb (id x) tid) eqn:E; simpl.
  - now rewrite Hf, E.
  - now rewrite E.
Qed.

Lemma find_task_update_other (tid tid' : string) (f : Task -> Task) (q : list Task) :
  (forall t, id (f t) = id t) -> tid' <> tid ->
  find_task tid' (update_task tid f q) = find_task tid' q.
Proof.
  intros Hf Hne. unfold find_task. induction q as [|x q IH]; simpl; [reflexivity|].
  destruct (String.eqb (id x) tid) eqn:E; simpl.
  - rewrite Hf. apply String.eqb_eq in E.
    destruct (String.eqb_spec (id x) tid'); [congruence|reflexivity].
  - now rewrite IH.
Qed.

Lemma update_task_none (tid : string) (f : Task -> Task) (q : list Task) :
  find_task tid q = None -> update_task tid f q = q.
Proof.
  unfold find_task. induction q as [|x q IH]; simpl; [reflexivity|].
  destruct (String.eqb (id x) tid); [discriminate|].
  intro H. now rewrite IH.
Qed.

Lemma update_task_app (tid : string) (f : Task -> Task) (q l : list Task) (t : Task) :
  find_task tid q = Some t ->
  update_task tid f (q ++ l) = (update_task tid f q ++ l)%list.
Proof.
  unfold find_task. induction q as [|x q IH]; simpl; [discriminate|].
  destruct (String.eqb (id x) tid); [reflexivity|].
  intro H. now rewrite IH.
Qed.

Lemma update_task_twice (tid : string) (f g : Task -> Task) (q : list Task) :
  (forall t, id (g t) = id t) ->
  update_task tid f (update_task tid g q) = update_task tid (fun t => f (g t)) q.
Proof.
  intro Hg. induction q as [|x q IH]; simpl; [reflexivity|].
  destruct (String.eqb (id x) tid) eqn:E; simpl.
  - now rewrite Hg, E.
  - now rewrite E, IH.
Qed.

(** What a mutation leaves in the queue: tasks that were there, and the
    image of the mutated one. *)
Lemma in_update_task (tid : string) (f : Task -> Task) (q : list Task) (t : Task) :
  In t (update_task tid f q) ->
  In t q \/ exists t0, find_task tid q = Some t0 /\ t = f t0.
Proof.
  unfold find_task. induction q as [|x q IH]; simpl; [contradiction|].
  destruct (String.eqb (id x) tid) eqn:E; simpl.
  - intros [<-|Hin]; [right; eauto|left; auto].
  - intros [<-|Hin]; [left; auto|].
    destruct (IH Hin) as [H|H]; [left; auto|right; exact H].
Qed.

Lemma update_task_in (tid : string) (f : Task -> Task) (q : list Task) (t : Task) :
  In t q -> In t (update_task tid f q) \/ find_task tid q = Some t.
Proof.
  unfold find_task. induction q as [|x q IH]; simpl; [contradiction|].
  destruct (String.eqb (id x) tid) eqn:E; simpl.
  - intros [->|Hin]; [right; reflexivity|left; auto].
  - intros [->|Hin]; [left; auto|].
    destruct (IH Hin) as [H|H]; [left; auto|right; exact H].
Qed.

Lemma update_task_in_image (tid : string) (f : Task -> Task) (q : list Task) (t : Task) :
  find_task tid q = Some t -> In (f t) (update_task tid f q).
Proof.
  unfold find_task. induction q as [|x q IH]; simpl; [discriminate|].
  destruct (String.eqb (id x) tid) eqn:E; simpl.
  - intros [= ->]. now left.
  - intro H. right. now apply IH.
Qed.

Lemma get_agent_id (aid : string) (l : list Agent) (a : Agent) :
  get_agent aid l = Some a -> agent_id a = aid /\ In a l.
Proof.
  unfold get_agent. intro H. apply find_some in H. destruct H as [Hin Heq].
  apply String.eqb_eq in Heq. auto.
Qed.

Lemma get_agent_update_same (aid : string) (f : Agent -> Agent) (l : list Agent) :
  (forall a, agent_id (f a) = agent_id a) ->
  get_agent aid (update_agent aid f l) = option_map f (get_agent aid l).
Proof.
  intro Hf. unfold get_agent. induction l as [|x l IH]; simpl; [reflexivity|].
  destruct (String.eqb (agent_id x) aid) eqn:E; simpl.
  - now rewrite Hf, E.
  - now rewrite E.
Qed.

Lemma get_agent_update_other (aid aid' : string) (f : Agent -> Agent) (l : list Agent) :
  (forall a, agent_id (f a) = agent_id a) -> aid' <> aid ->
  get_agent aid' (update_agent aid f l) = get_agent aid' l.
Proof.
  intros Hf Hne. unfold get_agent. induction l as [|x l IH]; simpl; [reflexivity|].
  destruct (String.eqb (agent_id x) aid) eqn:E; simpl.
  - rewrite Hf. apply String.eqb_eq in E.
    destruct (String.eqb_spec (agent_id x) aid'); [congruence|reflexivity].
  - now rewrite IH.
Qed.

Lemma obj_get_set_same {V : Type} (k : string) (v : V) (o : list (string * V)) :
  obj_get k (obj_set k v o) = Some v.
Proof.
  induction o as [|[k' v'] o IH]; simpl.
  - now rewrite String.eqb_refl.
  - destruct (String.eqb k' k) eqn:E; simpl.
    + now rewrite String.eqb_refl.
    + now rewrite E.
Qed.

Lemma obj_get_set_other {V : Type} (k k' : string) (v : V) (o : list (string * V)) :
  k' <> k -> obj_get k' (obj_set k v o) = obj_get k' o.
Proof.
  intro Hne. induction o as [|[k0 v0] o IH]; simpl.
  - destruct (String.eqb_spec k k'); [congruence|reflexivity].
  - destruct (String.eqb k0 k) eqn:E; simpl.
    + apply String.eqb_eq in E. subst k0.
      destruct (String.eqb_spec k k'); [congruence|reflexivity].
    + now rewrite IH.
Qed.

(** ** The stable sort *)

Lemma insert_perm {A : Type} (before : A -> A -> bool) (x : A) (l : list A) :
  Permutation (JS.insert before x l) (x :: l).
Proof.
  induction l as [|y l IH]; simpl; [reflexivity|].
  destruct (before x y); [reflexivity|].
  rewrite IH. apply perm_swap.
Qed.

Lemma sort_perm {A : Type} (before : A -> A -> bool) (l : list A) :
  Permutation (JS.sort before l) l.
Proof.
  induction l as [|x l IH]; simpl; [reflexivity|].
  rewrite insert_perm. now apply perm_skip.
Qed.

Lemma sort_queue_in (q : list Task) (t : Task) :
  In t (sort_queue q) <-> In t q.
Proof.
  split; apply Permutation_in; [|symmetry]; apply sort_perm.
Qed.

(** ** Splitting *)

Lemma update_task_ext (tid : string) (f g : Task -> Task) (q : list Task) :
  (forall t, f t = g t) -> update_task tid f q = update_task tid g q.
Proof.
  intro H. induction q as [|x q IH]; simpl; [reflexivity|].
  destruct (String.eqb (id x) tid); [now rewrite H|now rewrite IH].
Qed.

(** The queue a split leaves: the parent marked and linked to two new
    children, which come last before the sort. *)
Lemma handleTaskSplitting_queue (e : Engine) (task : Task) (uuid : nat -> string) :
  find_task (id task) (taskQueue e) = Some task ->
  handleTaskSplitting e task uuid =
  Some (with_taskQueue
          (sort_queue
             (update_task (id task)
                          (split_parent ("subtask_" ++ uuid 0%nat) ("subtask_" ++ uuid 1%nat))
                          (taskQueue e)
              ++ [make_subtask (agents e) (id task) ("subtask_" ++ uuid 0%nat)
                               (first_half_spec task);
                  make_subtask (agents e) (id task) ("subtask_" ++ uuid 1%nat)
                               (second_half_spec task)])%list)
          e).
Proof.
  intro Hfind. unfold handleTaskSplitting, decomposeTask.
  rewrite Hfind. do 3 f_equal.
  unfold splitting_specs. cbn [push_subtasks].
  set (pid := id task) in *.
  set (c1 := make_subtask _ _ _ (first_half_spec task)).
  set (c2 := make_subtask _ _ _ (second_half_spec task)).
  set (i1 := "subtask_" ++ uuid 0%nat).
  set (i2 := "subtask_" ++ uuid 1%nat).
  set (q := taskQueue e) in *.
  assert (H1 : find_task pid (update_task pid (set_status waiting_for_subtasks) q)
               = Some (set_status waiting_for_subtasks task)).
  { rewrite find_task_update_same by reflexivity. now rewrite Hfind. }
  rewrite (update_task_app _ _ _ _ _ H1).
  rewrite update_task_twice by reflexivity.
  rewrite <- app_assoc.
  erewrite update_task_app.
  2:{ rewrite find_task_update_same by reflexivity. rewrite Hfind. reflexivity. }
  rewrite update_task_twice by reflexivity.
  simpl. f_equal. apply update_task_ext. intro t.
  unfold split_parent, set_subtasks, set_status. simpl.
  now rewrite <- app_assoc.
Qed.

Lemma or_num_nonzero (x d : Q) : ~ x == 0 -> JS.or_num x d = x.
Proof.
  intro H. unfold JS.or_num. destruct (Qeq_bool x 0) eqn:E; [|reflexivity].
  apply Qeq_bool_eq in E. contradiction.
Qed.

(** C6, as the code has it by design.  Splitting a queued task marks it
    [waiting_for_subtasks] and adds exactly two pending children to the
    queue, in the parent's domain, of complexities [ceil(c/2)] and
    [floor(c/2)], without dependencies; the second child has the parent's
    priority [p], the first has [p + 1], where a missing or 0 priority reads
    as 1, as long as that does not exceed 10.  For complexity 9 and priority
    9 the children have complexities 5 and 4 and priorities 10 and 9. *)
Theorem C6_split_children (e : Engine) (task : Task) (uuid : nat -> string) :
  find_task (id task) (taskQueue e) = Some task ->
  exists e' child1 child2,
    handleTaskSplitting e task uuid = Some e'
    /\ Permutation (taskQueue e')
         (update_task (id task) (split_parent (id child1) (id child2)) (taskQueue e)
          ++ [child1; child2])%list
    /\ In (split_parent (id child1) (id child2) task) (taskQueue e')
    /\ status (split_parent (id child1) (id child2) task) = waiting_for_subtasks
    /\ List.length (taskQueue e') = (List.length (taskQueue e) + 2)%nat
    /\ (id child1 = "subtask_" ++ uuid 0%nat /\ id child2 = "subtask_" ++ uuid 1%nat)
    /\ (domainLabel child1 = domainLabel task /\ domainLabel child2 = domainLabel task)
    /\ (complexityScore child1 = inject_Z (Qceiling (complexityScore task / 2))
        /\ complexityScore child2 = inject_Z (Qfloor (complexityScore task / 2)))
    /\ (dependencies child1 = [] /\ dependencies child2 = [])
    /\ (effective_priority task + 1 <= 10 ->
        priority child1 = Some (effective_priority task + 1))
    /\ priority child2 = priority task
    /\ (parentTaskId child1 = Some (id task) /\ parentTaskId child2 = Some (id task))
    /\ (status child1 = pending /\ status child2 = pending)
    /\ (forall p, complexityScore task == 9 -> priority task = Some p -> p == 9 ->
                  complexityScore child1 == 5 /\ complexityScore child2 == 4
                  /\ (exists p1, priority child1 = Some p1 /\ p1 == 10)
                  /\ priority child2 = Some p).
Proof.
  intro Hfind.
  pose proof (handleTaskSplitting_queue e task uuid Hfind) as H.
  exists (with_taskQueue
            (sort_queue
               (update_task (id task)
                            (split_parent ("subtask_" ++ uuid 0%nat)
                                          ("subtask_" ++ uuid 1%nat))
                            (taskQueue e)
                ++ [make_subtask (agents e) (id task) ("subtask_" ++ uuid 0%nat)
                                 (first_half_spec task);
                    make_subtask (agents e) (id task) ("subtask_" ++ uuid 1%nat)
                                 (second_half_spec task)])%list)
            e),
    (make_subtask (agents e) (id task) ("subtask_" ++ uuid 0%nat) (first_half_spec task)),
    (make_subtask (agents e) (id task) ("subtask_" ++ uuid 1%nat) (second_half_spec task)).
  split; [exact H|]. clear H.
  cbn [taskQueue with_taskQueue].
  split; [apply sort_perm|].
  split.
  { apply sort_queue_in. apply in_or_app. left.
    now apply update_task_in_image. }
  split; [reflexivity|].
  split.
  { unfold sort_queue. rewrite (Permutation_length (sort_perm _ _)).
    rewrite length_app, update_task_length. reflexivity. }
  split; [split; reflexivity|]. split; [split; reflexivity|].
  split; [split; reflexivity|]. split; [split; reflexivity|].
  split; [intros _; reflexivity|]. split; [reflexivity|].
  split; [split; reflexivity|]. split; [split; reflexivity|].
  intros p Hc Hp Hp9. cbn [make_subtask complexityScore priority first_half_spec
                             second_half_spec s_complexityScore s_priority].
  rewrite Hc. split; [reflexivity|]. split; [reflexivity|].
  split; [|exact Hp].
  eexists. split; [reflexivity|].
  rewrite Hp. cbn [JS.or_opt]. rewrite or_num_nonzero.
  - rewrite Hp9. reflexivity.
  - rewrite Hp9. discriminate.
Qed.

Lemma C6_split_children_witness :
  find_task (id split_parent_task) (taskQueue (engine split_submitted)) = Some split_parent_task
  /\ exists e', handleTaskSplitting (engine split_submitted) split_parent_task
                                    (uuids "S1" "S2") = Some e'
                /\ List.length (taskQueue e') = 3%nat.
Proof.
  split; [vm_compute; reflexivity|].
  destruct (C6_split_children (engine split_submitted) split_parent_task (uuids "S1" "S2"))
    as (e' & c1 & c2 & H & _ & _ & _ & Hlen & _).
  - vm_compute; reflexivity.
  - exists e'. split; [exact H|exact Hlen].
Defined.

(** C6 as the specification words it fails twice.  A complexity-9 task of
    priority 0 is split by the tick and its first child has priority 2, the
    0 reading as 1, not [0 + 1].  The complexity-9, priority-10 task of the
    test is split and its first child has priority 11, not the capped 10. *)
Lemma C6_counterexample :
  (exists parent child p,
      nextTask (engine zero_submitted) = Some parent
      /\ complexityScore parent == 9 /\ priority parent = Some 0
      /\ zero_config = run_from zero_submitted [OpTick (uuids "S1" "S2")]
      /\ find_task "subtask_S1" (taskQueue (engine zero_config)) = Some child
      /\ parentTaskId child = Some (id parent)
      /\ priority child = Some p
      /\ ~ p == fst (spec_child_priorities 0))
  /\ (exists parent child p,
         nextTask (engine split_submitted) = Some parent
         /\ complexityScore parent == 9 /\ priority parent = Some 10
         /\ split_config = run_from split_submitted [OpTick (uuids "S1" "S2")]
         /\ find_task "subtask_S1" (taskQueue (engine split_config)) = Some child
         /\ parentTaskId child = Some (id parent)
         /\ priority child = Some p
         /\ ~ p == fst (spec_child_priorities 10)).
Proof.
  split.
  - eexists. eexists. eexists.
    split; [vm_compute; reflexivity|].
    split; [vm_compute; reflexivity|].
    split; [vm_compute; reflexivity|].
    split; [reflexivity|].
    split; [vm_compute; reflexivity|].
    split; [vm_compute; reflexivity|].
    split; [vm_compute; reflexivity|].
    vm_compute. discriminate.
  - eexists. eexists. eexists.
    split; [vm_compute; reflexivity|].
    split; [vm_compute; reflexivity|].
    split; [vm_compute; reflexivity|].
    split; [reflexivity|].
    split; [vm_compute; reflexivity|].
    split; [vm_compute; reflexivity|].
    split; [vm_compute; reflexivity|].
    vm_compute. discriminate.
Qed.

(** ** Sub-tasks are not validated *)

Lemma isValid_app_false {E : Type} (a b : list E) (x : E) :
  isValid (a ++ b ++ [x])%list = false.
Proof.
  destruct a; simpl; [|reflexivity]. destruct b; reflexivity.
Qed.

(** C10: [decomposeTask] queues sub-tasks without validating them.  Splitting
    a queued task of complexity 1 succeeds and queues a sub-task of
    complexity 0, which [validateTask] refuses and [submitTask] would throw
    on. *)
Theorem C10_split_skips_validation (VALID_DOMAINS : list string)
        (e : Engine) (task : Task) (uuid : nat -> string) :
  find_task (id task) (taskQueue e) = Some task ->
  complexityScore task == 1 ->
  exists e' sub,
    handleTaskSplitting e task uuid = Some e'
    /\ In sub (taskQueue e')
    /\ parentTaskId sub = Some (id task)
    /\ complexityScore sub == 0
    /\ isValid (validateTask VALID_DOMAINS (schema_fields sub)) = false
    /\ forall e0 u, exists errors,
         submitTask VALID_DOMAINS e0 (schema_fields sub) u = Thrown errors.
Proof.
  intros Hfind Hc.
  eexists. eexists.
  split; [apply (handleTaskSplitting_queue e task uuid Hfind)|].
  cbn [taskQueue with_taskQueue].
  split.
  { apply sort_queue_in. apply in_or_app. right. right. left. reflexivity. }
  split; [reflexivity|].
  assert (H0 : Qfloor (complexityScore task / 2) = 0%Z).
  { rewrite Hc. reflexivity. }
  assert (Hv : forall vd, isValid (validateTask vd (schema_fields
             (make_subtask (agents e) (id task) ("subtask_" ++ uuid 1%nat)
                           (second_half_spec task)))) = false).
  { intro vd. unfold validateTask.
    cbn [schema_fields td_complexityScore make_subtask complexityScore second_half_spec
                       s_complexityScore].
    rewrite H0. cbn [Qle_bool inject_Z Qnum Qden Z.mul Z.leb Z.compare Pos.mul negb orb
                              Pos.compare Pos.compare_cont].
    apply isValid_app_false. }
  split.
  { cbn [make_subtask complexityScore second_half_spec s_complexityScore].
    rewrite H0. reflexivity. }
  split; [apply Hv|].
  intros e0 u. unfold submitTask. rewrite Hv. simpl. eauto.
Qed.

Lemma C10_split_skips_validation_witness :
  (find_task (id simple_task) (taskQueue (engine simple_submitted)) = Some simple_task
   /\ complexityScore simple_task == 1)
  /\ exists e' sub,
       handleTaskSplitting (engine simple_submitted) simple_task (uuids "a" "b") = Some e'
       /\ In sub (taskQueue e')
       /\ complexityScore sub == 0
       /\ isValid (validateTask DOMAINS (schema_fields sub)) = false.
Proof.
  split; [split; vm_compute; reflexivity|].
  destruct (C10_split_skips_validation DOMAINS (engine simple_submitted) simple_task
                                       (uuids "a" "b"))
    as (e' & sub & H & Hin & _ & Hc & Hv & _).
  - vm_compute; reflexivity.
  - vm_compute; reflexivity.
  - exists e', sub. auto.
Defined.

(** ** Rounding *)

Lemma Qfloor_half (z : Z) : Qfloor (inject_Z z + 0.5) = z.
Proof.
  apply Z.le_antisymm.
  - apply Z.lt_succ_r. rewrite Zlt_Qlt.
    apply Qle_lt_trans with (inject_Z z + 0.5); [apply Qfloor_le|].
    unfold Z.succ. rewrite inject_Z_plus. change (inject_Z 1) with 1. lra.
  - rewrite <- (Qfloor_Z z) at 1. apply Qfloor_resp_le. lra.
Qed.

Lemma pow10_pos (d : nat) : 0 < inject_Z (10 ^ Z.of_nat d).
Proof.
  change 0 with (inject_Z 0). rewrite <- Zlt_Qlt. apply Z.pow_pos_nonneg; lia.
Qed.


(** Rounding keeps a value of the unit interval inside it. *)
Lemma toFixed_unit (d : nat) (x : Q) :
  0 <= x <= 1 -> 0 <= JS.toFixed d x <= 1.
Proof.
  intros [H0 H1]. unfold JS.toFixed.
  pose proof (pow10_pos d) as Hs.
  set (scale := inject_Z (10 ^ Z.of_nat d)) in *.
  replace (Qle_bool 0 x) with true by (symmetry; now apply Qle_bool_iff).
  assert (Hlo : (0 <= Qfloor (x * scale + 0.5))%Z).
  { rewrite <- (Qfloor_Z 0). apply Qfloor_resp_le.
    change (inject_Z 0) with 0. nra. }
  assert (Hhi : (Qfloor (x * scale + 0.5) <= 10 ^ Z.of_nat d)%Z).
  { rewrite <- (Qfloor_half (10 ^ Z.of_nat d)). apply Qfloor_resp_le.
    fold scale. nra. }
  rewrite Zle_Qle in Hlo, Hhi. fold scale in Hhi. change (inject_Z 0) with 0 in Hlo.
  split.
  - apply Qle_shift_div_l; [exact Hs|]. lra.
  - apply Qle_shift_div_r; [exact Hs|]. lra.
Qed.




(** ** The compatibility score *)



Lemma or_num_cases (x d : Q) : JS.or_num x d = if Qeq_bool x 0 then d else x.
Proof. reflexivity. Qed.










(** ** The tick, case by case *)

Lemma truthy_some (s : option string) (x : string) :
  truthy s = Some x -> s = Some x /\ x <> EmptyString.
Proof.
  unfold truthy. destruct s as [y|]; [|discriminate].
  destruct (String.eqb_spec y EmptyString); [discriminate|].
  intros [= ->]. auto.
Qed.

(** A tick that issues a dispatch sent the first ready task to the agent
    [evaluateAssignment] chose, possibly after tagging the task for
    collaboration. *)
Lemma processQueue_begin_dispatch (e e' : Engine) (uuid : nat -> string)
      (tid aid : string) :
  processQueue_begin e uuid = (e', Some (tid, aid)) ->
  exists t p e0,
    nextTask e = Some t /\ tid = id t
    /\ MetaReflection.evaluateAssignment e t (failedAgents t) = (Some aid, p)
    /\ aid <> EmptyString
    /\ (e0 = e \/ e0 = handleTaskCollaboration e t)
    /\ e' = fst (start_dispatch e0 t aid p).
Proof.
  unfold processQueue_begin.
  destruct (nextTask e) as [t|]; [|discriminate].
  destruct (MetaReflection.evaluateAssignment e t (failedAgents t)) as [a p] eqn:Ev.
  destruct (truthy a) as [aid'|] eqn:Ha; [|discriminate].
  apply truthy_some in Ha. destruct Ha as [-> Hne].
  destruct (negb (Qle_bool threshold p)).
  - destruct (MetaReflection.suggestRemediation (agents e) t).
    + destruct (handleTaskSplitting e t uuid); discriminate.
    + unfold start_dispatch. intros [= <- <- <-].
      exists t, p, (handleTaskCollaboration e t). auto 10.
    + discriminate.
  - unfold start_dispatch. intros [= <- <- <-].
    exists t, p, e. auto 10.
Qed.

(** A tick that issues no dispatch left the engine alone or split the first
    ready task. *)
Lemma processQueue_begin_idle (e e' : Engine) (uuid : nat -> string) :
  processQueue_begin e uuid = (e', None) ->
  e' = e \/ exists t, nextTask e = Some t /\ handleTaskSplitting e t uuid = Some e'.
Proof.
  unfold processQueue_begin.
  destruct (nextTask e) as [t|]; [|intros [= <-]; now left].
  destruct (MetaReflection.evaluateAssignment e t (failedAgents t)) as [a p].
  destruct (truthy a) as [aid|]; [|intros [= <-]; now left].
  destruct (negb (Qle_bool threshold p)).
  - destruct (MetaReflection.suggestRemediation (agents e) t).
    + destruct (handleTaskSplitting e t uuid) as [e1|] eqn:Hs.
      * intros [= <-]. right. eauto.
      * intros [= <-]. now left.
    + unfold start_dispatch. discriminate.
    + intros [= <-]. now left.
  - unfold start_dispatch. discriminate.
Qed.

Lemma nextTask_none_tick (e : Engine) (uuid : nat -> string) :
  nextTask e = None -> processQueue_begin e uuid = (e, None).
Proof.
  intro H. unfold processQueue_begin. now rewrite H.
Qed.

Lemma nextTask_ready (e : Engine) (t : Task) :
  nextTask e = Some t -> In t (taskQueue e) /\ isReady (taskQueue e) t = true.
Proof.
  unfold nextTask. intro H. now apply find_some in H.
Qed.

Lemma isReady_pending (q : list Task) (t : Task) :
  isReady q t = true -> status t = pending /\ subtasks t = [].
Proof.
  unfold isReady. destruct (status t); simpl; try discriminate.
  destruct (subtasks t); simpl; [auto|discriminate].
Qed.

(** ** Priority order *)

Lemma queue_before_true (a b : Task) :
  queue_before a b = true -> priority_desc a b.
Proof.
  unfold queue_before, priority_desc.
  change (JS.or_opt (priority a) 1) with (effective_priority a).
  change (JS.or_opt (priority b) 1) with (effective_priority b).
  destruct (Qeq_bool (effective_priority b - effective_priority a) 0) eqn:E; simpl.
  - apply Qeq_bool_eq in E. intros _. lra.
  - intro H. apply Qle_bool_iff in H. lra.
Qed.

Lemma queue_before_false (a b : Task) :
  queue_before a b = false -> priority_desc b a.
Proof.
  unfold queue_before, priority_desc.
  change (JS.or_opt (priority a) 1) with (effective_priority a).
  change (JS.or_opt (priority b) 1) with (effective_priority b).
  destruct (Qeq_bool (effective_priority b - effective_priority a) 0) eqn:E; simpl.
  - apply Qeq_bool_eq in E. intros _. lra.
  - intro H.
    assert (~ effective_priority b - effective_priority a <= 0).
    { intro Hle. apply Qle_bool_iff in Hle. congruence. }
    lra.
Qed.

Lemma insert_sorted (x : Task) (l : list Task) :
  StronglySorted priority_desc l ->
  StronglySorted priority_desc (JS.insert queue_before x l).
Proof.
  induction l as [|y l IH]; simpl; intro Hs.
  - constructor; constructor.
  - inversion Hs as [|? ? Hs' Hall]; subst.
    destruct (queue_before x y) eqn:E.
    + constructor; [exact Hs|].
      apply queue_before_true in E.
      constructor; [exact E|].
      rewrite Forall_forall in *. intros z Hz. specialize (Hall z Hz).
      unfold priority_desc in *. lra.
    + constructor; [now apply IH|].
      apply queue_before_false in E.
      rewrite Forall_forall in *. intros z Hz.
      apply (Permutation_in _ (insert_perm queue_before x l)) in Hz.
      destruct Hz as [<-|Hz]; [exact E|now apply Hall].
Qed.

Lemma sort_queue_sorted (q : list Task) : StronglySorted priority_desc (sort_queue q).
Proof.
  unfold sort_queue. induction q as [|x q IH]; simpl; [constructor|].
  now apply insert_sorted.
Qed.

Lemma find_sorted_max (P : Task -> bool) (l : list Task) (t : Task) :
  StronglySorted priority_desc l -> find P l = Some t ->
  forall t', In t' l -> P t' = true -> priority_desc t t'.
Proof.
  induction l as [|x l IH]; simpl; intros Hs Hf t' Hin Hp; [contradiction|].
  inversion Hs as [|? ? Hs' Hall]; subst.
  destruct (P x) eqn:E.
  - injection Hf as ->. destruct Hin as [->|Hin].
    + unfold priority_desc. lra.
    + rewrite Forall_forall in Hall. now apply Hall.
  - destruct Hin as [->|Hin]; [congruence|].
    now apply IH.
Qed.

(** The two sorts leave the queue in sorted order. *)
Lemma submitTask_sorted (VALID_DOMAINS : list string) (e e' : Engine)
      (taskData : TaskData) (uuid tid : string) :
  submitTask VALID_DOMAINS e taskData uuid = Returned (e', tid) ->
  exists q0, taskQueue e' = sort_queue q0.
Proof.
  unfold submitTask. destruct (negb (isValid _)); [discriminate|].
  intros [= <- _]. simpl. eauto.
Qed.

Lemma decomposeTask_sorted (e e' : Engine) (parentId : string)
      (specs : list SubtaskSpec) (uuid : nat -> string) :
  decomposeTask e parentId specs uuid = Some e' ->
  exists q0, taskQueue e' = sort_queue q0.
Proof.
  unfold decomposeTask. destruct (find_task parentId (taskQueue e)); [|discriminate].
  intros [= <-]. simpl. eauto.
Qed.

(** C8 as the specification words it fails.  After two submissions the
    queue holds a complexity-9 task of priority 0 before a complexity-1 task
    of priority 1, both ready, and the tick dispatches the former.  And after
    a collaboration has raised the priority of a task that then returns to
    the queue, the tick dispatches the priority-5 task in front of it
    although the returned task is ready with priority 6. *)
Lemma C8_counterexample :
  (exists x y,
      nextTask (engine priority_config) = Some x
      /\ snd (processQueue_begin (engine priority_config) no_uuid) = Some (id x, "worker")
      /\ In y (taskQueue (engine priority_config))
      /\ isReady (taskQueue (engine priority_config)) y = true
      /\ spec_priority x < spec_priority y)
  /\ (run DOMAINS initial bumped_ops = Some bumped_config
      /\ exists x y,
           nextTask (engine bumped_config) = Some x
           /\ snd (processQueue_begin (engine bumped_config) no_uuid) = Some (id x, "j1")
           /\ In y (taskQueue (engine bumped_config))
           /\ isReady (taskQueue (engine bumped_config)) y = true
           /\ spec_priority x < spec_priority y).
Proof.
  split.
  - eexists. eexists.
    split; [vm_compute; reflexivity|].
    split; [vm_compute; reflexivity|].
    split; [vm_compute; right; left; reflexivity|].
    split; vm_compute; reflexivity.
  - split; [vm_compute; reflexivity|].
    eexists. eexists.
    split; [vm_compute; reflexivity|].
    split; [vm_compute; reflexivity|].
    split; [vm_compute; right; right; left; reflexivity|].
    split; vm_compute; reflexivity.
Qed.

(** ** Candidate selection *)

Lemma includes_false (l : list string) (x : string) :
  includes l x = false -> ~ In x l.
Proof.
  unfold includes. intros H Hin.
  assert (existsb (String.eqb x) l = true).
  { apply existsb_exists. exists x. split; [exact Hin|apply String.eqb_refl]. }
  congruence.
Qed.

(** The agent [evaluateAssignment] returns is registered, idle and not
    excluded. *)
Lemma evaluateAssignment_candidate (e : Engine) (t : Task) (excludeIds : list string)
      (aid : string) (p : Q) :
  MetaReflection.evaluateAssignment e t excludeIds = (Some aid, p) ->
  exists agent, In agent (agents e) /\ agent_id agent = aid
                /\ agent_status agent = idle /\ ~ In aid excludeIds.
Proof.
  unfold MetaReflection.evaluateAssignment.
  set (evals := map _ _).
  destruct (JS.sort _ evals) as [|best rest] eqn:Hs; [discriminate|].
  intros [= <- <-].
  assert (Hin : In best evals).
  { apply (Permutation_in _ (sort_perm (fun a b => Qle_bool (snd b) (snd a)) evals)).
    rewrite Hs. now left. }
  unfold evals in Hin. apply in_map_iff in Hin.
  destruct Hin as (agent & <- & Hin).
  unfold MetaReflection.availableAgents in Hin. apply filter_In in Hin.
  destruct Hin as [Hin Hc]. apply andb_true_iff in Hc. destruct Hc as [Hidle Hex].
  exists agent. simpl. repeat split; auto.
  - destruct (agent_status agent); [reflexivity|discriminate].
  - apply includes_false. now apply negb_true_iff.
Qed.

(** ** Reassignment after a low-confidence result *)

Lemma retry_or_fail_fields (aid : string) (t : Task) :
  id (retry_or_fail aid t) = id t
  /\ failedAgents (retry_or_fail aid t) = (failedAgents t ++ [aid])%list
  /\ retryCount (retry_or_fail aid t) = S (retryCount t)
  /\ ((S (retryCount t) < 3)%nat ->
      status (retry_or_fail aid t) = pending /\ assignedTo (retry_or_fail aid t) = None)
  /\ ((3 <= S (retryCount t))%nat -> status (retry_or_fail aid t) = failed).
Proof.
  unfold retry_or_fail. cbn [set_retry retryCount].
  replace (retryCount t + 1)%nat with (S (retryCount t)) by lia.
  destruct (S (retryCount t) <? 3)%nat eqn:E.
  - apply Nat.ltb_lt in E. simpl. repeat split; auto; lia.
  - apply Nat.ltb_ge in E. simpl. repeat split; auto; lia.
Qed.

(** C4: a dispatch that resolves with a confidence below 0.6 releases the
    agent, appends it to the task's failedAgents and counts the retry; the
    task goes back to pending with no assignee while the count is below 3
    and fails otherwise.  Any later tick dispatches a task only to an agent
    outside that task's failedAgents. *)
Theorem C4_low_confidence_reassignment (e : Engine) (task : Task) (agentId : string)
        (agent : Agent) (result : DispatchResult) :
  find_task (id task) (taskQueue e) = Some task ->
  get_agent agentId (agents e) = Some agent ->
  JS.lt (r_confidenceScore result) CONFIDENCE_THRESHOLD = true ->
  let e' := processQueue_resume e task agentId (Resolved result) in
  (exists agent', get_agent agentId (agents e') = Some agent'
                  /\ agent_status agent' = idle)
  /\ (exists task',
         find_task (id task) (taskQueue e') = Some task'
         /\ failedAgents task' = (failedAgents task ++ [agentId])%list
         /\ retryCount task' = S (retryCount task)
         /\ ((retryCount task' < 3)%nat ->
             status task' = pending /\ assignedTo task' = None)
         /\ ((3 <= retryCount task')%nat -> status task' = failed))
  /\ (forall e2 uuid e3 tid aid,
         processQueue_begin e2 uuid = (e3, Some (tid, aid)) ->
         exists t, nextTask e2 = Some t /\ tid = id t /\ ~ In aid (failedAgents t)).
Proof.
  intros Hfind Hagent Hlow e'. subst e'.
  unfold processQueue_resume. rewrite Hlow.
  unfold handleTaskReassignment. rewrite Hagent.
  cbn [agents taskQueue with_taskQueue with_agents].
  split; [|split].
  - exists (set_agent_status idle agent).
    rewrite get_agent_update_same by reflexivity. rewrite Hagent. auto.
  - exists (retry_or_fail agentId task).
    rewrite find_task_update_same by (intro; apply retry_or_fail_fields).
    rewrite Hfind.
    destruct (retry_or_fail_fields agentId task) as (_ & Hf & Hr & Hp & Hx).
    rewrite Hr. auto.
  - intros e2 uuid e3 tid aid H.
    apply processQueue_begin_dispatch in H.
    destruct H as (t & p & e0 & Hn & -> & Hev & _).
    exists t. repeat split; auto.
    apply evaluateAssignment_candidate in Hev.
    destruct Hev as (_ & _ & _ & _ & Hex). exact Hex.
Qed.

Lemma C4_low_confidence_reassignment_witness :
  (find_task (id unsure_task) (taskQueue (engine low_confidence_dispatched))
   = Some unsure_task
   /\ agent_status_of "solo" (engine low_confidence_dispatched) = Some busy
   /\ JS.lt (r_confidenceScore unsure_result) CONFIDENCE_THRESHOLD = true)
  /\ exists task',
       find_task (id unsure_task)
                 (taskQueue (processQueue_resume (engine low_confidence_dispatched)
                                                 unsure_task "solo" (Resolved unsure_result)))
       = Some task'
       /\ failedAgents task' = ["solo"]
       /\ retryCount task' = 1%nat.
Proof.
  split; [repeat split; vm_compute; reflexivity|].
  destruct (get_agent "solo" (agents (engine low_confidence_dispatched))) as [a|] eqn:Ha;
    [|vm_compute in Ha; discriminate].
  destruct (C4_low_confidence_reassignment
              (engine low_confidence_dispatched) unsure_task "solo" a unsure_result)
    as (_ & (task' & Hf & Hfa & Hr & _) & _).
  - vm_compute; reflexivity.
  - exact Ha.
  - vm_compute; reflexivity.
  - exists task'. split; [exact Hf|]. split; [exact Hfa|exact Hr].
Defined.

(** ** Committing a result and aggregating upwards *)

Lemma TaskStatus_eqb_eq (a b : TaskStatus) : TaskStatus_eqb a b = true <-> a = b.
Proof.
  destruct a, b; simpl; split; intro H; try reflexivity; discriminate.
Qed.

Lemma commit_output_queue (e : Engine) (tid aid : string) (out : DispatchResult) :
  taskQueue (commit_output e tid aid out)
  = update_task tid (set_status completed) (taskQueue e).
Proof.
  unfold commit_output.
  destruct (find_task tid (taskQueue e)) eqn:Hf; simpl.
  - destruct (get_agent aid (agents e)); reflexivity.
  - symmetry. now apply update_task_none.
Qed.

Lemma commit_output_outputs (e : Engine) (tid aid : string) (out : DispatchResult) :
  taskOutputs (commit_output e tid aid out)
  = obj_set tid (output_record (find_task tid (taskQueue e)) tid aid out) (taskOutputs e).
Proof.
  unfold commit_output.
  destruct (find_task tid (taskQueue e)); simpl; [|reflexivity].
  destruct (get_agent aid (agents e)); reflexivity.
Qed.


(** Aggregation only touches tasks that are not completed yet: a completed
    task and its record stay as they are. *)
Lemma aggregate_keeps_completed (fuel : nat) :
  forall (e : Engine) (p tid : string) (t : Task),
    find_task tid (taskQueue e) = Some t ->
    status t = completed ->
    find_task tid (taskQueue (checkAndAggregateParent fuel e p)) = Some t
    /\ obj_get tid (taskOutputs (checkAndAggregateParent fuel e p))
       = obj_get tid (taskOutputs e).
Proof.
  induction fuel as [|fuel IH]; intros e p tid t Hf Hc; [simpl; auto|].
  simpl.
  destruct (find_task p (taskQueue e)) as [pt|] eqn:Hp; [|auto].
  destruct (TaskStatus_eqb (status pt) completed) eqn:Hs; [auto|].
  match goal with |- context [if ?c then _ else _] => destruct c end; [|auto].
  assert (Hne : tid <> p).
  { intros ->. rewrite Hp in Hf. injection Hf as ->.
    rewrite Hc in Hs. discriminate. }
  unfold logOutput_with.
  set (e1 := commit_output e p AGGREGATOR_SYSTEM _).
  assert (H1 : find_task tid (taskQueue e1) = Some t).
  { unfold e1. rewrite commit_output_queue.
    rewrite find_task_update_other; auto. }
  assert (H2 : obj_get tid (taskOutputs e1) = obj_get tid (taskOutputs e)).
  { unfold e1. rewrite commit_output_outputs. now apply obj_get_set_other. }
  destruct (parent_to_notify e p) as [g|]; [|auto].
  destruct (IH e1 g tid t H1 Hc) as [H3 H4].
  split; [exact H3|congruence].
Qed.

(** [logOutput] on a queued task completes it and stores its record, and
    nothing the aggregation does afterwards changes either. *)
Lemma logOutput_with_commits (n : nat) (e : Engine) (tid aid : string)
      (out : DispatchResult) (t : Task) :
  find_task tid (taskQueue e) = Some t ->
  let e' := logOutput_with (checkAndAggregateParent n) e tid aid out in
  find_task tid (taskQueue e') = Some (set_status completed t)
  /\ obj_get tid (taskOutputs e') = Some (output_record (Some t) tid aid out).
Proof.
  intros Hf e'. subst e'. unfold logOutput_with.
  set (e1 := commit_output e tid aid out).
  assert (H1 : find_task tid (taskQueue e1) = Some (set_status completed t)).
  { unfold e1. rewrite commit_output_queue.
    rewrite find_task_update_same by reflexivity. now rewrite Hf. }
  assert (H2 : obj_get tid (taskOutputs e1) = Some (output_record (Some t) tid aid out)).
  { unfold e1. rewrite commit_output_outputs, Hf. apply obj_get_set_same. }
  destruct (parent_to_notify e tid) as [p|]; [|auto].
  destruct (aggregate_keeps_completed n e1 p tid _ H1 eq_refl) as [H3 H4].
  split; [exact H3|congruence].
Qed.

Lemma logOutput_commits (e : Engine) (tid aid : string) (out : DispatchResult) (t : Task) :
  find_task tid (taskQueue e) = Some t ->
  find_task tid (taskQueue (logOutput e tid aid out)) = Some (set_status completed t)
  /\ obj_get tid (taskOutputs (logOutput e tid aid out))
     = Some (output_record (Some t) tid aid out).
Proof.
  intro Hf. apply (logOutput_with_commits _ e tid aid out t Hf).
Qed.

(** The bound [logOutput] passes is enough: past the number of open tasks
    the result of the aggregation no longer depends on it. *)
Lemma open_tasks_zero (q : list Task) (t : Task) :
  open_tasks q = 0%nat -> In t q -> status t = completed.
Proof.
  unfold open_tasks. intros H Hin.
  destruct (TaskStatus_eqb (status t) completed) eqn:E; [now apply TaskStatus_eqb_eq|].
  assert (Hin' : In t (filter (fun t => negb (TaskStatus_eqb (status t) completed)) q)).
  { apply filter_In. split; [exact Hin|now rewrite E]. }
  destruct (filter _ q); [contradiction|discriminate].
Qed.

Lemma open_tasks_complete (tid : string) (q : list Task) (t : Task) :
  find_task tid q = Some t -> status t <> completed ->
  S (open_tasks (update_task tid (set_status completed) q)) = open_tasks q.
Proof.
  unfold find_task, open_tasks. induction q as [|x q IH]; simpl; [discriminate|].
  destruct (String.eqb (id x) tid) eqn:E.
  - intros [= ->] Hs. simpl.
    destruct (TaskStatus_eqb (status t) completed) eqn:Ec;
      [apply TaskStatus_eqb_eq in Ec; contradiction|reflexivity].
  - intros Hf Hs. simpl.
    destruct (negb (TaskStatus_eqb (status x) completed)); simpl; rewrite <- (IH Hf Hs);
      reflexivity.
Qed.

Lemma open_tasks_le_length (q : list Task) : (open_tasks q <= List.length q)%nat.
Proof. unfold open_tasks. apply filter_length_le. Qed.

Lemma checkAndAggregateParent_fuel (fuel1 : nat) :
  forall (fuel2 : nat) (e : Engine) (p : string),
    (open_tasks (taskQueue e) <= fuel1)%nat ->
    (open_tasks (taskQueue e) <= fuel2)%nat ->
    checkAndAggregateParent fuel1 e p = checkAndAggregateParent fuel2 e p.
Proof.
  assert (Hzero : forall fuel e p, open_tasks (taskQueue e) = 0%nat ->
                                   checkAndAggregateParent fuel e p = e).
  { intros [|fuel] e p H0; [reflexivity|]. simpl.
    destruct (find_task p (taskQueue e)) as [pt|] eqn:Hp; [|reflexivity].
    apply find_task_id in Hp. destruct Hp as [_ Hin].
    rewrite (open_tasks_zero _ _ H0 Hin). reflexivity. }
  induction fuel1 as [|fuel1 IH]; intros fuel2 e p H1 H2.
  - rewrite (Hzero fuel2) by lia. reflexivity.
  - destruct fuel2 as [|fuel2]; [rewrite (Hzero (S fuel1)) by lia; reflexivity|].
    cbn [checkAndAggregateParent].
    destruct (find_task p (taskQueue e)) as [pt|] eqn:Hp; [|reflexivity].
    destruct (TaskStatus_eqb (status pt) completed) eqn:Hs; [reflexivity|].
    match goal with |- context [if ?c then _ else _] => destruct c end; [|reflexivity].
    unfold logOutput_with.
    destruct (parent_to_notify e p) as [g|]; [|reflexivity].
    set (e1 := commit_output _ _ _ _).
    assert (Hopen : S (open_tasks (taskQueue e1)) = open_tasks (taskQueue e)).
    { unfold e1. rewrite commit_output_queue. apply (open_tasks_complete p _ pt Hp).
      intro Hc. rewrite Hc in Hs. discriminate. }
    apply IH; lia.
Qed.

Lemma logOutput_fuel (e : Engine) (tid aid : string) (out : DispatchResult) (n : nat) :
  (List.length (taskQueue e) <= n)%nat ->
  logOutput e tid aid out = logOutput_with (checkAndAggregateParent n) e tid aid out.
Proof.
  intro Hn. unfold logOutput, logOutput_with.
  destruct (parent_to_notify e tid) as [p|]; [|reflexivity].
  assert (H : (open_tasks (taskQueue (commit_output e tid aid out))
               <= List.length (taskQueue e))%nat).
  { rewrite commit_output_queue.
    rewrite <- (update_task_length tid (set_status completed) (taskQueue e)).
    apply open_tasks_le_length. }
  apply checkAndAggregateParent_fuel; lia.
Qed.

(** ** Corrupt dispatch results *)

(** C3 fails on the code: a result whose confidenceScore is NaN or missing
    is not below the threshold, so it is committed like a success.  The task
    becomes completed, its retryCount stays, and a record with the corrupt
    score is stored. *)
Theorem C3_corrupt_result_is_committed (e : Engine) (task : Task) (agentId : string)
        (result : DispatchResult) :
  find_task (id task) (taskQueue e) = Some task ->
  r_confidenceScore result = JS.NaN \/ r_confidenceScore result = JS.Undefined ->
  let e' := processQueue_resume e task agentId (Resolved result) in
  exists task' record,
    find_task (id task) (taskQueue e') = Some task'
    /\ status task' = completed
    /\ retryCount task' = retryCount task
    /\ failedAgents task' = failedAgents task
    /\ obj_get (id task) (taskOutputs e') = Some record
    /\ o_confidenceScore record = r_confidenceScore result
    /\ o_actualImpact record = JS.or_default (r_actualImpact result) 0.
Proof.
  intros Hf Hnan e'. subst e'. unfold processQueue_resume.
  assert (Hlt : JS.lt (r_confidenceScore result) CONFIDENCE_THRESHOLD = false).
  { destruct Hnan as [-> | ->]; reflexivity. }
  rewrite Hlt, Hf.
  destruct (logOutput_commits e (id task) agentId result task Hf) as [H1 H2].
  exists (set_status completed task), (output_record (Some task) (id task) agentId result).
  split; [exact H1|].
  split; [reflexivity|]. split; [reflexivity|]. split; [reflexivity|].
  split; [exact H2|]. split; reflexivity.
Qed.

Lemma C3_corrupt_result_is_committed_witness :
  (find_task (id chaos_task) (taskQueue (engine chaos_dispatched)) = Some chaos_task
   /\ r_confidenceScore nan_result = JS.NaN)
  /\ status_of (id chaos_task)
               (processQueue_resume (engine chaos_dispatched) chaos_task "chaotic_agent"
                                    (Resolved nan_result))
     = Some completed.
Proof.
  split; [split; vm_compute; reflexivity|].
  destruct (C3_corrupt_result_is_committed
              (engine chaos_dispatched) chaos_task "chaotic_agent" nan_result)
    as (t' & r & Hf & Hs & _).
  - vm_compute; reflexivity.
  - left; reflexivity.
  - unfold status_of. rewrite Hf. simpl. now rewrite Hs.
Defined.

(** ** Aggregation of sub-task results *)










Lemma or_num_zero (x : Q) : JS.or_num x 0 == x.
Proof.
  unfold JS.or_num. destruct (Qeq_bool x 0) eqn:E; [|reflexivity].
  apply Qeq_bool_eq in E. now rewrite E.
Qed.



Lemma parent_to_notify_found (e : Engine) (tid pid : string) (t : Task) :
  find_task tid (taskQueue e) = Some t ->
  truthy (parentTaskId t) = Some pid ->
  parent_to_notify e tid = Some pid.
Proof.
  intros Hf Hp. unfold parent_to_notify. now rewrite Hf.
Qed.




(** ** Tasks that can never become ready *)

(** A task with a queued dependency that is not completed is not ready. *)
Lemma blocked_not_ready (q : list Task) (t dep : Task) (depId : string) :
  In depId (dependencies t) ->
  find_task depId q = Some dep ->
  status dep <> completed ->
  isReady q t = false.
Proof.
  intros Hin Hf Hs. unfold isReady.
  destruct (negb (TaskStatus_eqb (status t) pending)); [reflexivity|].
  destruct (0 <? List.length (subtasks t))%nat; [reflexivity|].
  destruct (dependencies t) as [|d ds] eqn:Hd; [contradiction|].
  cbn [List.length Nat.ltb Nat.leb].
  apply not_true_is_false. intro Hall.
  rewrite forallb_forall in Hall. specialize (Hall depId Hin).
  rewrite Hf in Hall. apply TaskStatus_eqb_eq in Hall. contradiction.
Qed.

(** With no ready task the ticks change nothing. *)
Lemma ticks_idle (e : Engine) (uuid : nat -> string) (n : nat) :
  nextTask e = None -> ticks n uuid e = e.
Proof.
  intro H. unfold ticks. induction n as [|n IH]; [reflexivity|].
  simpl. rewrite IH. now rewrite (nextTask_none_tick e uuid H).
Qed.

(** A queue in which every task waits for a queued dependency that is not
    completed, as the tasks of a dependency cycle do, never changes under the
    ticks. *)
Lemma blocked_queue_idle (e : Engine) (uuid : nat -> string) (n : nat) :
  (forall t, In t (taskQueue e) ->
             exists depId dep, In depId (dependencies t)
                               /\ find_task depId (taskQueue e) = Some dep
                               /\ status dep <> completed) ->
  ticks n uuid e = e.
Proof.
  intro Hblocked. apply ticks_idle. unfold nextTask.
  destruct (find (isReady (taskQueue e)) (taskQueue e)) as [t|] eqn:E; [|reflexivity].
  apply find_some in E. destruct E as [Hin Hr].
  destruct (Hblocked t Hin) as (depId & dep & Hd & Hf & Hs).
  rewrite (blocked_not_ready _ t dep depId Hd Hf Hs) in Hr. discriminate.
Qed.

(** C1 fails on the code: the engine has no cycle detection.  In the
    scenario of tests/complex_dependency_workflow.js (three pending tasks in a
    cycle and a dependent) every task is blocked by a dependency that is not
    completed, so no tick of the loop, however many, changes the engine: the
    three tasks stay pending and none becomes failed. *)
Theorem C1_cycle_stays_pending (n : nat) (uuid : nat -> string) :
  (forall t, In t (taskQueue cycle_engine) -> isReady (taskQueue cycle_engine) t = false)
  /\ processQueue_begin cycle_engine uuid = (cycle_engine, None)
  /\ ticks n uuid cycle_engine = cycle_engine
  /\ status_of "task_cycle_1" (ticks n uuid cycle_engine) = Some pending
  /\ status_of "task_cycle_2" (ticks n uuid cycle_engine) = Some pending
  /\ status_of "task_cycle_3" (ticks n uuid cycle_engine) = Some pending.
Proof.
  assert (Hn : nextTask cycle_engine = None) by (vm_compute; reflexivity).
  split.
  { intros t Hin. unfold nextTask in Hn. apply (find_none _ _ Hn t Hin). }
  split; [now apply nextTask_none_tick|].
  rewrite (ticks_idle cycle_engine uuid n Hn).
  repeat split; vm_compute; reflexivity.
Qed.

(** C2 fails on the code: nothing cascades.  After three rejected dispatches
    the antecedent is failed; its dependent is still pending, is never ready,
    and no later tick changes the engine. *)
Theorem C2_dependent_stays_pending (n : nat) (uuid : nat -> string) :
  status_of "task_T" (engine cascade_config) = Some failed
  /\ option_map dependencies (find_task "task_D" (taskQueue (engine cascade_config)))
     = Some ["task_T"]
  /\ inflight cascade_config = []
  /\ ticks n uuid (engine cascade_config) = engine cascade_config
  /\ status_of "task_D" (ticks n uuid (engine cascade_config)) = Some pending.
Proof.
  assert (Hn : nextTask (engine cascade_config) = None) by (vm_compute; reflexivity).
  rewrite (ticks_idle (engine cascade_config) uuid n Hn).
  repeat split; vm_compute; reflexivity.
Qed.

(** ** The busy/processing invariant *)

Lemma in_ids (q : list Task) (t : Task) : In t q -> In (id t) (map id q).
Proof. apply in_map. Qed.

Lemma nodup_same_id (q : list Task) (a b : Task) :
  NoDup (map id q) -> In a q -> In b q -> id a = id b -> a = b.
Proof.
  intros Hnd Ha Hb Hid.
  pose proof (find_task_nodup q a Hnd Ha) as H1.
  pose proof (find_task_nodup q b Hnd Hb) as H2.
  rewrite Hid in H1. congruence.
Qed.

(** Under unique identifiers a mutation replaces exactly the task it
    names. *)
Lemma in_update_task_nodup (tid : string) (f : Task -> Task) (q : list Task) (x : Task) :
  NoDup (map id q) -> (forall t, id (f t) = id t) ->
  (In x (update_task tid f q) <->
   (In x q /\ id x <> tid) \/ (exists t, In t q /\ id t = tid /\ x = f t)).
Proof.
  intros Hnd Hf. induction q as [|y q IH]; simpl.
  - split; [contradiction|]. intros [[[] _]|(t & [] & _)].
  - inversion Hnd as [|? ? Hnotin Hnd']; subst.
    destruct (String.eqb_spec (id y) tid) as [Heq|Hne]; simpl.
    + split.
      * intros [<-|Hin]; [right; exists y; auto|].
        left. split; [auto|]. intro Hx. apply Hnotin. rewrite Heq, <- Hx.
        now apply in_map.
      * intros [[[->|Hin] Hx]|(t & [->|Hin] & Ht & ->)]; auto.
        -- contradiction.
        -- exfalso. apply Hnotin. rewrite Heq, <- Ht. now apply in_map.
    + rewrite (IH Hnd'). split.
      * intros [<-|[[Hin Hx]|(t & Hin & Ht & ->)]]; [left; auto|left; auto|].
        right. exists t. auto.
      * intros [[[->|Hin] Hx]|(t & [->|Hin] & Ht & ->)]; auto.
        -- contradiction.
        -- right. right. exists t. auto.
Qed.

Lemma dispatch_eqb_eq (a b : Dispatch) : dispatch_eqb a b = true <-> a = b.
Proof.
  destruct a as [a1 a2], b as [b1 b2]. unfold dispatch_eqb. simpl.
  rewrite andb_true_iff, !String.eqb_eq. split; [intros [-> ->]; reflexivity|].
  intros [= -> ->]. auto.
Qed.

Lemma in_remove_dispatch (d x : Dispatch) (l : list Dispatch) :
  NoDup (map fst l) ->
  (In x (remove_dispatch d l) <-> In x l /\ x <> d).
Proof.
  intro Hnd. induction l as [|y l IH]; simpl; [tauto|].
  inversion Hnd as [|? ? Hnotin Hnd']; subst.
  destruct (dispatch_eqb y d) eqn:E.
  - apply dispatch_eqb_eq in E. subst y. split.
    + intro Hin. split; [auto|]. intros ->. apply Hnotin. now apply in_map.
    + intros [[->|Hin] Hne]; [contradiction|exact Hin].
  - assert (y <> d) by (intro Heq; apply dispatch_eqb_eq in Heq; congruence).
    simpl. rewrite (IH Hnd'). split.
    + intros [->|[Hin Hne]]; auto.
    + intros [[->|Hin] Hne]; auto.
Qed.

Lemma remove_dispatch_incl {A : Type} (g : Dispatch -> A) (d : Dispatch)
      (l : list Dispatch) :
  NoDup (map g l) -> NoDup (map g (remove_dispatch d l)).
Proof.
  induction l as [|y l IH]; simpl; [auto|]. intro Hnd.
  inversion Hnd as [|? ? Hnotin Hnd']; subst.
  destruct (dispatch_eqb y d); [exact Hnd'|].
  simpl. constructor; [|now apply IH].
  intro Hin. apply Hnotin. clear -Hin.
  induction l as [|z l IH]; simpl in *; [contradiction|].
  destruct (dispatch_eqb z d); [right; exact Hin|].
  destruct Hin as [->|Hin]; [now left|right; now apply IH].
Qed.

Lemma nodup_fst_unique (l : list Dispatch) (k a b : string) :
  NoDup (map fst l) -> In (k, a) l -> In (k, b) l -> a = b.
Proof.
  induction l as [|y l IH]; simpl; [contradiction|]. intro Hnd.
  inversion Hnd as [|? ? Hnotin Hnd']; subst.
  intros [->|Ha] [Hb|Hb].
  - congruence.
  - exfalso. apply Hnotin. apply (in_map fst) in Hb. exact Hb.
  - subst y. exfalso. apply Hnotin. apply (in_map fst) in Ha. exact Ha.
  - now apply IH.
Qed.

Lemma nodup_snd_unique (l : list Dispatch) (a k1 k2 : string) :
  NoDup (map snd l) -> In (k1, a) l -> In (k2, a) l -> k1 = k2.
Proof.
  induction l as [|y l IH]; simpl; [contradiction|]. intro Hnd.
  inversion Hnd as [|? ? Hnotin Hnd']; subst.
  intros [->|Ha] [Hb|Hb].
  - congruence.
  - exfalso. apply Hnotin. apply (in_map snd) in Hb. exact Hb.
  - subst y. exfalso. apply Hnotin. apply (in_map snd) in Ha. exact Ha.
  - now apply IH.
Qed.

Lemma view_ids (ags : list Agent) : map fst (agent_view ags) = map agent_id ags.
Proof. unfold agent_view. rewrite map_map. reflexivity. Qed.

Lemma view_update_same (aid : string) (f : Agent -> Agent) (ags : list Agent) :
  (forall a, agent_id (f a) = agent_id a /\ agent_status (f a) = agent_status a) ->
  agent_view (update_agent aid f ags) = agent_view ags.
Proof.
  intro Hf. induction ags as [|a ags IH]; simpl; [reflexivity|].
  destruct (String.eqb (agent_id a) aid); simpl.
  - destruct (Hf a) as [-> ->]. reflexivity.
  - now rewrite IH.
Qed.

Lemma view_updateAgentPerformance (ags : list Agent) (aid domain : string)
      (success : bool) (impact : Q) :
  agent_view (updateAgentPerformance ags aid success impact domain) = agent_view ags.
Proof.
  unfold updateAgentPerformance, MetaReflection.updateAgentMetadata.
  destruct (String.eqb domain EmptyString).
  - apply view_update_same. intro a. split; reflexivity.
  - rewrite view_update_same by (intro a; split; reflexivity).
    apply view_update_same. intro a. split; reflexivity.
Qed.

(** Under unique identifiers a status change touches exactly the agent it
    names. *)
Lemma in_view_set_status (aid : string) (st : AgentStatus) (ags : list Agent)
      (x : string) (s : AgentStatus) :
  NoDup (map fst (agent_view ags)) ->
  (In (x, s) (agent_view (update_agent aid (set_agent_status st) ags)) <->
   (x <> aid /\ In (x, s) (agent_view ags))
   \/ (x = aid /\ s = st /\ In aid (map fst (agent_view ags)))).
Proof.
  intro Hnd. induction ags as [|a ags IH]; simpl.
  - split; [contradiction|]. intros [[_ []]|(_ & _ & [])].
  - simpl in Hnd. inversion Hnd as [|? ? Hnotin Hnd']; subst.
    destruct (String.eqb_spec (agent_id a) aid) as [Heq|Hne]; simpl.
    + split.
      * intros [[= <- <-]|Hin]; [right; auto|].
        left. split; [|auto]. intros ->. apply Hnotin.
        rewrite Heq. apply (in_map fst) in Hin. exact Hin.
      * intros [[Hx [[= Hi Hs]|Hin]]|(-> & -> & _)].
        -- congruence.
        -- right. exact Hin.
        -- left. now rewrite Heq.
    + rewrite (IH Hnd'). split.
      * intros [[= <- <-]|[[Hx Hin]|(-> & -> & Hin)]]; auto.
      * intros [[Hx [[= Hi Hs]|Hin]]|(-> & -> & [Hi|Hin])].
        -- left. congruence.
        -- right. left. auto.
        -- contradiction.
        -- right. right. auto.
Qed.

Lemma get_agent_in_view (aid : string) (ags : list Agent) (a : Agent) :
  get_agent aid ags = Some a -> In (aid, agent_status a) (agent_view ags).
Proof.
  intro H. apply get_agent_id in H. destruct H as [<- Hin].
  unfold agent_view. apply in_map_iff. exists a. auto.
Qed.

Lemma in_view_get_agent (aid : string) (s : AgentStatus) (ags : list Agent) :
  In (aid, s) (agent_view ags) -> exists a, get_agent aid ags = Some a.
Proof.
  unfold agent_view. intro H. apply in_map_iff in H.
  destruct H as (a & [= Hid _] & Hin).
  unfold get_agent. destruct (find _ ags) eqn:E; [eauto|].
  apply (find_none _ _ E) in Hin. rewrite Hid, String.eqb_refl in Hin. discriminate.
Qed.

Lemma view_status_unique (ags : list Agent) (aid : string) (s1 s2 : AgentStatus) :
  NoDup (map fst (agent_view ags)) ->
  In (aid, s1) (agent_view ags) -> In (aid, s2) (agent_view ags) -> s1 = s2.
Proof.
  generalize (agent_view ags). intro v.
  induction v as [|y v IH]; simpl; [contradiction|]. intro Hnd.
  inversion Hnd as [|? ? Hnotin Hnd']; subst.
  intros [->|Ha] [Hb|Hb].
  - congruence.
  - exfalso. apply Hnotin. apply (in_map fst) in Hb. exact Hb.
  - subst y. exfalso. apply Hnotin. apply (in_map fst) in Ha. exact Ha.
  - now apply IH.
Qed.

Lemma nodup_snoc {A : Type} (l : list A) (x : A) :
  NoDup l -> ~ In x l -> NoDup (l ++ [x]).
Proof.
  intros Hnd Hx. apply NoDup_app; [exact Hnd|constructor; [intros []|constructor]|].
  intros a Ha [<-|[]]. contradiction.
Qed.

(** The invariant reads the queue as a set and the agents through their
    view. *)
Lemma Inv_perm (q q' : list Task) (ags : list Agent) (fl : list Dispatch) :
  Permutation q q' -> Inv q ags fl -> Inv q' ags fl.
Proof.
  intros Hp [H1 H2 H3 H4 H5 H6 H7 H8 H9].
  assert (Hin : forall t, In t q' <-> In t q).
  { intro t. split; apply Permutation_in; [symmetry|]; exact Hp. }
  constructor; auto.
  - apply (Permutation_NoDup (Permutation_map id Hp) H1).
  - intros tid aid Hf. destruct (H5 tid aid Hf) as (t & Ht & Hr).
    exists t. split; [now apply Hin|exact Hr].
  - intros t Ht. apply H6. now apply Hin.
  - intros t p Ht Hpar. apply Hin in Ht. destruct (H8 t p Ht Hpar) as (pt & Hpt & Hr).
    exists pt. split; [now apply Hin|exact Hr].
Qed.

Lemma Inv_view (q : list Task) (ags ags' : list Agent) (fl : list Dispatch) :
  agent_view ags' = agent_view ags -> Inv q ags fl -> Inv q ags' fl.
Proof.
  intros Hv [H1 H2 H3 H4 H5 H6 H7 H8 H9].
  constructor; rewrite ?Hv; auto.
Qed.

(** A mutation of a task that is not being processed, and is not
    afterwards, which keeps a parent a parent. *)
Lemma Inv_update (q : list Task) (ags : list Agent) (fl : list Dispatch)
      (tid : string) (f : Task -> Task) :
  Inv q ags fl ->
  (forall t, id (f t) = id t) ->
  (forall t, parentTaskId (f t) = parentTaskId t) ->
  (forall t, In t q -> id t = tid ->
             status t <> processing /\ status (f t) <> processing
             /\ (status t = waiting_for_subtasks \/ status t = completed ->
                 status (f t) = waiting_for_subtasks \/ status (f t) = completed)) ->
  Inv (update_task tid f q) ags fl.
Proof.
  intros [H1 H2 H3 H4 H5 H6 H7 H8 H9] Hid Hpar Hst.
  constructor; auto.
  - now rewrite update_task_ids.
  - intros tid' aid Hf. destruct (H5 tid' aid Hf) as (t & Ht & Hi & Hs & Ha).
    exists t. split; [|auto].
    apply in_update_task_nodup; auto. left. split; [exact Ht|].
    intro Heq. destruct (Hst t Ht Heq) as [Hn _]. contradiction.
  - intros x Hx Hs. apply in_update_task_nodup in Hx; auto.
    destruct Hx as [[Hx _]|(t & Ht & Hi & ->)]; [now apply H6|].
    destruct (Hst t Ht Hi) as (_ & Hn & _). contradiction.
  - intros x p Hx Hp. apply in_update_task_nodup in Hx; auto.
    assert (Hold : exists x0, In x0 q /\ parentTaskId x0 = Some p).
    { destruct Hx as [[Hx _]|(t & Ht & Hi & ->)]; [eauto|].
      exists t. rewrite Hpar in Hp. auto. }
    destruct Hold as (x0 & Hx0 & Hp0).
    destruct (H8 x0 p Hx0 Hp0) as (pt & Hpt & Hi & Hs).
    destruct (String.eqb_spec (id pt) tid) as [Heq|Hne].
    + exists (f pt). split.
      * apply in_update_task_nodup; auto. right. exists pt. auto.
      * rewrite Hid. split; [exact Hi|]. now apply (Hst pt Hpt Heq).
    + exists pt. split; [|auto].
      apply in_update_task_nodup; auto.
Qed.

(** A new task at the end of the queue: pending or waiting, with a fresh
    identifier and, if it has a parent, a parent that waits. *)
Lemma Inv_add (q : list Task) (ags : list Agent) (fl : list Dispatch) (x : Task) :
  Inv q ags fl ->
  ~ In (id x) (map id q) ->
  status x <> processing ->
  (forall p, parentTaskId x = Some p ->
             exists pt, In pt q /\ id pt = p
                        /\ (status pt = waiting_for_subtasks \/ status pt = completed)) ->
  Inv (q ++ [x]) ags fl.
Proof.
  intros [H1 H2 H3 H4 H5 H6 H7 H8 H9] Hfresh Hs Hpar.
  constructor; auto.
  - rewrite map_app. simpl. now apply nodup_snoc.
  - intros tid aid Hf. destruct (H5 tid aid Hf) as (t & Ht & Hr).
    exists t. split; [apply in_or_app; now left|exact Hr].
  - intros t Ht Hst. apply in_app_or in Ht.
    destruct Ht as [Ht|[<-|[]]]; [now apply H6|contradiction].
  - intros t p Ht Hp. apply in_app_or in Ht.
    assert (Hex : exists pt, In pt q /\ id pt = p
                             /\ (status pt = waiting_for_subtasks \/ status pt = completed)).
    { destruct Ht as [Ht|[<-|[]]]; [now apply (H8 t)|now apply Hpar]. }
    destruct Hex as (pt & Hpt & Hr). exists pt. split; [apply in_or_app; now left|exact Hr].
Qed.

Lemma update_agent_ids (aid : string) (f : Agent -> Agent) (ags : list Agent) :
  (forall a, agent_id (f a) = agent_id a) ->
  map fst (agent_view (update_agent aid f ags)) = map fst (agent_view ags).
Proof.
  intro Hf. rewrite !view_ids. induction ags as [|a ags IH]; simpl; [reflexivity|].
  destruct (String.eqb (agent_id a) aid); simpl; [now rewrite Hf|now rewrite IH].
Qed.

(** The end of a dispatch: the task leaves [processing], the agent goes
    idle, the dispatch is no longer in flight. *)
Lemma Inv_release (q : list Task) (ags : list Agent) (fl : list Dispatch)
      (tid aid : string) (f : Task -> Task) :
  Inv q ags fl ->
  In (tid, aid) fl ->
  (forall t, id (f t) = id t) ->
  (forall t, parentTaskId (f t) = parentTaskId t) ->
  (forall t, status (f t) <> processing) ->
  Inv (update_task tid f q) (update_agent aid (set_agent_status idle) ags)
      (remove_dispatch (tid, aid) fl).
Proof.
  intros [H1 H2 H3 H4 H5 H6 H7 H8 H9] Hfl Hid Hpar Hst.
  destruct (H5 tid aid Hfl) as (t0 & Ht0 & Hi0 & Hs0 & Ha0).
  constructor.
  - now rewrite update_task_ids.
  - now rewrite update_agent_ids by reflexivity.
  - now apply remove_dispatch_incl.
  - now apply remove_dispatch_incl.
  - intros tid' aid' Hf. apply in_remove_dispatch in Hf; auto. destruct Hf as [Hf Hne].
    destruct (H5 tid' aid' Hf) as (t & Ht & Hi & Hs & Ha).
    exists t. split; [|auto].
    apply in_update_task_nodup; auto. left. split; [exact Ht|].
    intro Heq. apply Hne. subst tid'. rewrite Heq in Hf |- *.
    f_equal. apply (nodup_fst_unique fl tid aid' aid H3 Hf Hfl).
  - intros x Hx Hs. apply in_update_task_nodup in Hx; auto.
    destruct Hx as [[Hx Hne]|(t & Ht & Hi & ->)]; [|now apply Hst in Hs].
    destruct (H6 x Hx Hs) as (aid' & Ha & Hf & Hb).
    assert (Hd : aid' <> aid).
    { intros ->. apply Hne. apply (nodup_snd_unique fl aid); auto. }
    exists aid'. split; [exact Ha|]. split.
    + apply in_remove_dispatch; auto. split; [exact Hf|]. congruence.
    + apply in_view_set_status; auto.
  - intros aid' Hb. apply in_view_set_status in Hb; auto.
    destruct Hb as [[Hne Hb]|(_ & Hb & _)]; [|discriminate].
    destruct (H7 aid' Hb) as [tid' Hf]. exists tid'.
    apply in_remove_dispatch; auto. split; [exact Hf|]. congruence.
  - intros x p Hx Hp. apply in_update_task_nodup in Hx; auto.
    assert (Hold : exists x0, In x0 q /\ parentTaskId x0 = Some p).
    { destruct Hx as [[Hx _]|(t & Ht & Hi & ->)]; [eauto|].
      exists t. rewrite Hpar in Hp. auto. }
    destruct Hold as (x0 & Hx0 & Hp0).
    destruct (H8 x0 p Hx0 Hp0) as (pt & Hpt & Hi & Hs).
    exists pt. split; [|auto].
    apply in_update_task_nodup; auto. left. split; [exact Hpt|].
    intro Heq. assert (pt = t0) by (apply (nodup_same_id q); auto; congruence).
    subst pt. rewrite Hs0 in Hs. destruct Hs; discriminate.
  - now rewrite update_agent_ids by reflexivity.
Qed.

(** The start of a dispatch: a pending task goes to [processing] for an
    idle agent, which becomes busy. *)
Lemma Inv_dispatch (q : list Task) (ags : list Agent) (fl : list Dispatch)
      (t : Task) (aid : string) (f : Task -> Task) :
  Inv q ags fl ->
  In t q -> status t = pending ->
  In (aid, idle) (agent_view ags) ->
  (forall x, id (f x) = id x) ->
  (forall x, parentTaskId (f x) = parentTaskId x) ->
  (forall x, status (f x) = processing /\ assignedTo (f x) = Some aid) ->
  Inv (update_task (id t) f q) (update_agent aid (set_agent_status busy) ags)
      (fl ++ [(id t, aid)]).
Proof.
  intros [H1 H2 H3 H4 H5 H6 H7 H8 H9] Ht Hs Hidle Hid Hpar Hf.
  assert (Hother : forall x, In x q -> status x <> pending -> id x <> id t).
  { intros x Hx Hn Heq. apply Hn. rewrite (nodup_same_id q x t); auto. }
  assert (Haid : In aid (map fst (agent_view ags))).
  { apply (in_map fst) in Hidle. exact Hidle. }
  constructor.
  - now rewrite update_task_ids.
  - now rewrite update_agent_ids by reflexivity.
  - rewrite map_app. simpl. apply nodup_snoc; [exact H3|].
    intro Hin. apply in_map_iff in Hin. destruct Hin as ([tid' aid'] & Heq & Hin).
    simpl in Heq. subst tid'.
    destruct (H5 _ _ Hin) as (x & Hx & Hi & Hsx & _).
    apply (Hother x Hx); [congruence|exact Hi].
  - rewrite map_app. simpl. apply nodup_snoc; [exact H4|].
    intro Hin. apply in_map_iff in Hin. destruct Hin as ([tid' aid'] & Heq & Hin).
    simpl in Heq. subst aid'.
    destruct (H5 _ _ Hin) as (x & Hx & Hi & Hsx & Hax).
    destruct (H6 x Hx Hsx) as (aid' & Ha' & _ & Hb).
    assert (aid' = aid) by congruence. subst aid'.
    pose proof (view_status_unique ags aid _ _ H2 Hb Hidle). discriminate.
  - intros tid' aid' Hin. apply in_app_or in Hin.
    destruct Hin as [Hin|[[= <- <-]|[]]].
    + destruct (H5 _ _ Hin) as (x & Hx & Hi & Hsx & Hax).
      exists x. split; [|auto].
      apply in_update_task_nodup; auto. left. split; [exact Hx|].
      apply Hother; [exact Hx|congruence].
    + exists (f t). split.
      * apply in_update_task_nodup; auto. right. exists t. auto.
      * rewrite Hid. destruct (Hf t). auto.
  - intros x Hx Hsx. apply in_update_task_nodup in Hx; auto.
    destruct Hx as [[Hx Hne]|(t' & Ht' & Hi & ->)].
    + destruct (H6 x Hx Hsx) as (aid' & Ha & Hfl & Hb).
      exists aid'. split; [exact Ha|]. split; [apply in_or_app; now left|].
      apply in_view_set_status; auto.
      destruct (String.eqb_spec aid' aid) as [->|Hd]; [right; auto|left; auto].
    + exists aid. destruct (Hf t') as [_ Ha]. split; [exact Ha|].
      rewrite Hid, Hi. split; [apply in_or_app; right; now left|].
      apply in_view_set_status; auto.
  - intros aid' Hb. apply in_view_set_status in Hb; auto.
    destruct Hb as [[Hne Hb]|(-> & _ & _)].
    + destruct (H7 aid' Hb) as [tid' Hfl]. exists tid'. apply in_or_app. now left.
    + exists (id t). apply in_or_app. right. now left.
  - intros x p Hx Hp. apply in_update_task_nodup in Hx; auto.
    assert (Hold : exists x0, In x0 q /\ parentTaskId x0 = Some p).
    { destruct Hx as [[Hx _]|(t' & Ht' & Hi & ->)]; [eauto|].
      exists t'. rewrite Hpar in Hp. auto. }
    destruct Hold as (x0 & Hx0 & Hp0).
    destruct (H8 x0 p Hx0 Hp0) as (pt & Hpt & Hi & Hspt).
    exists pt. split; [|auto].
    apply in_update_task_nodup; auto. left. split; [exact Hpt|].
    apply Hother; [exact Hpt|]. destruct Hspt as [-> | ->]; discriminate.
  - now rewrite update_agent_ids by reflexivity.
Qed.

(** A new idle agent under a fresh identifier other than the aggregator's. *)
Lemma Inv_register (q : list Task) (ags : list Agent) (fl : list Dispatch) (a : Agent) :
  Inv q ags fl ->
  ~ In (agent_id a) (map fst (agent_view ags)) ->
  agent_status a = idle ->
  agent_id a <> AGGREGATOR_SYSTEM ->
  Inv q (ags ++ [a]) fl.
Proof.
  intros [H1 H2 H3 H4 H5 H6 H7 H8 H9] Hfresh Hidle Hne.
  assert (Hv : agent_view (ags ++ [a]) = (agent_view ags ++ [(agent_id a, agent_status a)])%list).
  { unfold agent_view. now rewrite map_app. }
  constructor; auto; rewrite ?Hv.
  - rewrite map_app. simpl. now apply nodup_snoc.
  - intros t Ht Hs. destruct (H6 t Ht Hs) as (aid & Ha & Hf & Hb).
    exists aid. split; [exact Ha|]. split; [exact Hf|].
    apply in_or_app. now left.
  - intros aid Hb. apply in_app_or in Hb.
    destruct Hb as [Hb|[[= _ Hb]|[]]]; [now apply H7|congruence].
  - rewrite map_app. simpl. intro Hin. apply in_app_or in Hin.
    destruct Hin as [Hin|[Hin|[]]]; [contradiction|congruence].
Qed.

(** *** The engine's steps keep the invariant *)

Lemma flight_task_found (e : Engine) (fl : list Dispatch) (tid aid : string) :
  Inv (taskQueue e) (agents e) fl -> In (tid, aid) fl ->
  exists t a, find_task tid (taskQueue e) = Some t /\ get_agent aid (agents e) = Some a.
Proof.
  intros HI Hfl.
  destruct (inv_flight _ _ _ HI tid aid Hfl) as (t & Ht & Hi & Hs & Ha).
  destruct (inv_processing _ _ _ HI t Ht Hs) as (aid' & Ha' & _ & Hb).
  assert (aid' = aid) by congruence. subst aid'.
  destruct (in_view_get_agent aid busy (agents e) Hb) as [a Hg].
  exists t, a. split; [|exact Hg].
  rewrite <- Hi. apply find_task_nodup; [apply (inv_ids _ _ _ HI)|exact Ht].
Qed.

Lemma retry_or_fail_not_processing (aid : string) (t : Task) :
  status (retry_or_fail aid t) <> processing.
Proof.
  unfold retry_or_fail. destruct (_ <? 3)%nat; simpl; discriminate.
Qed.

Lemma retry_or_fail_parent (aid : string) (t : Task) :
  parentTaskId (retry_or_fail aid t) = parentTaskId t.
Proof.
  unfold retry_or_fail. destruct (_ <? 3)%nat; reflexivity.
Qed.

Lemma retry_or_fail_id (aid : string) (t : Task) : id (retry_or_fail aid t) = id t.
Proof. apply retry_or_fail_fields. Qed.

Lemma Inv_handleTaskFailure (e : Engine) (fl : list Dispatch) (task : Task) (aid : string) :
  Inv (taskQueue e) (agents e) fl -> In (id task, aid) fl ->
  Inv (taskQueue (handleTaskFailure e task aid)) (agents (handleTaskFailure e task aid))
      (remove_dispatch (id task, aid) fl).
Proof.
  intros HI Hfl.
  destruct (flight_task_found e fl _ _ HI Hfl) as (t & a & Hf & Hg).
  unfold handleTaskFailure. rewrite Hg. cbn [taskQueue agents with_taskQueue with_agents].
  apply (Inv_view _ (update_agent aid (set_agent_status idle) (agents e)));
    [apply view_updateAgentPerformance|].
  apply Inv_release; auto using retry_or_fail_id, retry_or_fail_parent,
                     retry_or_fail_not_processing.
Qed.

Lemma Inv_handleTaskReassignment (e : Engine) (fl : list Dispatch) (task : Task)
      (aid : string) :
  Inv (taskQueue e) (agents e) fl -> In (id task, aid) fl ->
  Inv (taskQueue (handleTaskReassignment e task aid))
      (agents (handleTaskReassignment e task aid))
      (remove_dispatch (id task, aid) fl).
Proof.
  intros HI Hfl.
  destruct (flight_task_found e fl _ _ HI Hfl) as (t & a & Hf & Hg).
  unfold handleTaskReassignment. rewrite Hg.
  cbn [taskQueue agents with_taskQueue with_agents].
  apply Inv_release; auto using retry_or_fail_id, retry_or_fail_parent,
                     retry_or_fail_not_processing.
Qed.

Lemma Inv_commit_release (e : Engine) (fl : list Dispatch) (tid aid : string)
      (out : DispatchResult) :
  Inv (taskQueue e) (agents e) fl -> In (tid, aid) fl ->
  Inv (taskQueue (commit_output e tid aid out)) (agents (commit_output e tid aid out))
      (remove_dispatch (tid, aid) fl).
Proof.
  intros HI Hfl.
  destruct (flight_task_found e fl _ _ HI Hfl) as (t & a & Hf & Hg).
  rewrite commit_output_queue.
  unfold commit_output. rewrite Hf. cbn [agents with_taskQueue with_taskOutputs].
  rewrite Hg. cbn [agents with_agents].
  apply (Inv_view _ (update_agent aid (set_agent_status idle) (agents e)));
    [apply view_updateAgentPerformance|].
  apply Inv_release; auto. intro x. discriminate.
Qed.

Lemma get_agent_absent (aid : string) (ags : list Agent) :
  ~ In aid (map fst (agent_view ags)) -> get_agent aid ags = None.
Proof.
  intro H. destruct (get_agent aid ags) as [a|] eqn:E; [|reflexivity].
  exfalso. apply H. apply get_agent_in_view in E.
  apply (in_map fst) in E. exact E.
Qed.

(** The aggregation completes a parent that waits for its sub-tasks and
    touches no agent, the aggregator's identifier being no agent's. *)
Lemma Inv_aggregate (fuel : nat) :
  forall (e : Engine) (p : string) (fl : list Dispatch),
    Inv (taskQueue e) (agents e) fl ->
    Inv (taskQueue (checkAndAggregateParent fuel e p))
        (agents (checkAndAggregateParent fuel e p)) fl.
Proof.
  induction fuel as [|fuel IH]; intros e p fl HI; [exact HI|].
  cbn [checkAndAggregateParent].
  destruct (find_task p (taskQueue e)) as [pt|] eqn:Hp; [|exact HI].
  destruct (TaskStatus_eqb (status pt) completed) eqn:Hs; [exact HI|].
  destruct ((0 <? List.length (subtasks_of p (taskQueue e)))%nat
            && forallb (fun s => TaskStatus_eqb (status s) completed)
                       (subtasks_of p (taskQueue e))) eqn:Hall; [|exact HI].
  apply andb_true_iff in Hall. destruct Hall as [Hlen _].
  (* the parent has a child, so it waits *)
  destruct (subtasks_of p (taskQueue e)) as [|c cs] eqn:Hsubs; [discriminate|].
  assert (Hc : In c (subtasks_of p (taskQueue e))) by (rewrite Hsubs; now left).
  unfold subtasks_of in Hc. apply filter_In in Hc. destruct Hc as [Hc Hpar].
  destruct (parentTaskId c) as [p'|] eqn:Hpc; [|discriminate].
  apply String.eqb_eq in Hpar. subst p'.
  destruct (inv_parents _ _ _ HI c p Hc Hpc) as (pt' & Hpt' & Hi' & Hst').
  apply find_task_id in Hp. destruct Hp as [Hi Hpt].
  assert (pt' = pt) by (apply (nodup_same_id (taskQueue e)); auto;
                        [apply (inv_ids _ _ _ HI)|congruence]).
  subst pt'.
  assert (Hwait : status pt = waiting_for_subtasks).
  { destruct Hst' as [H|H]; [exact H|]. rewrite H in Hs. discriminate. }
  unfold logOutput_with.
  set (out := agg_result _).
  assert (HI1 : Inv (taskQueue (commit_output e p AGGREGATOR_SYSTEM out))
                    (agents (commit_output e p AGGREGATOR_SYSTEM out)) fl).
  { rewrite commit_output_queue.
    assert (Hag : agents (commit_output e p AGGREGATOR_SYSTEM out) = agents e).
    { unfold commit_output. destruct (find_task p (taskQueue e)); [|reflexivity].
      cbn [agents with_taskQueue with_taskOutputs].
      rewrite (get_agent_absent _ _ (inv_sentinel _ _ _ HI)). reflexivity. }
    rewrite Hag. apply Inv_update; auto.
    intros t Ht Hid.
    assert (t = pt) by (apply (nodup_same_id (taskQueue e)); auto;
                        [apply (inv_ids _ _ _ HI)|congruence]).
    subst t. rewrite Hwait. simpl. repeat split; auto; discriminate. }
  destruct (parent_to_notify e p) as [g|]; [|exact HI1].
  now apply IH.
Qed.

Lemma Inv_logOutput (e : Engine) (fl : list Dispatch) (tid aid : string)
      (out : DispatchResult) :
  Inv (taskQueue e) (agents e) fl -> In (tid, aid) fl ->
  Inv (taskQueue (logOutput e tid aid out)) (agents (logOutput e tid aid out))
      (remove_dispatch (tid, aid) fl).
Proof.
  intros HI Hfl. unfold logOutput, logOutput_with.
  pose proof (Inv_commit_release e fl tid aid out HI Hfl) as H1.
  destruct (parent_to_notify e tid) as [p|]; [|exact H1].
  now apply Inv_aggregate.
Qed.

Lemma Inv_resume (e : Engine) (fl : list Dispatch) (task : Task) (aid : string)
      (outcome : DispatchOutcome) :
  Inv (taskQueue e) (agents e) fl -> In (id task, aid) fl ->
  Inv (taskQueue (processQueue_resume e task aid outcome))
      (agents (processQueue_resume e task aid outcome))
      (remove_dispatch (id task, aid) fl).
Proof.
  intros HI Hfl. unfold processQueue_resume.
  destruct outcome as [| |result].
  - now apply Inv_handleTaskFailure.
  - now apply Inv_handleTaskFailure.
  - destruct (JS.lt _ _).
    + now apply Inv_handleTaskReassignment.
    + destruct (flight_task_found e fl _ _ HI Hfl) as (t & a & Hf & _).
      rewrite Hf. now apply Inv_logOutput.
Qed.

Lemma append_inj (p a b : string) : p ++ a = p ++ b -> a = b.
Proof.
  induction p as [|c p IH]; simpl; [auto|]. intros [= H]. now apply IH.
Qed.

Lemma not_queued (tid : string) (e : Engine) :
  queued tid e = false -> ~ In tid (map id (taskQueue e)).
Proof.
  unfold queued. destruct (find_task tid (taskQueue e)) eqn:E; [discriminate|].
  intros _ Hin. apply in_map_iff in Hin. destruct Hin as (t & Hi & Ht).
  apply (find_task_none _ _ E t Ht Hi).
Qed.

Lemma get_agent_none (aid : string) (ags : list Agent) :
  get_agent aid ags = None -> ~ In aid (map fst (agent_view ags)).
Proof.
  intros E Hin. rewrite view_ids in Hin. apply in_map_iff in Hin.
  destruct Hin as (a & Hi & Ha).
  unfold get_agent in E. apply (find_none _ _ E) in Ha.
  rewrite Hi, String.eqb_refl in Ha. discriminate.
Qed.

Lemma Inv_split (e e' : Engine) (fl : list Dispatch) (t : Task) (uuid : nat -> string) :
  Inv (taskQueue e) (agents e) fl ->
  In t (taskQueue e) -> status t = pending ->
  fresh_split_ids e uuid = true ->
  handleTaskSplitting e t uuid = Some e' ->
  Inv (taskQueue e') (agents e') fl.
Proof.
  intros HI Ht Hs Hfresh Hsplit.
  assert (Hf : find_task (id t) (taskQueue e) = Some t).
  { apply find_task_nodup; [apply (inv_ids _ _ _ HI)|exact Ht]. }
  rewrite (handleTaskSplitting_queue e t uuid Hf) in Hsplit.
  injection Hsplit as <-. cbn [taskQueue agents with_taskQueue].
  unfold fresh_split_ids in Hfresh.
  apply andb_true_iff in Hfresh. destruct Hfresh as [Hfresh Hdiff].
  apply andb_true_iff in Hfresh. destruct Hfresh as [Hf1 Hf2].
  apply negb_true_iff in Hf1, Hf2, Hdiff.
  apply not_queued in Hf1, Hf2. apply String.eqb_neq in Hdiff.
  set (i1 := "subtask_" ++ uuid 0%nat) in *.
  set (i2 := "subtask_" ++ uuid 1%nat) in *.
  set (q1 := update_task (id t) (split_parent i1 i2) (taskQueue e)).
  assert (Hparent : In (split_parent i1 i2 t) q1 /\ id (split_parent i1 i2 t) = id t
                    /\ status (split_parent i1 i2 t) = waiting_for_subtasks).
  { split; [now apply update_task_in_image|split; reflexivity]. }
  assert (Hids : map id q1 = map id (taskQueue e)).
  { unfold q1. now apply update_task_ids. }
  assert (HI1 : Inv q1 (agents e) fl).
  { apply Inv_update; auto. intros x Hx Hid.
    assert (x = t) by (apply (nodup_same_id (taskQueue e)); auto;
                       apply (inv_ids _ _ _ HI)).
    subst x. rewrite Hs. simpl. repeat split; auto; discriminate. }
  apply (Inv_perm ((q1 ++ [make_subtask (agents e) (id t) i1 (first_half_spec t)])
                     ++ [make_subtask (agents e) (id t) i2 (second_half_spec t)])%list).
  { rewrite <- app_assoc. symmetry. apply sort_perm. }
  apply Inv_add.
  - apply Inv_add; auto.
    + simpl. now rewrite Hids.
    + discriminate.
    + intros p [= <-]. exists (split_parent i1 i2 t). tauto.
  - rewrite map_app, Hids. simpl. intro Hin. apply in_app_or in Hin.
    destruct Hin as [Hin|[Hin|[]]]; [contradiction|].
    apply Hdiff. unfold i1, i2 in Hin. now apply append_inj in Hin.
  - discriminate.
  - intros p [= <-]. exists (split_parent i1 i2 t).
    split; [apply in_or_app; left; tauto|tauto].
Qed.

Lemma Inv_tick (e e' : Engine) (fl : list Dispatch) (uuid : nat -> string)
      (d : option Dispatch) :
  Inv (taskQueue e) (agents e) fl ->
  fresh_split_ids e uuid = true ->
  processQueue_begin e uuid = (e', d) ->
  Inv (taskQueue e') (agents e')
      (match d with
       | Some x => fl ++ [x]
       | None => fl
       end).
Proof.
  intros HI Hfresh Hpq. destruct d as [[tid aid]|].
  - apply processQueue_begin_dispatch in Hpq.
    destruct Hpq as (t & p & e0 & Hn & -> & Hev & _ & He0 & ->).
    apply nextTask_ready in Hn. destruct Hn as [Ht Hr].
    apply isReady_pending in Hr. destruct Hr as [Hs _].
    apply evaluateAssignment_candidate in Hev.
    destruct Hev as (a & Ha & Hid & Hidle & _).
    assert (Hview : In (aid, idle) (agent_view (agents e))).
    { unfold agent_view. apply in_map_iff. exists a. rewrite Hid, Hidle. auto. }
    unfold start_dispatch. cbn [fst taskQueue agents with_taskQueue with_agents].
    destruct He0 as [-> | ->].
    + apply Inv_dispatch; auto.
    + unfold handleTaskCollaboration. cbn [taskQueue agents with_taskQueue].
      rewrite update_task_twice by reflexivity.
      apply Inv_dispatch; auto.
  - apply processQueue_begin_idle in Hpq.
    destruct Hpq as [-> | (t & Hn & Hsplit)]; [exact HI|].
    apply nextTask_ready in Hn. destruct Hn as [Ht Hr].
    apply isReady_pending in Hr. destruct Hr as [Hs _].
    now apply (Inv_split e e' fl t uuid).
Qed.

Lemma Inv_submit (VALID_DOMAINS : list string) (e e' : Engine) (fl : list Dispatch)
      (taskData : TaskData) (uuid tid : string) :
  Inv (taskQueue e) (agents e) fl ->
  truthy (td_parentTaskId taskData) = None ->
  queued ("task_" ++ uuid) e = false ->
  submitTask VALID_DOMAINS e taskData uuid = Returned (e', tid) ->
  Inv (taskQueue e') (agents e') fl.
Proof.
  intros HI Hpar Hfresh. unfold submitTask.
  destruct (negb (isValid _)); [discriminate|].
  intros [= <- _]. cbn [taskQueue agents with_taskQueue].
  eapply Inv_perm; [symmetry; apply sort_perm|].
  apply Inv_add; auto.
  - simpl. now apply not_queued.
  - discriminate.
  - simpl. rewrite Hpar. discriminate.
Qed.

Lemma Inv_registerAgent (VALID_DOMAINS : list string) (e e' : Engine)
      (fl : list Dispatch) (metadata : AgentMetadata) (uuid8 aid : string) :
  Inv (taskQueue e) (agents e) fl ->
  registered_id metadata uuid8 <> AGGREGATOR_SYSTEM ->
  get_agent (registered_id metadata uuid8) (agents e) = None ->
  registerAgent VALID_DOMAINS e metadata uuid8 = Returned (e', aid) ->
  Inv (taskQueue e') (agents e') fl.
Proof.
  intros HI Hne Hfresh. unfold registerAgent.
  destruct (negb (isValid _)); [discriminate|].
  intros [= <- _]. cbn [taskQueue agents with_agents].
  unfold set_agent. cbn [agent_id]. rewrite Hfresh.
  apply Inv_register; auto.
  simpl. now apply get_agent_none.
Qed.

Lemma Inv_initial : Inv_config initial.
Proof.
  unfold Inv_config. simpl.
  constructor; simpl; try apply NoDup_nil; try (intros; contradiction).
  intros [].
Qed.

Lemma Inv_apply_op (VALID_DOMAINS : list string) (c c' : Config) (op : Op) :
  Inv_config c -> plain_op op -> apply_op VALID_DOMAINS c op = Some c' -> Inv_config c'.
Proof.
  unfold Inv_config. intros HI Hplain Hop.
  destruct op as [metadata uuid8|taskData uuid|uuid|tid aid outcome];
    cbn [apply_op plain_op] in *.
  - destruct (registerAgent _ _ _ _) as [[e' aid]|errs] eqn:Hreg;
      [|injection Hop as <-; exact HI].
    destruct (get_agent _ _) eqn:Hg; [discriminate|].
    injection Hop as <-. cbn [engine inflight].
    eapply Inv_registerAgent; eauto.
  - destruct (submitTask _ _ _ _) as [[e' tid]|errs] eqn:Hsub;
      [|injection Hop as <-; exact HI].
    destruct (queued _ _) eqn:Hq; [discriminate|].
    injection Hop as <-. cbn [engine inflight].
    eapply Inv_submit; eauto.
  - destruct (fresh_split_ids _ _) eqn:Hfresh; [|discriminate].
    destruct (processQueue_begin _ _) as [e' d] eqn:Hpq.
    injection Hop as <-. cbn [engine inflight].
    eapply Inv_tick; eauto.
  - destruct (existsb _ _) eqn:Hex; [|discriminate].
    destruct (find_task _ _) as [task|] eqn:Hf; [|discriminate].
    injection Hop as <-. cbn [engine inflight].
    apply existsb_exists in Hex. destruct Hex as (d & Hd & Heq).
    apply dispatch_eqb_eq in Heq. subst d.
    apply find_task_id in Hf. destruct Hf as [<- _].
    now apply Inv_resume.
Qed.

Lemma Inv_run (VALID_DOMAINS : list string) (ops : list Op) :
  forall c c', Inv_config c -> Forall plain_op ops ->
               run VALID_DOMAINS c ops = Some c' -> Inv_config c'.
Proof.
  induction ops as [|op ops IH]; intros c c' HI Hall Hrun; simpl in Hrun.
  - now injection Hrun as <-.
  - inversion Hall as [|? ? Hop Hrest]; subst.
    destruct (apply_op VALID_DOMAINS c op) as [c1|] eqn:E; [|discriminate].
    apply (IH c1 c'); auto. eapply Inv_apply_op; eauto.
Qed.

(** C9, as the code has it: in every configuration reached from the empty
    engine by registrations, submissions, ticks and returns of dispatches, in
    any interleaving, where no agent is registered under AGGREGATOR_SYSTEM
    and no submitted task names a parent, an agent is busy if and only if
    some queued task is processing and assigned to it. *)
Theorem C9_busy_iff_processing (VALID_DOMAINS : list string) (ops : list Op) (c : Config) :
  Forall plain_op ops ->
  run VALID_DOMAINS initial ops = Some c ->
  forall a, In a (agents (engine c)) ->
            (agent_status a = busy <->
             processing_for (taskQueue (engine c)) (agent_id a)).
Proof.
  intros Hplain Hrun a Ha.
  pose proof (Inv_run VALID_DOMAINS ops initial c Inv_initial Hplain Hrun) as HI.
  unfold Inv_config in HI.
  assert (Hview : In (agent_id a, agent_status a) (agent_view (agents (engine c)))).
  { unfold agent_view. apply in_map_iff. exists a. auto. }
  split.
  - intro Hb. rewrite Hb in Hview.
    destruct (inv_busy _ _ _ HI _ Hview) as [tid Hfl].
    destruct (inv_flight _ _ _ HI _ _ Hfl) as (t & Ht & _ & Hs & Hat).
    exists t. auto.
  - intros (t & Ht & Hs & Hat).
    destruct (inv_processing _ _ _ HI t Ht Hs) as (aid & Haid & _ & Hb).
    assert (aid = agent_id a) by congruence. subst aid.
    apply (view_status_unique (agents (engine c)) (agent_id a) _ _
                              (inv_agent_ids _ _ _ HI) Hview Hb).
Qed.

Lemma C9_busy_iff_processing_witness :
  (Forall plain_op dispatch_ops
   /\ run DOMAINS initial dispatch_ops = Some dispatch_config)
  /\ map (fun a => (agent_id a, agent_status a)) (agents (engine dispatch_config))
     = [("solo", busy); ("spare", idle)]
  /\ forall a, In a (agents (engine dispatch_config)) ->
               (agent_status a = busy <->
                processing_for (taskQueue (engine dispatch_config)) (agent_id a)).
Proof.
  assert (H1 : Forall plain_op dispatch_ops).
  { repeat constructor; simpl; discriminate. }
  assert (H2 : run DOMAINS initial dispatch_ops = Some dispatch_config)
    by (vm_compute; reflexivity).
  split; [auto|]. split; [vm_compute; reflexivity|].
  apply (C9_busy_iff_processing DOMAINS dispatch_ops dispatch_config H1 H2).
Defined.

(** C9 as the specification words it fails in both directions.  A task
    submitted with the id of a task in flight as its parent completes and
    the aggregation completes that parent: its agent stays busy with no
    processing task.  An agent registered as AGGREGATOR_SYSTEM is set idle by
    the aggregation of a split parent while its own task is processing. *)
Lemma C9_counterexample :
  (run DOMAINS initial adopted_ops = Some adopted_config
   /\ exists a, In a (agents (engine adopted_config))
                /\ agent_status a = busy
                /\ ~ processing_for (taskQueue (engine adopted_config)) (agent_id a))
  /\ (run DOMAINS initial sentinel_ops = Some sentinel_config
      /\ exists a, In a (agents (engine sentinel_config))
                   /\ agent_status a = idle
                   /\ processing_for (taskQueue (engine sentinel_config)) (agent_id a)).
Proof.
  split; split; try (vm_compute; reflexivity).
  - destruct (get_agent "a1" (agents (engine adopted_config))) as [a|] eqn:E;
      [|vm_compute in E; discriminate].
    exists a. split; [apply get_agent_id in E; tauto|].
    vm_compute in E. injection E as <-.
    split; [reflexivity|].
    intros (t & Hin & Hs & _). vm_compute in Hin.
    destruct Hin as [<-|[<-|[]]]; discriminate.
  - destruct (get_agent "AGGREGATOR_SYSTEM" (agents (engine sentinel_config))) as [a|] eqn:E;
      [|vm_compute in E; discriminate].
    exists a. split; [apply get_agent_id in E; tauto|].
    vm_compute in E. injection E as <-.
    split; [reflexivity|].
    destruct (find_task "task_L" (taskQueue (engine sentinel_config))) as [t|] eqn:Et;
      [|vm_compute in Et; discriminate].
    exists t. split; [apply find_task_id in Et; tauto|].
    vm_compute in Et. injection Et as <-. split; reflexivity.
Qed.

(** ** The order of the queue along a run *)

Lemma sorted_update (tid : string) (f : Task -> Task) (q : list Task) :
  (forall t, priority (f t) = priority t) ->
  StronglySorted priority_desc q ->
  StronglySorted priority_desc (update_task tid f q).
Proof.
  intros Hf. assert (He : forall t, effective_priority (f t) = effective_priority t).
  { intros t. unfold effective_priority. now rewrite Hf. }
  induction 1 as [|y l Hs IH Hy]; simpl; [constructor|].
  rewrite Forall_forall in Hy.
  destruct (String.eqb (id y) tid).
  - constructor; [exact Hs|]. apply Forall_forall. intros z Hz.
    unfold priority_desc. rewrite He. now apply Hy.
  - constructor; [exact IH|]. apply Forall_forall. intros z Hz.
    apply in_update_task in Hz. destruct Hz as [Hz|(t0 & Hfind & ->)].
    + now apply Hy.
    + unfold priority_desc. rewrite He.
      apply Hy. now apply (find_task_id _ _ _ Hfind).
Qed.

Lemma flagged_update (tid : string) (f : Task -> Task) (q : list Task) :
  (forall t, isCollaborative t = true -> isCollaborative (f t) = true) ->
  (exists t, In t q /\ isCollaborative t = true) ->
  exists t, In t (update_task tid f q) /\ isCollaborative t = true.
Proof.
  intros Hf (x & Hx & Hflag).
  destruct (update_task_in tid f q x Hx) as [H|H].
  - now exists x.
  - exists (f x). split; [now apply update_task_in_image|now apply Hf].
Qed.

Lemma Ordered_update (tid : string) (f : Task -> Task) (q : list Task) :
  (forall t, priority (f t) = priority t) ->
  (forall t, isCollaborative (f t) = isCollaborative t) ->
  Ordered q -> Ordered (update_task tid f q).
Proof.
  intros Hp Hc [H|H].
  - left. apply flagged_update; [|exact H]. intros t Ht. now rewrite Hc.
  - right. now apply sorted_update.
Qed.

Lemma Ordered_aggregate (fuel : nat) :
  forall (e : Engine) (p : string),
    Ordered (taskQueue e) -> Ordered (taskQueue (checkAndAggregateParent fuel e p)).
Proof.
  induction fuel as [|fuel IH]; intros e p H; [exact H|].
  cbn [checkAndAggregateParent].
  destruct (find_task p (taskQueue e)); [|exact H].
  destruct (TaskStatus_eqb _ completed); [exact H|].
  destruct (_ && _); [|exact H].
  unfold logOutput_with.
  assert (H1 : Ordered (taskQueue (commit_output e p AGGREGATOR_SYSTEM
                                     (agg_result
                                        (aggregatedResult
                                           (subtaskResults_of e (subtasks_of p (taskQueue e)))
                                           (obj_get p (collaborationSpace e))))))).
  { rewrite commit_output_queue. now apply Ordered_update. }
  destruct (parent_to_notify e p); [|exact H1].
  now apply IH.
Qed.

Lemma retry_or_fail_priority (aid : string) (t : Task) :
  priority (retry_or_fail aid t) = priority t
  /\ isCollaborative (retry_or_fail aid t) = isCollaborative t.
Proof.
  unfold retry_or_fail. destruct (_ <? 3)%nat; split; reflexivity.
Qed.

Lemma Ordered_resume (e : Engine) (task : Task) (aid : string) (outcome : DispatchOutcome) :
  Ordered (taskQueue e) -> Ordered (taskQueue (processQueue_resume e task aid outcome)).
Proof.
  intros H. unfold processQueue_resume.
  assert (Hretry : forall q, Ordered q ->
                             Ordered (update_task (id task) (retry_or_fail aid) q)).
  { intros q Hq. apply Ordered_update; auto; intro t; apply retry_or_fail_priority. }
  assert (Hfail : forall e0, Ordered (taskQueue e0) ->
                             Ordered (taskQueue (handleTaskFailure e0 task aid))).
  { intros e0 H0. unfold handleTaskFailure. cbn [taskQueue with_taskQueue].
    now apply Hretry. }
  assert (Hcommit : forall out, Ordered (taskQueue (commit_output e (id task) aid out))).
  { intros out. rewrite commit_output_queue. now apply Ordered_update. }
  destruct outcome as [| |result]; auto.
  destruct (JS.lt _ _).
  - unfold handleTaskReassignment. cbn [taskQueue with_taskQueue]. now apply Hretry.
  - destruct (find_task (id task) (taskQueue e)); [|now apply Hfail].
    unfold logOutput, logOutput_with.
    destruct (parent_to_notify e (id task)); [|apply Hcommit].
    apply Ordered_aggregate, Hcommit.
Qed.

Lemma Ordered_tick (e e' : Engine) (uuid : nat -> string) (d : option Dispatch) :
  Ordered (taskQueue e) -> processQueue_begin e uuid = (e', d) -> Ordered (taskQueue e').
Proof.
  intros H Hpq. destruct d as [[tid aid]|].
  - apply processQueue_begin_dispatch in Hpq.
    destruct Hpq as (t & p & e0 & Hn & -> & _ & _ & He0 & ->).
    apply nextTask_ready in Hn. destruct Hn as [Ht _].
    unfold start_dispatch. cbn [fst taskQueue with_taskQueue with_agents].
    destruct He0 as [-> | ->].
    + now apply Ordered_update.
    + unfold handleTaskCollaboration. cbn [taskQueue with_taskQueue].
      rewrite update_task_twice by reflexivity.
      left.
      destruct (find_task (id t) (taskQueue e)) as [t0|] eqn:Hf.
      * eexists. split; [apply (update_task_in_image _ _ _ _ Hf)|reflexivity].
      * exfalso. apply (find_task_none _ _ Hf t Ht). reflexivity.
  - apply processQueue_begin_idle in Hpq.
    destruct Hpq as [-> | (t & _ & Hsplit)]; [exact H|].
    unfold handleTaskSplitting in Hsplit.
    destruct (decomposeTask_sorted _ _ _ _ _ Hsplit) as [q0 ->].
    right. apply sort_queue_sorted.
Qed.

Lemma Ordered_apply_op (VALID_DOMAINS : list string) (c c' : Config) (op : Op) :
  Ordered (taskQueue (engine c)) ->
  apply_op VALID_DOMAINS c op = Some c' ->
  Ordered (taskQueue (engine c')).
Proof.
  intros H Hop.
  destruct op as [metadata uuid8|taskData uuid|uuid|tid aid outcome];
    cbn [apply_op] in Hop.
  - destruct (registerAgent _ _ _ _) as [[e' aid]|errs] eqn:Hreg;
      [|injection Hop as <-; exact H].
    destruct (get_agent _ _); [discriminate|].
    injection Hop as <-. cbn [engine].
    unfold registerAgent in Hreg.
    destruct (negb (isValid _)); [discriminate|].
    injection Hreg as <- _. exact H.
  - destruct (submitTask _ _ _ _) as [[e' tid]|errs] eqn:Hsub;
      [|injection Hop as <-; exact H].
    destruct (queued _ _); [discriminate|].
    injection Hop as <-. cbn [engine].
    destruct (submitTask_sorted _ _ _ _ _ _ Hsub) as [q0 ->].
    right. apply sort_queue_sorted.
  - destruct (fresh_split_ids _ _); [|discriminate].
    destruct (processQueue_begin _ _) as [e' d] eqn:Hpq.
    injection Hop as <-. cbn [engine].
    now apply (Ordered_tick _ _ _ _ H Hpq).
  - destruct (existsb _ _); [|discriminate].
    destruct (find_task _ _) as [task|]; [|discriminate].
    injection Hop as <-. cbn [engine].
    now apply Ordered_resume.
Qed.

Lemma Ordered_run (VALID_DOMAINS : list string) (ops : list Op) :
  forall c c',
    Ordered (taskQueue (engine c)) ->
    run VALID_DOMAINS c ops = Some c' ->
    Ordered (taskQueue (engine c')).
Proof.
  induction ops as [|op ops IH]; intros c c' H Hrun; simpl in Hrun.
  - now injection Hrun as <-.
  - destruct (apply_op VALID_DOMAINS c op) as [c1|] eqn:E; [|discriminate].
    apply (IH c1 c'); auto. eapply Ordered_apply_op; eauto.
Qed.

(** C8, as the code has it: when the queue is in descending order of
    effective priority (the priority with 1 for a missing or 0 one), the
    task a tick selects, and dispatches if it dispatches, is ready and no
    ready task has a higher effective priority.  The queue is in that order
    in every configuration reached from the empty engine in which no task
    carries the collaboration flag, that is, as long as
    [handleTaskCollaboration] has not raised a priority in place. *)
Theorem C8_selected_task_priority (e : Engine) (t : Task) :
  StronglySorted priority_desc (taskQueue e) ->
  nextTask e = Some t ->
  In t (taskQueue e)
  /\ isReady (taskQueue e) t = true
  /\ (forall t', In t' (taskQueue e) -> isReady (taskQueue e) t' = true ->
                 effective_priority t' <= effective_priority t)
  /\ (forall uuid e' tid aid,
         processQueue_begin e uuid = (e', Some (tid, aid)) -> tid = id t)
  /\ (forall VALID_DOMAINS ops c,
         run VALID_DOMAINS initial ops = Some c ->
         (forall x, In x (taskQueue (engine c)) -> isCollaborative x = false) ->
         StronglySorted priority_desc (taskQueue (engine c))).
Proof.
  intros Hq Hn.
  destruct (nextTask_ready e t Hn) as [Hin Hr].
  split; [exact Hin|]. split; [exact Hr|]. split; [|split].
  - intros t' Hin' Hr'.
    apply (find_sorted_max (isReady (taskQueue e)) (taskQueue e) t); auto.
  - intros uuid e' tid aid H.
    apply processQueue_begin_dispatch in H.
    destruct H as (t1 & p & e0 & Hn1 & -> & _).
    congruence.
  - intros VALID_DOMAINS ops c Hrun Hflags.
    assert (H0 : Ordered (taskQueue (engine initial))) by (right; constructor).
    destruct (Ordered_run VALID_DOMAINS ops initial c H0 Hrun) as [(x & Hx & Hflag)|H];
      [|exact H].
    rewrite (Hflags x Hx) in Hflag. discriminate.
Qed.

Lemma C8_selected_task_priority_witness :
  (StronglySorted priority_desc (taskQueue (engine priority_config))
   /\ option_map id (nextTask (engine priority_config)) = Some "task_X")
  /\ forall t', In t' (taskQueue (engine priority_config)) ->
                isReady (taskQueue (engine priority_config)) t' = true ->
                effective_priority t' <= 1.
Proof.
  assert (Hs : StronglySorted priority_desc (taskQueue (engine priority_config))).
  { change (taskQueue (engine priority_config))
      with (sort_queue (taskQueue (engine priority_config))).
    apply sort_queue_sorted. }
  split; [split; [exact Hs|vm_compute; reflexivity]|].
  destruct (nextTask (engine priority_config)) as [t|] eqn:Hn; [|vm_compute in Hn; discriminate].
  assert (Hp : effective_priority t = 1).
  { vm_compute in Hn. injection Hn as <-. reflexivity. }
  rewrite <- Hp.
  apply (C8_selected_task_priority (engine priority_config) t Hs Hn).
Defined.

(** * Further properties of the engine *)

(** A concrete key is plain. *)
Ltac plain_key_tac :=
  unfold plain_key, prototype_names;
  let H := fresh "H" in
  intros H; repeat (destruct H as [H|H]; [discriminate H|]); exact H.

(** ** The stable sort *)

Section SortFacts.
Context {A : Type} (before : A -> A -> bool).
Hypothesis before_total : forall a b, before a b = false -> before b a = true.
Hypothesis before_trans :
  forall a b c, before a b = true -> before b c = true -> before a c = true.

Let ordered (a b : A) : Prop := before a b = true.

Lemma insert_in (x y : A) (l : list A) :
  In y (JS.insert before x l) -> y = x \/ In y l.
Proof.
  intros H. apply (Permutation_in _ (insert_perm before x l)) in H.
  destruct H as [H|H]; auto.
Qed.

Lemma insert_ordered (x : A) (l : list A) :
  StronglySorted ordered l -> StronglySorted ordered (JS.insert before x l).
Proof.
  induction 1 as [|y l Hs IH Hy]; simpl.
  - repeat constructor.
  - destruct (before x y) eqn:E.
    + constructor; [constructor; auto|].
      constructor; [exact E|].
      rewrite Forall_forall in *. intros z Hz.
      apply before_trans with y; auto. apply Hy, Hz.
    + constructor; auto.
      rewrite Forall_forall in *. intros z Hz.
      apply insert_in in Hz. destruct Hz as [->|Hz].
      * apply before_total, E.
      * apply Hy, Hz.
Qed.

Lemma sort_ordered (l : list A) : StronglySorted ordered (JS.sort before l).
Proof.
  induction l as [|x l IH]; simpl; [constructor|].
  apply insert_ordered, IH.
Qed.

Lemma sort_ordered_fixed (l : list A) :
  StronglySorted ordered l -> JS.sort before l = l.
Proof.
  induction 1 as [|x l Hs IH Hx]; simpl; [reflexivity|].
  rewrite IH. destruct l as [|y l]; simpl; [reflexivity|].
  inversion Hx as [|? ? Hy _]; subst. unfold ordered in Hy. now rewrite Hy.
Qed.

Lemma sort_snoc (t : A) (l : list A) :
  StronglySorted ordered l ->
  exists l1 l2,
    l = (l1 ++ l2)%list
    /\ JS.sort before (l ++ [t]) = (l1 ++ t :: l2)%list
    /\ Forall (fun y => before y t = true) l1
    /\ Forall (fun y => before y t = false) l2.
Proof.
  induction 1 as [|x l Hs IH Hx].
  - exists [], []. simpl. auto.
  - destruct IH as (l1 & l2 & Hl & Hsort & H1 & H2).
    simpl. rewrite Hsort.
    destruct l1 as [|y l1].
    + simpl in *. subst l2.
      destruct (before x t) eqn:E.
      * exists [x], l. simpl. auto.
      * exists [], (x :: l). simpl. repeat split; auto.
        f_equal. destruct l as [|y l]; simpl; [reflexivity|].
        inversion Hx as [|? ? Hy _]; subst. unfold ordered in Hy. now rewrite Hy.
    + simpl in *. subst l.
      inversion Hx as [|? ? Hy _]; subst. unfold ordered in Hy. rewrite Hy.
      exists (x :: y :: l1), l2. simpl. repeat split; auto.
      constructor; auto.
      apply before_trans with y; auto. now inversion H1.
Qed.
End SortFacts.


(** ** The queue comparator *)

Lemma effective_priority_code (t : Task) :
  JS.or_opt (priority t) 1 = effective_priority t.
Proof. unfold JS.or_opt, JS.or_num, effective_priority. now destruct (priority t). Qed.

Lemma queue_before_order (a b : Task) :
  queue_before a b = true <-> queue_order a b.
Proof.
  unfold queue_before, queue_order. rewrite !effective_priority_code.
  pose proof (or_num_zero (predictedImpact a)) as Ha.
  pose proof (or_num_zero (predictedImpact b)) as Hb.
  destruct (Qeq_bool (effective_priority b - effective_priority a) 0) eqn:E; simpl.
  - apply Qeq_bool_iff in E. rewrite Qle_bool_iff. split.
    + intros H. right. split; lra.
    + intros [H|[_ H]]; lra.
  - assert (Hne : ~ effective_priority b - effective_priority a == 0).
    { intros H. apply Qeq_bool_iff in H. congruence. }
    rewrite Qle_bool_iff. split.
    + intros H. left. lra.
    + intros [H|[H _]]; lra.
Qed.

Lemma queue_before_total (a b : Task) :
  queue_before a b = false -> queue_before b a = true.
Proof.
  intros H. apply queue_before_order.
  assert (Hn : ~ queue_order a b).
  { intros Ho. apply queue_before_order in Ho. congruence. }
  unfold queue_order in *.
  destruct (Qlt_le_dec (effective_priority a) (effective_priority b)) as [Hp|Hp]; auto.
  destruct (Qlt_le_dec (effective_priority b) (effective_priority a)) as [Hq|Hq].
  - exfalso. apply Hn. now left.
  - right. split; [lra|].
    destruct (Qlt_le_dec (predictedImpact b) (predictedImpact a)) as [Hi|Hi]; [|lra].
    exfalso. apply Hn. right. split; lra.
Qed.

Lemma queue_before_trans (a b c : Task) :
  queue_before a b = true -> queue_before b c = true -> queue_before a c = true.
Proof.
  rewrite !queue_before_order. unfold queue_order.
  intros [H1|[H1 H1']] [H2|[H2 H2']].
  - left; lra.
  - left; lra.
  - left; lra.
  - right; split; lra.
Qed.

Lemma sort_queue_order (q : list Task) : StronglySorted queue_order (sort_queue q).
Proof.
  pose proof (sort_ordered queue_before queue_before_total queue_before_trans q) as H.
  unfold sort_queue.
  induction H as [|x l Hs IH Hx]; constructor; auto.
  rewrite Forall_forall in *. intros y Hy. apply queue_before_order, Hx, Hy.
Qed.

Lemma queue_order_before (q : list Task) :
  StronglySorted queue_order q ->
  StronglySorted (fun a b => queue_before a b = true) q.
Proof.
  induction 1 as [|x l Hs IH Hx]; constructor; auto.
  rewrite Forall_forall in *. intros y Hy. apply queue_before_order, Hx, Hy.
Qed.

(** ** Submission *)

(** X1.  A submission that is accepted adds exactly one task, pending, with
    no attempt counted, under the identifier it returns, and leaves the
    agents and the stored outputs alone; the queue it leaves is in order:
    descending priority, descending predicted impact among equals. *)
Theorem submitTask_enqueues (VALID_DOMAINS : list string) (e e' : Engine)
        (taskData : TaskData) (uuid tid : string) :
  submitTask VALID_DOMAINS e taskData uuid = Returned (e', tid) ->
  tid = "task_" ++ uuid
  /\ agents e' = agents e
  /\ taskOutputs e' = taskOutputs e
  /\ (exists t,
        id t = tid /\ status t = pending /\ retryCount t = 0%nat
        /\ failedAgents t = [] /\ assignedTo t = None /\ subtasks t = []
        /\ Permutation (taskQueue e') (taskQueue e ++ [t]))
  /\ StronglySorted queue_order (taskQueue e').
Proof.
  unfold submitTask. intros H.
  destruct (negb (isValid (validateTask VALID_DOMAINS taskData))); [discriminate|].
  injection H as <- <-. simpl.
  split; [reflexivity|]. split; [reflexivity|]. split; [reflexivity|].
  split; [|apply sort_queue_order].
  match goal with
  | |- context [sort_queue (_ ++ [?x])%list] => exists x
  end.
  do 6 (split; [reflexivity|]). apply sort_perm.
Qed.

Lemma submitTask_enqueues_witness :
  exists e',
    submitTask DOMAINS (engine two_tasks) (logic_data "third" 4 4) "C"
    = Returned (e', "task_C")
    /\ List.length (taskQueue e') = 3%nat.
Proof.
  destruct (submitTask DOMAINS (engine two_tasks) (logic_data "third" 4 4) "C")
    as [[e' tid]|] eqn:H; [|vm_compute in H; discriminate].
  destruct (submitTask_enqueues DOMAINS (engine two_tasks) e' (logic_data "third" 4 4)
                                "C" tid H)
    as (Htid & _ & _ & (t & _ & _ & _ & _ & _ & _ & Hperm) & _).
  exists e'. split; [now rewrite Htid|].
  rewrite (Permutation_length Hperm), length_app. reflexivity.
Defined.

(** X2.  Submitting into a queue that is in order moves no queued task: the
    new task is placed behind every task that ranks at least as high
    (first come, first served among equals) and ahead of all others. *)
Theorem submitTask_keeps_order (VALID_DOMAINS : list string) (e e' : Engine)
        (taskData : TaskData) (uuid tid : string) :
  StronglySorted queue_order (taskQueue e) ->
  submitTask VALID_DOMAINS e taskData uuid = Returned (e', tid) ->
  exists q1 t q2,
    taskQueue e = (q1 ++ q2)%list
    /\ taskQueue e' = (q1 ++ t :: q2)%list
    /\ id t = tid
    /\ (forall y, In y q1 -> queue_order y t)
    /\ (forall y, In y q2 -> ~ queue_order y t).
Proof.
  unfold submitTask. intros Hs H.
  destruct (negb (isValid (validateTask VALID_DOMAINS taskData))); [discriminate|].
  injection H as <- <-. simpl. unfold sort_queue.
  match goal with
  | |- context [JS.sort _ (_ ++ [?x])%list] => set (t := x)
  end.
  destruct (sort_snoc queue_before queue_before_trans t (taskQueue e)
                      (queue_order_before _ Hs))
    as (l1 & l2 & Hl & Hsort & H1 & H2).
  exists l1, t, l2. rewrite Forall_forall in H1, H2.
  repeat split; auto.
  - intros y Hy. apply queue_before_order, H1, Hy.
  - intros y Hy Ho. apply queue_before_order in Ho. rewrite (H2 y Hy) in Ho. discriminate.
Qed.

Lemma submitTask_keeps_order_witness :
  StronglySorted queue_order (taskQueue (engine two_tasks))
  /\ exists e' q1 t q2,
       submitTask DOMAINS (engine two_tasks) (logic_data "third" 5 5) "C"
       = Returned (e', "task_C")
       /\ taskQueue (engine two_tasks) = (q1 ++ q2)%list
       /\ taskQueue e' = (q1 ++ t :: q2)%list
       /\ id t = "task_C".
Proof.
  assert (Hs : StronglySorted queue_order (taskQueue (engine two_tasks))).
  { change (taskQueue (engine two_tasks))
      with (sort_queue (taskQueue (engine two_tasks))).
    apply sort_queue_order. }
  split; [exact Hs|].
  destruct (submitTask DOMAINS (engine two_tasks) (logic_data "third" 5 5) "C")
    as [[e' tid]|] eqn:H; [|vm_compute in H; discriminate].
  destruct (submitTask_keeps_order DOMAINS (engine two_tasks) e' (logic_data "third" 5 5)
                                   "C" tid Hs H) as (q1 & t & q2 & Hq & Hq' & Hid & _).
  assert (Htid : tid = "task_C") by (vm_compute in H; now injection H).
  exists e', q1, t, q2. rewrite Htid in *. auto.
Defined.

(** ** The choice of an agent *)

Lemma includes_In (l : list string) (x : string) : includes l x = true <-> In x l.
Proof.
  unfold includes. rewrite existsb_exists. split.
  - intros (y & Hy & E). apply String.eqb_eq in E. now subst.
  - intros H. exists x. split; [exact H|apply String.eqb_refl].
Qed.






(** ** Predicted success *)


Lemma qmax_ge_left (a b : Q) : a <= JS.qmax a b.
Proof.
  unfold JS.qmax. destruct (Qle_bool a b) eqn:E; [now apply Qle_bool_iff|lra].
Qed.

Lemma qmax_le (a b c : Q) : a <= c -> b <= c -> JS.qmax a b <= c.
Proof. unfold JS.qmax. now destruct (Qle_bool a b). Qed.



Lemma uncertainty_unit (d : DomainPerf) :
  calibrated d ->
  0 <= JS.or_num (d_uncertainty d) (1 / (d_tasksCompleted d + 1)) <= 1.
Proof.
  intros (Htc & _ & Hu). unfold JS.or_num.
  destruct (Qeq_bool (d_uncertainty d) 0); [|exact Hu].
  split.
  - apply Qle_shift_div_l; lra.
  - apply Qle_shift_div_r; lra.
Qed.

Lemma blend_unit (h k u : Q) :
  0 <= h <= 1 -> 0 <= k <= 1 -> 0 <= u <= 1 -> 0 <= h * (1 - u) + k * u <= 1.
Proof. intros Hh Hk Hu. split; nra. Qed.

Lemma calibrated_default : calibrated MetaReflection.default_domainPerf.
Proof. unfold calibrated; simpl. repeat split; lra. Qed.

(** X6.  For an agent whose skill in the task's domain lies in (0, 10] and
    whose statistics of that domain, if any, are calibrated, the predicted
    success is a probability: it lies between 0 and 1, interference or
    not. *)
Theorem predictSuccess_unit (q : list Task) (agent : Agent) (task : Task) (s : Q) :
  plain_key (domainLabel task) ->
  obj_get (domainLabel task) (skillScores agent) = Some s ->
  0 < s <= 10 ->
  (forall d, obj_get (domainLabel task) (domains (performanceData agent)) = Some d ->
             calibrated d) ->
  0 <= MetaReflection.predictSuccess q agent task <= 1.
Proof.
  intros _ Hs Hrange Hd. unfold MetaReflection.predictSuccess.
  rewrite Hs. cbn [JS.or_opt].
  set (perf := match obj_get (domainLabel task) (domains (performanceData agent)) with
               | Some d => d
               | None => MetaReflection.default_domainPerf
               end).
  assert (Hc : calibrated perf).
  { unfold perf. destruct (obj_get _ (domains _)); [now apply Hd|apply calibrated_default]. }
  assert (Hskill : JS.or_num (JS.or_num s (JS.qsum (obj_values (skillScores agent)) / 10)) 5
                   = s).
  { rewrite !or_num_nonzero; [reflexivity|lra|].
    rewrite or_num_nonzero; lra. }
  rewrite Hskill.
  pose proof (uncertainty_unit perf Hc) as Hu.
  set (u := JS.or_num (d_uncertainty perf) (1 / (d_tasksCompleted perf + 1))) in *.
  assert (Hk : 0 <= s / 10 <= 1).
  { split; [apply Qle_shift_div_l|apply Qle_shift_div_r]; lra. }
  set (k := s / 10) in *.
  destruct Hc as (_ & Hh & _).
  pose proof (blend_unit (d_successRate perf) k u Hh Hk Hu) as Hp.
  set (p := d_successRate perf * (1 - u) + k * u) in *.
  apply toFixed_unit.
  destruct (filter _ q) as [|x l]; [exact Hp|].
  split.
  - apply Qle_trans with 0.1; [lra|apply qmax_ge_left].
  - apply qmax_le; [lra|].
    assert (0 <= inject_Z (Z.of_nat (List.length (x :: l)))).
    { change 0 with (inject_Z 0). rewrite <- Zle_Qle. lia. }
    nra.
Qed.

Lemma predictSuccess_unit_witness :
  (plain_key (domainLabel disturbed_task)
   /\ obj_get (domainLabel disturbed_task) (skillScores seasoned_agent) = Some 8
   /\ 0 < 8 <= 10
   /\ forall d, obj_get (domainLabel disturbed_task)
                        (domains (performanceData seasoned_agent)) = Some d ->
                calibrated d)
  /\ 0 <= MetaReflection.predictSuccess [busy_analysis "t1"] seasoned_agent disturbed_task
     <= 1.
Proof.
  assert (H0 : plain_key (domainLabel disturbed_task)) by plain_key_tac.
  assert (H1 : obj_get (domainLabel disturbed_task) (skillScores seasoned_agent) = Some 8)
    by reflexivity.
  assert (H2 : 0 < 8 <= 10) by (split; [reflexivity|discriminate]).
  assert (H3 : forall d, obj_get (domainLabel disturbed_task)
                                 (domains (performanceData seasoned_agent)) = Some d ->
                         calibrated d).
  { intros d Hd. vm_compute in Hd. injection Hd as <-.
    unfold calibrated; simpl. repeat split; discriminate. }
  split; [repeat first [assumption | split]|].
  exact (predictSuccess_unit [busy_analysis "t1"] seasoned_agent disturbed_task 8
                             H0 H1 H2 H3).
Defined.

(** ** Learning from outcomes *)

Lemma running_mean (sr tc b : Q) :
  0 <= tc -> 0 <= sr <= 1 -> 0 <= b <= 1 ->
  let sr' := (sr * (tc + 1 - 1) + b) / (tc + 1) in
  sr' * (tc + 1) == sr * tc + b /\ 0 <= sr' <= 1.
Proof.
  intros Htc Hsr Hb sr'. unfold sr'. split.
  - field. lra.
  - split.
    + apply Qle_shift_div_l; [lra|]. nra.
    + apply Qle_shift_div_r; [lra|]. nra.
Qed.

Lemma outcome_unit (success : bool) : 0 <= (if success then 1 else 0) <= 1.
Proof. destruct success; split; discriminate. Qed.

Lemma learn_domain_facts (success : bool) (impact : Q) (d : DomainPerf) :
  calibrated d ->
  let d' := MetaReflection.learn_domain success impact d in
  d_tasksCompleted d' = d_tasksCompleted d + 1
  /\ d_successRate d' * (d_tasksCompleted d + 1)
     == d_successRate d * d_tasksCompleted d + (if success then 1 else 0)
  /\ d_uncertainty d' == 1 / (d_tasksCompleted d + 2)
  /\ calibrated d'.
Proof.
  intros (Htc & Hsr & Hu) d'.
  destruct (running_mean (d_successRate d) (d_tasksCompleted d)
                         (if success then 1 else 0) Htc Hsr (outcome_unit success))
    as (Hmean & Hrange).
  assert (Hunc : d_uncertainty d' == 1 / (d_tasksCompleted d + 2)).
  { unfold d'; simpl. field. lra. }
  split; [reflexivity|]. split; [exact Hmean|]. split; [exact Hunc|].
  unfold calibrated. split; [unfold d'; simpl; lra|]. split; [exact Hrange|].
  rewrite Hunc. split.
  - apply Qle_shift_div_l; lra.
  - apply Qle_shift_div_r; lra.
Qed.

Lemma within_eq (x y b : Q) : x == y -> 0 <= b -> Qabs (x - y) <= b.
Proof.
  intros E Hb. assert (H : x - y == 0) by lra. rewrite H. exact Hb.
Qed.

Lemma calibrated_fresh : calibrated MetaReflection.fresh_domainPerf.
Proof. unfold calibrated; simpl. repeat split; lra. Qed.

(** X7.  [updateAgentMetadata] on a registered agent whose statistics of
    the domain are calibrated (a domain not seen before starts from fresh
    ones) counts one more task, moves the success rate to the running mean
    that includes the new outcome, sets the uncertainty to 1 / (n + 1) for
    the new count n (both up to the rounding error of the doubles), and
    leaves the statistics calibrated; the agent's status and its other
    domains are untouched. *)
Theorem updateAgentMetadata_learns (ags : list Agent) (agentId domain : string)
        (success : bool) (impact : Q) (a : Agent) :
  plain_key domain ->
  get_agent agentId ags = Some a ->
  calibrated (domain_stats domain a) ->
  exists a' d',
    get_agent agentId (MetaReflection.updateAgentMetadata ags agentId domain success impact)
    = Some a'
    /\ agent_status a' = agent_status a
    /\ obj_get domain (domains (performanceData a')) = Some d'
    /\ d_tasksCompleted d' = d_tasksCompleted (domain_stats domain a) + 1
    /\ Qabs (d_successRate d' * d_tasksCompleted d'
             - (d_successRate (domain_stats domain a)
                * d_tasksCompleted (domain_stats domain a)
                + (if success then 1 else 0)))
       <= double_slack * d_tasksCompleted d'
    /\ Qabs (d_uncertainty d' - 1 / (d_tasksCompleted d' + 1)) <= double_slack
    /\ calibrated d'
    /\ (forall other, other <> domain ->
          obj_get other (domains (performanceData a'))
          = obj_get other (domains (performanceData a))).
Proof.
  intros _ Ha Hc. unfold MetaReflection.updateAgentMetadata.
  rewrite get_agent_update_same by reflexivity. rewrite Ha. cbn [option_map].
  fold (domain_stats domain a).
  destruct (learn_domain_facts success impact (domain_stats domain a) Hc)
    as (Htc & Hmean & Hunc & Hcal).
  eexists. exists (MetaReflection.learn_domain success impact (domain_stats domain a)).
  split; [reflexivity|].
  cbn [performanceData domains agent_status set_performanceData].
  split; [reflexivity|]. split; [apply obj_get_set_same|].
  assert (Hpos : 0 <= d_tasksCompleted (domain_stats domain a)) by apply Hc.
  split; [exact Htc|]. split.
  { apply within_eq; [rewrite Htc; exact Hmean|].
    rewrite Htc. unfold double_slack. nra. }
  split; [|split; [exact Hcal|]].
  - apply within_eq; [|discriminate].
    rewrite Hunc, Htc. field. lra.
  - intros other Hne. now apply obj_get_set_other.
Qed.

Lemma updateAgentMetadata_learns_witness :
  (plain_key "logic"
   /\ get_agent "seasoned" [weak_agent; seasoned_agent] = Some seasoned_agent
   /\ calibrated (domain_stats "logic" seasoned_agent))
  /\ exists a' d',
       get_agent "seasoned"
                 (MetaReflection.updateAgentMetadata [weak_agent; seasoned_agent]
                                                     "seasoned" "logic" true 6) = Some a'
       /\ obj_get "logic" (domains (performanceData a')) = Some d'
       /\ d_tasksCompleted d' = 3 + 1
       /\ calibrated d'.
Proof.
  assert (H1 : get_agent "seasoned" [weak_agent; seasoned_agent] = Some seasoned_agent)
    by reflexivity.
  assert (H2 : calibrated (domain_stats "logic" seasoned_agent)).
  { unfold calibrated; simpl. repeat split; discriminate. }
  assert (H0 : plain_key "logic") by plain_key_tac.
  split; [repeat first [assumption | split]|].
  destruct (updateAgentMetadata_learns [weak_agent; seasoned_agent] "seasoned" "logic"
                                       true 6 seasoned_agent H0 H1 H2)
    as (a' & d' & Ha & _ & Hd & Htc & _ & _ & Hcal & _).
  exists a', d'. split; [exact Ha|]. split; [exact Hd|]. split; [exact Htc|exact Hcal].
Defined.

(** X8.  [updateAgentPerformance] on a registered agent with a non-negative
    task count and a success rate between 0 and 1 counts one more task and
    moves the success rate to the running mean that includes the new
    outcome (up to the rounding error of the doubles), which stays between
    0 and 1; a failure leaves the average impact as it was; the agent's
    status and every other agent are untouched. *)
Theorem updateAgentPerformance_running_mean (ags : list Agent) (agentId domain : string)
        (success : bool) (impact : Q) (a : Agent) :
  get_agent agentId ags = Some a ->
  0 <= tasksCompleted (performanceData a) ->
  0 <= successRate (performanceData a) <= 1 ->
  exists a',
    get_agent agentId (updateAgentPerformance ags agentId success impact domain) = Some a'
    /\ agent_status a' = agent_status a
    /\ tasksCompleted (performanceData a') = tasksCompleted (performanceData a) + 1
    /\ Qabs (successRate (performanceData a') * tasksCompleted (performanceData a')
             - (successRate (performanceData a) * tasksCompleted (performanceData a)
                + (if success then 1 else 0)))
       <= double_slack * tasksCompleted (performanceData a')
    /\ 0 <= successRate (performanceData a') <= 1
    /\ (success = false ->
        averageImpact (performanceData a') = averageImpact (performanceData a))
    /\ (forall other, other <> agentId ->
          get_agent other (updateAgentPerformance ags agentId success impact domain)
          = get_agent other ags).
Proof.
  intros Ha Htc Hsr.
  destruct (running_mean (successRate (performanceData a)) (tasksCompleted (performanceData a))
                         (if success then 1 else 0) Htc Hsr (outcome_unit success))
    as (Hmean & Hrange).
  assert (Hslack : 0 <= double_slack * (tasksCompleted (performanceData a) + 1))
    by (unfold double_slack; nra).
  set (a1 := set_performanceData
               {| tasksCompleted := tasksCompleted (performanceData a) + 1;
                  successRate :=
                    (successRate (performanceData a)
                     * (tasksCompleted (performanceData a) + 1 - 1)
                     + (if success then 1 else 0))
                    / (tasksCompleted (performanceData a) + 1);
                  averageImpact :=
                    if success
                    then (averageImpact (performanceData a)
                          * (tasksCompleted (performanceData a) + 1 - 1) + impact)
                         / (tasksCompleted (performanceData a) + 1)
                    else averageImpact (performanceData a);
                  domains := domains (performanceData a) |} a).
  assert (Hfacts : forall a',
             agent_status a' = agent_status a1 ->
             tasksCompleted (performanceData a') = tasksCompleted (performanceData a1) ->
             successRate (performanceData a') = successRate (performanceData a1) ->
             averageImpact (performanceData a') = averageImpact (performanceData a1) ->
             agent_status a' = agent_status a
             /\ tasksCompleted (performanceData a') = tasksCompleted (performanceData a) + 1
             /\ Qabs (successRate (performanceData a') * tasksCompleted (performanceData a')
                      - (successRate (performanceData a)
                         * tasksCompleted (performanceData a)
                         + (if success then 1 else 0)))
                <= double_slack * tasksCompleted (performanceData a')
             /\ 0 <= successRate (performanceData a') <= 1
             /\ (success = false ->
                 averageImpact (performanceData a') = averageImpact (performanceData a))).
  { intros a' E1 E2 E3 E4. rewrite E1, E2, E3, E4. unfold a1.
    cbn [performanceData set_performanceData agent_status tasksCompleted successRate
         averageImpact].
    split; [reflexivity|]. split; [reflexivity|].
    split; [now apply within_eq|]. split; [exact Hrange|]. now intros ->. }
  unfold updateAgentPerformance, MetaReflection.updateAgentMetadata.
  destruct (String.eqb domain EmptyString).
  - rewrite get_agent_update_same by reflexivity. rewrite Ha. cbn [option_map].
    exists a1. split; [reflexivity|].
    destruct (Hfacts a1 eq_refl eq_refl eq_refl eq_refl) as (F1 & F2 & F3 & F4 & F5).
    repeat (split; [assumption|]).
    intros other Hne. now apply get_agent_update_other.
  - rewrite !get_agent_update_same by reflexivity. rewrite Ha. cbn [option_map].
    eexists. split; [reflexivity|].
    match goal with
    | |- agent_status ?x = _ /\ _ =>
        destruct (Hfacts x eq_refl eq_refl eq_refl eq_refl) as (F1 & F2 & F3 & F4 & F5)
    end.
    repeat (split; [assumption|]).
    intros other Hne. now rewrite !get_agent_update_other.
Qed.

Lemma updateAgentPerformance_running_mean_witness :
  (get_agent "seasoned" [weak_agent; seasoned_agent] = Some seasoned_agent
   /\ 0 <= tasksCompleted (performanceData seasoned_agent)
   /\ 0 <= successRate (performanceData seasoned_agent) <= 1)
  /\ exists a',
       get_agent "seasoned"
                 (updateAgentPerformance [weak_agent; seasoned_agent]
                                         "seasoned" false 0 "logic") = Some a'
       /\ tasksCompleted (performanceData a') = 3 + 1
       /\ 0 <= successRate (performanceData a') <= 1.
Proof.
  assert (H1 : get_agent "seasoned" [weak_agent; seasoned_agent] = Some seasoned_agent)
    by reflexivity.
  assert (H2 : 0 <= tasksCompleted (performanceData seasoned_agent)) by discriminate.
  assert (H3 : 0 <= successRate (performanceData seasoned_agent) <= 1)
    by (split; discriminate).
  split; [repeat first [assumption | split]|].
  destruct (updateAgentPerformance_running_mean [weak_agent; seasoned_agent] "seasoned"
                                                "logic" false 0 seasoned_agent H1 H2 H3)
    as (a' & Ha & _ & Htc & _ & Hrange & _).
  exists a'. split; [exact Ha|]. split; [exact Htc|exact Hrange].
Defined.

(** ** Validation *)

Lemma isValid_nil {E : Type} (errors : list E) : isValid errors = true <-> errors = [].
Proof. destruct errors; simpl; split; congruence. Qed.

Lemma truthy_iff (s : option string) (x : string) :
  truthy s = Some x <-> s = Some x /\ x <> EmptyString.
Proof.
  split; [apply truthy_some|]. intros [-> Hne]. simpl.
  destruct (String.eqb x EmptyString) eqn:E; [|reflexivity].
  apply String.eqb_eq in E. contradiction.
Qed.



Lemma validateAgent_nil (VALID_DOMAINS : list string) (metadata : AgentMetadata)
      (existing : list Agent) :
  validateAgent VALID_DOMAINS metadata existing = []
  <-> (forall i, md_id metadata = Some i -> i <> EmptyString -> get_agent i existing = None)
      /\ (exists labels, md_domainLabels metadata = Some labels /\ labels <> []
                         /\ forall l, In l labels -> In l VALID_DOMAINS)
      /\ md_skillScores metadata <> None
      /\ (exists endpoint, md_apiEndpoint metadata = Some endpoint
                           /\ endpoint <> EmptyString)
      /\ md_performanceData metadata <> None.
Proof.
  unfold validateAgent. split.
  - intros H. apply app_eq_nil in H. destruct H as [H1 H]. apply app_eq_nil in H.
    destruct H as [H2 H]. apply app_eq_nil in H. destruct H as [H3 H].
    apply app_eq_nil in H. destruct H as [H4 H5].
    split; [|split; [|split; [|split]]].
    + intros i Hi Hne. rewrite (proj2 (truthy_iff _ i) (conj Hi Hne)) in H1.
      now destruct (get_agent i existing).
    + destruct (md_domainLabels metadata) as [[|l labels]|]; try discriminate.
      exists (l :: labels). split; [reflexivity|]. split; [discriminate|].
      intros x Hx. apply includes_In.
      destruct (includes VALID_DOMAINS x) eqn:E; [reflexivity|].
      assert (Hin : In (InvalidDomainLabel x)
                       (flat_map (fun label => if includes VALID_DOMAINS label then []
                                               else [InvalidDomainLabel label])
                                 (l :: labels))).
      { apply in_flat_map. exists x. split; [exact Hx|]. rewrite E. now left. }
      rewrite H2 in Hin. contradiction.
    + now destruct (md_skillScores metadata).
    + destruct (truthy (md_apiEndpoint metadata)) as [endpoint|] eqn:E; [|discriminate].
      apply truthy_iff in E. now exists endpoint.
    + now destruct (md_performanceData metadata).
  - intros (Hid & (labels & Hl & Hne & Hin) & Hs & (endpoint & He & He') & Hp).
    assert (E1 : match truthy (md_id metadata) with
                 | Some i => match get_agent i existing with
                             | Some _ => [DuplicateId]
                             | None => []
                             end
                 | None => []
                 end = []).
    { destruct (truthy (md_id metadata)) as [i|] eqn:E; [|reflexivity].
      apply truthy_iff in E. destruct E as [E E']. now rewrite (Hid i E E'). }
    rewrite E1, Hl, (proj2 (truthy_iff _ endpoint) (conj He He')).
    destruct labels as [|l labels]; [contradiction|].
    assert (E2 : flat_map (fun label => if includes VALID_DOMAINS label then []
                                        else [InvalidDomainLabel label]) (l :: labels)
                 = []).
    { generalize (l :: labels), Hin. clear. intros ls Hin.
      induction ls as [|x ls IH]; simpl; [reflexivity|].
      rewrite (proj2 (includes_In _ _) (Hin x (or_introl eq_refl))). simpl.
      apply IH. intros y Hy. apply Hin. now right. }
    rewrite E2.
    destruct (md_skillScores metadata); [|contradiction].
    destruct (md_performanceData metadata); [|contradiction].
    reflexivity.
Qed.

(** ** Registration *)



Lemma get_agent_app (aid : string) (l1 l2 : list Agent) :
  get_agent aid (l1 ++ l2)
  = match get_agent aid l1 with
    | Some a => Some a
    | None => get_agent aid l2
    end.
Proof.
  unfold get_agent. induction l1 as [|x l1 IH]; simpl; [reflexivity|].
  now destruct (String.eqb (agent_id x) aid).
Qed.

Lemma get_agent_set_same (a : Agent) (l : list Agent) :
  get_agent (agent_id a) (set_agent a l) = Some a.
Proof.
  unfold set_agent. destruct (get_agent (agent_id a) l) eqn:E.
  - unfold get_agent in *. induction l as [|x l IH]; simpl in *; [discriminate|].
    destruct (String.eqb (agent_id x) (agent_id a)) eqn:Ex; simpl.
    + now rewrite String.eqb_refl.
    + rewrite Ex. auto.
  - rewrite get_agent_app, E. unfold get_agent. simpl. now rewrite String.eqb_refl.
Qed.

Lemma get_agent_set_other (a : Agent) (l : list Agent) (aid : string) :
  aid <> agent_id a -> get_agent aid (set_agent a l) = get_agent aid l.
Proof.
  intros Hne.
  assert (Hf : String.eqb (agent_id a) aid = false).
  { apply String.eqb_neq. congruence. }
  unfold set_agent. destruct (get_agent (agent_id a) l) eqn:E.
  - clear E. unfold get_agent. induction l as [|x l IH]; simpl; [reflexivity|].
    destruct (String.eqb (agent_id x) (agent_id a)) eqn:Ex; simpl.
    + rewrite Hf. apply String.eqb_eq in Ex. rewrite Ex. now rewrite Hf.
    + now rewrite IH.
  - rewrite get_agent_app. destruct (get_agent aid l); [reflexivity|].
    unfold get_agent. simpl. now rewrite Hf.
Qed.

Lemma registered_id_nonempty (metadata : AgentMetadata) (uuid8 : string) :
  registered_id metadata uuid8 <> EmptyString.
Proof.
  unfold registered_id. destruct (truthy (md_id metadata)) as [i|] eqn:E.
  - now apply truthy_iff in E.
  - discriminate.
Qed.

(** X11.  A registration that is accepted makes the agent retrievable under
    the identifier returned, idle and with the labels, skills and endpoint
    given; no other agent, no task and no output changes; and from then on
    a registration that asks for this identifier throws with the duplicate
    error. *)
Theorem registerAgent_registers (VALID_DOMAINS : list string) (e e' : Engine)
        (metadata : AgentMetadata) (uuid8 aid : string) :
  registerAgent VALID_DOMAINS e metadata uuid8 = Returned (e', aid) ->
  aid = registered_id metadata uuid8
  /\ (exists a,
        get_agent aid (agents e') = Some a
        /\ agent_id a = aid /\ agent_status a = idle
        /\ md_domainLabels metadata = Some (domainLabels a)
        /\ md_skillScores metadata = Some (skillScores a)
        /\ md_apiEndpoint metadata = Some (apiEndpoint a))
  /\ (forall other, other <> aid -> get_agent other (agents e') = get_agent other (agents e))
  /\ taskQueue e' = taskQueue e
  /\ taskOutputs e' = taskOutputs e
  /\ (forall again uuid8',
        md_id again = Some aid ->
        exists errors,
          registerAgent VALID_DOMAINS e' again uuid8' = Thrown errors
          /\ In DuplicateId errors).
Proof.
  intros H. unfold registerAgent in H.
  destruct (isValid (validateAgent VALID_DOMAINS metadata (agents e))) eqn:Hv;
    [|discriminate].
  apply isValid_nil, validateAgent_nil in Hv.
  destruct Hv as (_ & (labels & Hl & _ & _) & Hs & (endpoint & He & _) & _).
  simpl in H. injection H as <- <-.
  match goal with
  | |- context [set_agent ?x _] => set (a := x)
  end.
  assert (Hget : get_agent (registered_id metadata uuid8) (set_agent a (agents e)) = Some a)
    by apply (get_agent_set_same a).
  split; [reflexivity|]. split; [|split; [|split; [|split]]].
  - exists a. simpl. rewrite Hl, He. split; [exact Hget|].
    destruct (md_skillScores metadata); [auto|contradiction].
  - intros other Hne. simpl. now apply get_agent_set_other.
  - reflexivity.
  - reflexivity.
  - intros again uuid8' Hid. unfold registerAgent, validateAgent.
    rewrite (proj2 (truthy_iff _ _) (conj Hid (registered_id_nonempty metadata uuid8))).
    simpl agents. rewrite Hget. simpl. eexists. split; [reflexivity|]. now left.
Qed.

Lemma registerAgent_registers_witness :
  exists e',
    registerAgent DOMAINS (engine two_agents) (agent_md "late" "coding" 6) EmptyString
    = Returned (e', "late")
    /\ (exists a, get_agent "late" (agents e') = Some a /\ agent_status a = idle)
    /\ exists errors,
         registerAgent DOMAINS e' (agent_md "late" "logic" 2) EmptyString = Thrown errors
         /\ In DuplicateId errors.
Proof.
  destruct (registerAgent DOMAINS (engine two_agents) (agent_md "late" "coding" 6)
                          EmptyString) as [[e' aid]|] eqn:H;
    [|vm_compute in H; discriminate].
  destruct (registerAgent_registers DOMAINS (engine two_agents) e'
                                    (agent_md "late" "coding" 6) EmptyString aid H)
    as (Haid & (a & Ha & _ & Hidle & _) & _ & _ & _ & Hdup).
  assert (E : aid = "late") by (rewrite Haid; reflexivity).
  rewrite E in *. exists e'. split; [reflexivity|]. split.
  - exists a. auto.
  - apply Hdup. reflexivity.
Defined.

(** ** Ticks that change nothing *)

Lemma ticks_fixed (e : Engine) (uuid : nat -> string) (n : nat) :
  processQueue_begin e uuid = (e, None) -> ticks n uuid e = e.
Proof.
  intros H. unfold ticks. induction n as [|n IH]; simpl; [reflexivity|].
  rewrite IH, H. reflexivity.
Qed.

(** X12.  The scheduler looks at the first ready task only.  When every idle
    agent is among the agents that already failed that task (or no agent is
    idle), a tick changes nothing, and neither does any number of ticks:
    the ready tasks behind it are not dispatched. *)
Theorem no_candidate_stalls (e : Engine) (uuid : nat -> string) (n : nat) (t : Task) :
  nextTask e = Some t ->
  MetaReflection.availableAgents (agents e) (failedAgents t) = [] ->
  ticks n uuid e = e.
Proof.
  intros Hn Hav. apply ticks_fixed.
  unfold processQueue_begin, MetaReflection.evaluateAssignment.
  rewrite Hn, Hav. reflexivity.
Qed.

Lemma no_candidate_stalls_witness :
  (option_map id (nextTask (engine stalled_config)) = Some "task_H"
   /\ agent_status_of "only" (engine stalled_config) = Some idle
   /\ isReady (taskQueue (engine stalled_config)) (task_of "task_U" stalled_config) = true)
  /\ ticks 7 no_uuid (engine stalled_config) = engine stalled_config.
Proof.
  split; [repeat split; vm_compute; reflexivity|].
  destruct (nextTask (engine stalled_config)) as [t|] eqn:Hn;
    [|vm_compute in Hn; discriminate].
  apply (no_candidate_stalls (engine stalled_config) no_uuid 7 t Hn).
  vm_compute in Hn. injection Hn as <-. vm_compute. reflexivity.
Defined.

(** X13.  When the best prediction for the first ready task is below the
    threshold and the remediation is REROUTE (complexity at most 6 and
    fewer than two agents of the domain), a tick returns without
    dispatching and without recording anything, so every later tick finds
    the same state: the task is never dispatched while the agents stay as
    they are. *)
Theorem reroute_stalls (e : Engine) (uuid : nat -> string) (n : nat) (t : Task)
        (aid : string) (p : Q) :
  nextTask e = Some t ->
  MetaReflection.evaluateAssignment e t (failedAgents t) = (Some aid, p) ->
  p < threshold ->
  MetaReflection.suggestRemediation (agents e) t = MetaReflection.REROUTE ->
  ticks n uuid e = e.
Proof.
  intros Hn Hev Hp Hr. apply ticks_fixed.
  unfold processQueue_begin. rewrite Hn, Hev.
  destruct (truthy (Some aid)); [|reflexivity].
  assert (E : Qle_bool threshold p = false).
  { destruct (Qle_bool threshold p) eqn:E; [|reflexivity].
    apply Qle_bool_iff in E. lra. }
  rewrite E, Hr. reflexivity.
Qed.

Lemma reroute_stalls_witness :
  (option_map id (nextTask (engine reroute_config)) = Some "task_M"
   /\ agent_status_of "novice" (engine reroute_config) = Some idle)
  /\ ticks 7 no_uuid (engine reroute_config) = engine reroute_config.
Proof.
  split; [repeat split; vm_compute; reflexivity|].
  destruct (nextTask (engine reroute_config)) as [t|] eqn:Hn;
    [|vm_compute in Hn; discriminate].
  assert (Ht : t = task_of "task_M" reroute_config).
  { vm_compute in Hn. injection Hn as <-. vm_compute. reflexivity. }
  apply (reroute_stalls (engine reroute_config) no_uuid 7 t "novice" (3000 # 10000) Hn).
  - rewrite Ht. vm_compute. reflexivity.
  - reflexivity.
  - rewrite Ht. vm_compute. reflexivity.
Defined.

(** ** Splits issued by a tick *)

Lemma halves_bounded (c : Q) :
  6 < c -> c <= 10 ->
  3 <= inject_Z (Qfloor (c / 2)) <= 5 /\ 3 <= inject_Z (Qceiling (c / 2)) <= 5.
Proof.
  intros Hlo Hhi.
  assert (H3 : 3 < c / 2) by (apply Qlt_shift_div_l; lra).
  assert (H5 : c / 2 <= 5) by (apply Qle_shift_div_r; lra).
  set (h := c / 2) in *.
  pose proof (Qfloor_le h) as F1. pose proof (Qlt_floor h) as F2.
  pose proof (Qle_ceiling h) as C1. pose proof (Qceiling_lt h) as C2.
  assert (Hf : (3 <= Qfloor h)%Z).
  { assert (inject_Z 3 < inject_Z (Qfloor h + 1)) by (change (inject_Z 3) with 3; lra).
    rewrite <- Zlt_Qlt in H. lia. }
  assert (Hc : (Qceiling h <= 5)%Z).
  { assert (inject_Z (Qceiling h - 1) < inject_Z 5) by (change (inject_Z 5) with 5; lra).
    rewrite <- Zlt_Qlt in H. lia. }
  assert (Hfc : (Qfloor h <= Qceiling h)%Z).
  { rewrite Zle_Qle. lra. }
  assert (G1 : inject_Z 3 <= inject_Z (Qfloor h)) by (rewrite <- Zle_Qle; lia).
  assert (G2 : inject_Z (Qfloor h) <= inject_Z 5) by (rewrite <- Zle_Qle; lia).
  assert (G3 : inject_Z 3 <= inject_Z (Qceiling h)) by (rewrite <- Zle_Qle; lia).
  assert (G4 : inject_Z (Qceiling h) <= inject_Z 5) by (rewrite <- Zle_Qle; lia).
  change (inject_Z 3) with 3 in *. change (inject_Z 5) with 5 in *. auto.
Qed.

(** X14.  A tick that changes the engine without dispatching has split the
    first ready task, and that task has a complexity above 6.  If its
    complexity is at most 10, as validation ensures for submitted tasks,
    both children get a complexity between 3 and 5, so no child is split
    again. *)
Theorem tick_splits_only_complex (e e' : Engine) (uuid : nat -> string) :
  processQueue_begin e uuid = (e', None) ->
  e' <> e ->
  exists t,
    nextTask e = Some t
    /\ 6 < complexityScore t
    /\ handleTaskSplitting e t uuid = Some e'
    /\ (complexityScore t <= 10 ->
        forall spec, In spec (splitting_specs t) ->
          3 <= s_complexityScore spec <= 5
          /\ forall ags ags' parentId subtaskId,
               MetaReflection.suggestRemediation
                 ags (make_subtask ags' parentId subtaskId spec)
               <> MetaReflection.SPLIT).
Proof.
  unfold processQueue_begin. intros H Hne.
  destruct (nextTask e) as [t|]; [|injection H as <-; contradiction].
  destruct (MetaReflection.evaluateAssignment e t (failedAgents t)) as [agentId p].
  destruct (truthy agentId) as [aid|]; [|injection H as <-; contradiction].
  destruct (negb (Qle_bool threshold p)); [|discriminate].
  destruct (MetaReflection.suggestRemediation (agents e) t) eqn:Hs;
    [|discriminate|injection H as <-; contradiction].
  destruct (handleTaskSplitting e t uuid) as [e1|] eqn:Hsplit;
    [|injection H as <-; contradiction].
  injection H as <-.
  assert (Hc : 6 < complexityScore t).
  { unfold MetaReflection.suggestRemediation in Hs.
    destruct (Qle_bool (complexityScore t) 6) eqn:E; simpl in Hs.
    - destruct (1 <? _)%nat; discriminate.
    - apply Qnot_le_lt. intros Hle. apply Qle_bool_iff in Hle. congruence. }
  exists t. repeat split; auto.
  - destruct (halves_bounded (complexityScore t) Hc H) as [[F _] [C _]].
    destruct H0 as [<-|[<-|[]]];
      cbn [s_complexityScore first_half_spec second_half_spec]; auto.
  - destruct (halves_bounded (complexityScore t) Hc H) as [[_ F] [_ C]].
    destruct H0 as [<-|[<-|[]]];
      cbn [s_complexityScore first_half_spec second_half_spec]; auto.
  - intros ags ags' parentId subtaskId.
    destruct (halves_bounded (complexityScore t) Hc H) as [[_ F] [_ C]].
    unfold MetaReflection.suggestRemediation.
    assert (E : Qle_bool (complexityScore (make_subtask ags' parentId subtaskId spec)) 6
                = true).
    { apply Qle_bool_iff.
      destruct H0 as [<-|[<-|[]]];
        cbn [complexityScore make_subtask s_complexityScore
             first_half_spec second_half_spec]; lra. }
    rewrite E. simpl. destruct (1 <? _)%nat; discriminate.
Qed.

Lemma tick_splits_only_complex_witness :
  (exists e', processQueue_begin (engine split_submitted) (uuids "S1" "S2") = (e', None)
              /\ e' <> engine split_submitted)
  /\ exists t, nextTask (engine split_submitted) = Some t /\ 6 < complexityScore t.
Proof.
  destruct (processQueue_begin (engine split_submitted) (uuids "S1" "S2")) as [e' d] eqn:H.
  assert (Hd : d = None) by (vm_compute in H; now injection H).
  assert (Hne : e' <> engine split_submitted).
  { intros E. rewrite E in H. vm_compute in H. discriminate. }
  rewrite Hd in *.
  split; [exists e'; auto|].
  destruct (tick_splits_only_complex (engine split_submitted) e' (uuids "S1" "S2") H Hne)
    as (t & Ht & Hc & _).
  exists t. auto.
Defined.

(** ** Decomposition *)

Lemma find_task_app (tid : string) (q l : list Task) (t : Task) :
  find_task tid q = Some t -> find_task tid (q ++ l)%list = Some t.
Proof.
  unfold find_task. induction q as [|x q IH]; simpl; [discriminate|].
  destruct (String.eqb (id x) tid); auto.
Qed.

Lemma push_subtasks_queue (ags : list Agent) (parentId : string) (uuid : nat -> string)
      (specs : list SubtaskSpec) :
  forall (i : nat) (q : list Task) (pt : Task),
    find_task parentId q = Some pt ->
    push_subtasks ags parentId uuid i specs q
    = (update_task parentId
         (fun p => set_subtasks (subtasks p ++ subtask_ids uuid i (List.length specs)) p) q
       ++ new_subtasks ags parentId uuid i specs)%list.
Proof.
  induction specs as [|spec rest IH]; intros i q pt Hfind.
  - simpl. rewrite app_nil_r. unfold subtask_ids. simpl.
    rewrite <- (update_task_ext parentId (fun p => p)).
    + clear. induction q as [|x q IH]; simpl; [reflexivity|].
      destruct (String.eqb (id x) parentId); [reflexivity|]. now rewrite <- IH.
    + intros t. rewrite app_nil_r. now destruct t.
  - cbn [push_subtasks new_subtasks].
    set (sid := "subtask_" ++ uuid i).
    set (sub := make_subtask ags parentId sid spec).
    rewrite (update_task_app parentId _ q [sub] pt Hfind).
    set (f1 := fun p : Task => set_subtasks (subtasks p ++ [sid]) p).
    assert (Hfind' : find_task parentId (update_task parentId f1 q ++ [sub])%list
                     = Some (f1 pt)).
    { apply find_task_app.
      rewrite find_task_update_same by reflexivity. now rewrite Hfind. }
    rewrite (IH (S i) _ (f1 pt) Hfind').
    assert (Hfq : find_task parentId (update_task parentId f1 q) = Some (f1 pt)).
    { rewrite find_task_update_same by reflexivity. now rewrite Hfind. }
    rewrite (update_task_app parentId _ _ [sub] (f1 pt) Hfq).
    rewrite update_task_twice by reflexivity.
    rewrite <- app_assoc. simpl. f_equal.
    apply update_task_ext. intros t. unfold f1, set_subtasks. simpl.
    unfold subtask_ids. simpl. now rewrite <- app_assoc.
Qed.

Lemma new_subtasks_length (ags : list Agent) (parentId : string) (uuid : nat -> string)
      (specs : list SubtaskSpec) :
  forall i, List.length (new_subtasks ags parentId uuid i specs) = List.length specs.
Proof. induction specs as [|s l IH]; intros i; simpl; auto. Qed.

Lemma new_subtasks_nth (ags : list Agent) (parentId : string) (uuid : nat -> string)
      (specs : list SubtaskSpec) :
  forall i k spec,
    nth_error specs k = Some spec ->
    In (make_subtask ags parentId ("subtask_" ++ uuid (i + k)%nat) spec)
       (new_subtasks ags parentId uuid i specs).
Proof.
  induction specs as [|s l IH]; intros i k spec H.
  - destruct k; discriminate.
  - destruct k as [|k]; simpl in *.
    + injection H as <-. rewrite Nat.add_0_r. now left.
    + right. replace (i + S k)%nat with (S i + k)%nat by lia. now apply IH.
Qed.

(** X15.  [decomposeTask] on a queued parent, for any list of specs: the
    parent is set to waiting_for_subtasks and its sub-task list is extended
    by the new identifiers in the order of the specs; one pending sub-task
    per spec is queued with the spec's domain, complexity and priority, the
    parent as its parent and no attempt counted; every other queued task,
    the agents and the outputs are untouched. *)
Theorem decomposeTask_creates (e : Engine) (parentId : string) (specs : list SubtaskSpec)
        (uuid : nat -> string) (pt : Task) :
  find_task parentId (taskQueue e) = Some pt ->
  exists e' pt',
    decomposeTask e parentId specs uuid = Some e'
    /\ agents e' = agents e
    /\ taskOutputs e' = taskOutputs e
    /\ List.length (taskQueue e') = (List.length (taskQueue e) + List.length specs)%nat
    /\ In pt' (taskQueue e')
    /\ id pt' = parentId
    /\ status pt' = waiting_for_subtasks
    /\ subtasks pt'
       = (subtasks pt
          ++ map (fun k => ("subtask_" ++ uuid k)%string) (seq 0 (List.length specs)))%list
    /\ (forall k spec,
          nth_error specs k = Some spec ->
          exists c,
            In c (taskQueue e')
            /\ id c = "subtask_" ++ uuid k
            /\ status c = pending
            /\ parentTaskId c = Some parentId
            /\ domainLabel c = s_domainLabel spec
            /\ complexityScore c = s_complexityScore spec
            /\ priority c = s_priority spec
            /\ retryCount c = 0%nat /\ failedAgents c = [])
    /\ (forall t, In t (taskQueue e) -> id t <> parentId -> In t (taskQueue e')).
Proof.
  intros Hfind. unfold decomposeTask. rewrite Hfind.
  set (q1 := update_task parentId (set_status waiting_for_subtasks) (taskQueue e)).
  assert (Hq1 : find_task parentId q1 = Some (set_status waiting_for_subtasks pt)).
  { unfold q1. rewrite find_task_update_same by reflexivity. now rewrite Hfind. }
  rewrite (push_subtasks_queue (agents e) parentId uuid specs 0 q1 _ Hq1).
  set (f := fun p : Task =>
              set_subtasks (subtasks p ++ subtask_ids uuid 0 (List.length specs)) p).
  destruct (find_task_id _ _ _ Hfind) as [Hid Hin].
  eexists. exists (f (set_status waiting_for_subtasks pt)).
  split; [reflexivity|]. cbn [agents taskOutputs taskQueue with_taskQueue].
  split; [reflexivity|]. split; [reflexivity|].
  split; [|split; [|split; [|split; [|split; [|split]]]]].
  - unfold sort_queue. rewrite (Permutation_length (sort_perm _ _)).
    rewrite length_app, new_subtasks_length. unfold q1. now rewrite !update_task_length.
  - apply sort_queue_in, in_or_app. left. now apply update_task_in_image.
  - exact Hid.
  - reflexivity.
  - reflexivity.
  - intros k spec Hk.
    exists (make_subtask (agents e) parentId ("subtask_" ++ uuid k) spec).
    split; [|repeat split].
    apply sort_queue_in, in_or_app. right.
    apply (new_subtasks_nth (agents e) parentId uuid specs 0 k spec Hk).
  - intros t Ht Hne. apply sort_queue_in, in_or_app. left.
    assert (Ht1 : In t q1).
    { destruct (update_task_in parentId (set_status waiting_for_subtasks) _ t Ht)
        as [H|H]; [exact H|].
      destruct (find_task_id _ _ _ H). contradiction. }
    destruct (update_task_in parentId f _ t Ht1) as [H|H]; [exact H|].
    destruct (find_task_id _ _ _ H). contradiction.
Qed.

Lemma decomposeTask_creates_witness :
  find_task "task_A" (taskQueue (engine two_tasks)) = Some (task_of "task_A" two_tasks)
  /\ exists e' pt',
       decomposeTask (engine two_tasks) "task_A" three_specs numbered
       = Some e'
       /\ List.length (taskQueue e') = 5%nat
       /\ In pt' (taskQueue e')
       /\ subtasks pt' = ["subtask_0"; "subtask_1"; "subtask_2"].
Proof.
  assert (H : find_task "task_A" (taskQueue (engine two_tasks))
              = Some (task_of "task_A" two_tasks)) by (vm_compute; reflexivity).
  split; [exact H|].
  destruct (decomposeTask_creates (engine two_tasks) "task_A" three_specs
                                  numbered _ H)
    as (e' & pt' & Hd & _ & _ & Hlen & Hin & _ & _ & Hsub & _).
  exists e', pt'. auto.
Defined.

(** ** Aggregation waits for every sub-task *)

Lemma aggregate_waits (fuel : nat) (e : Engine) (parentId : string) (s : Task) :
  In s (taskQueue e) -> parentTaskId s = Some parentId -> status s <> completed ->
  checkAndAggregateParent fuel e parentId = e.
Proof.
  intros Hin Hpar Hst. destruct fuel as [|fuel]; [reflexivity|].
  cbn [checkAndAggregateParent].
  destruct (find_task parentId (taskQueue e)) as [pt|]; [|reflexivity].
  destruct (TaskStatus_eqb (status pt) completed); [reflexivity|].
  assert (Hs : In s (subtasks_of parentId (taskQueue e))).
  { apply filter_In. split; [exact Hin|]. rewrite Hpar. apply String.eqb_refl. }
  assert (Hall : forallb (fun s0 => TaskStatus_eqb (status s0) completed)
                         (subtasks_of parentId (taskQueue e)) = false).
  { destruct (forallb _ _) eqn:E; [|reflexivity].
    rewrite forallb_forall in E. apply E in Hs. apply TaskStatus_eqb_eq in Hs.
    contradiction. }
  rewrite Hall, andb_false_r. reflexivity.
Qed.

(** X16.  Storing the result of a sub-task while a sibling (another queued
    task naming the same parent) is not completed only completes that
    sub-task: the parent and every other task stay as they are, and no
    record is stored for the parent. *)
Theorem logOutput_waits_for_siblings (e : Engine) (taskId agentId parentId : string)
        (output : DispatchResult) (t sibling : Task) :
  find_task taskId (taskQueue e) = Some t ->
  truthy (parentTaskId t) = Some parentId ->
  parentId <> taskId ->
  In sibling (taskQueue e) ->
  id sibling <> taskId ->
  parentTaskId sibling = Some parentId ->
  status sibling <> completed ->
  let e' := logOutput e taskId agentId output in
  taskQueue e' = update_task taskId (set_status completed) (taskQueue e)
  /\ find_task parentId (taskQueue e') = find_task parentId (taskQueue e)
  /\ obj_get parentId (taskOutputs e') = obj_get parentId (taskOutputs e).
Proof.
  intros Hfind Hpar Hne Hsib Hsid Hsp Hst e'.
  assert (He' : e' = commit_output e taskId agentId output).
  { unfold e', logOutput, logOutput_with.
    rewrite (parent_to_notify_found e taskId parentId t Hfind Hpar).
    apply aggregate_waits with sibling; auto.
    rewrite commit_output_queue.
    destruct (update_task_in taskId (set_status completed) _ sibling Hsib) as [H|H];
      [exact H|].
    destruct (find_task_id _ _ _ H). contradiction. }
  rewrite He', commit_output_queue, commit_output_outputs.
  split; [reflexivity|]. split.
  - now apply find_task_update_other.
  - now apply obj_get_set_other.
Qed.

Lemma logOutput_waits_for_siblings_witness :
  (find_task "subtask_S1" (taskQueue (engine split_config))
   = Some (task_of "subtask_S1" split_config)
   /\ truthy (parentTaskId (task_of "subtask_S1" split_config)) = Some "task_P"
   /\ In (task_of "subtask_S2" split_config) (taskQueue (engine split_config))
   /\ status (task_of "subtask_S2" split_config) <> completed)
  /\ status_of "task_P" (logOutput (engine split_config) "subtask_S1" "junior-1"
                                   (result "first half" 0.9 6 100))
     = Some waiting_for_subtasks.
Proof.
  assert (H1 : find_task "subtask_S1" (taskQueue (engine split_config))
               = Some (task_of "subtask_S1" split_config)) by (vm_compute; reflexivity).
  assert (H2 : truthy (parentTaskId (task_of "subtask_S1" split_config)) = Some "task_P")
    by (vm_compute; reflexivity).
  assert (H3 : "task_P" <> "subtask_S1") by discriminate.
  assert (H4 : In (task_of "subtask_S2" split_config) (taskQueue (engine split_config))).
  { assert (H : find_task "subtask_S2" (taskQueue (engine split_config))
                = Some (task_of "subtask_S2" split_config)) by (vm_compute; reflexivity).
    apply (find_task_id _ _ _ H). }
  assert (H5 : id (task_of "subtask_S2" split_config) <> "subtask_S1")
    by (vm_compute; discriminate).
  assert (H6 : parentTaskId (task_of "subtask_S2" split_config) = Some "task_P")
    by (vm_compute; reflexivity).
  assert (H7 : status (task_of "subtask_S2" split_config) <> completed)
    by (vm_compute; discriminate).
  split; [repeat first [assumption | split]|].
  destruct (logOutput_waits_for_siblings (engine split_config) "subtask_S1" "junior-1"
              "task_P" (result "first half" 0.9 6 100) _ _ H1 H2 H3 H4 H5 H6 H7)
    as (_ & Hp & _).
  unfold status_of. rewrite Hp. vm_compute. reflexivity.
Defined.

(** ** The agent of a dispatch is released *)

Lemma status_update_agent (ags : list Agent) (aid x : string) (f : Agent -> Agent) :
  (forall a, agent_id (f a) = agent_id a) ->
  option_map agent_status (get_agent x (update_agent aid f ags))
  = if String.eqb x aid
    then option_map (fun a => agent_status (f a)) (get_agent x ags)
    else option_map agent_status (get_agent x ags).
Proof.
  intros Hf. destruct (String.eqb x aid) eqn:E.
  - apply String.eqb_eq in E. subst x. rewrite get_agent_update_same by exact Hf.
    now destruct (get_agent aid ags).
  - apply String.eqb_neq in E. now rewrite get_agent_update_other.
Qed.

Lemma status_updateAgentPerformance (ags : list Agent) (aid domain x : string)
      (success : bool) (impact : Q) :
  option_map agent_status
             (get_agent x (updateAgentPerformance ags aid success impact domain))
  = option_map agent_status (get_agent x ags).
Proof.
  unfold updateAgentPerformance, MetaReflection.updateAgentMetadata.
  destruct (String.eqb domain EmptyString).
  - rewrite status_update_agent by reflexivity.
    destruct (String.eqb x aid); [|reflexivity]. now destruct (get_agent x ags).
  - rewrite status_update_agent by reflexivity.
    destruct (String.eqb x aid) eqn:E.
    + apply String.eqb_eq in E. subst x. rewrite get_agent_update_same by reflexivity.
      now destruct (get_agent aid ags).
    + rewrite status_update_agent by reflexivity. now rewrite E.
Qed.

Lemma release_idle (ags : list Agent) (aid x : string) :
  (x = aid /\ get_agent aid ags <> None)
  \/ option_map agent_status (get_agent x ags) = Some idle ->
  option_map agent_status (get_agent x (update_agent aid (set_agent_status idle) ags))
  = Some idle.
Proof.
  intros H. rewrite status_update_agent by reflexivity.
  destruct (String.eqb x aid) eqn:E.
  - apply String.eqb_eq in E. subst x.
    destruct (get_agent aid ags); simpl in *; [reflexivity|].
    destruct H as [[_ H]|H]; [contradiction|discriminate].
  - destruct H as [[H _]|H]; [|exact H].
    apply String.eqb_neq in E. contradiction.
Qed.

Lemma commit_output_keeps_idle (e : Engine) (tid aid x : string) (out : DispatchResult) :
  agent_status_of x e = Some idle ->
  agent_status_of x (commit_output e tid aid out) = Some idle.
Proof.
  unfold agent_status_of, commit_output. intros H.
  destruct (find_task tid (taskQueue e)); [|exact H].
  cbn [agents with_taskQueue with_taskOutputs].
  destruct (get_agent aid (agents e)); [|exact H].
  cbn [agents with_agents]. rewrite status_updateAgentPerformance.
  apply release_idle. now right.
Qed.

Lemma commit_output_releases (e : Engine) (tid aid : string) (out : DispatchResult)
      (t : Task) (a : Agent) :
  find_task tid (taskQueue e) = Some t ->
  get_agent aid (agents e) = Some a ->
  agent_status_of aid (commit_output e tid aid out) = Some idle.
Proof.
  unfold agent_status_of, commit_output. intros Ht Ha. rewrite Ht.
  cbn [agents with_taskQueue with_taskOutputs]. rewrite Ha.
  cbn [agents with_agents]. rewrite status_updateAgentPerformance.
  apply release_idle. left. split; [reflexivity|congruence].
Qed.

Lemma aggregate_keeps_idle (fuel : nat) :
  forall (e : Engine) (p x : string),
    agent_status_of x e = Some idle ->
    agent_status_of x (checkAndAggregateParent fuel e p) = Some idle.
Proof.
  induction fuel as [|fuel IH]; intros e p x H; [exact H|].
  cbn [checkAndAggregateParent].
  destruct (find_task p (taskQueue e)); [|exact H].
  destruct (TaskStatus_eqb _ completed); [exact H|].
  destruct (_ && _); [|exact H].
  unfold logOutput_with.
  destruct (parent_to_notify e p).
  - apply IH. now apply commit_output_keeps_idle.
  - now apply commit_output_keeps_idle.
Qed.

Lemma handleTaskFailure_releases (e : Engine) (task : Task) (aid : string) (a : Agent) :
  get_agent aid (agents e) = Some a ->
  agent_status_of aid (handleTaskFailure e task aid) = Some idle.
Proof.
  intros Ha. unfold agent_status_of, handleTaskFailure. rewrite Ha.
  cbn [agents with_taskQueue with_agents]. rewrite status_updateAgentPerformance.
  apply release_idle. left. split; [reflexivity|congruence].
Qed.

(** X17.  However a dispatch ends (rejection, a null result, a result of low
    confidence or one that is committed, with or without the aggregation of
    parents that follows), the agent it was sent to is idle afterwards. *)
Theorem resume_releases_agent (e : Engine) (task : Task) (agentId : string)
        (outcome : DispatchOutcome) (a : Agent) :
  get_agent agentId (agents e) = Some a ->
  agent_status_of agentId (processQueue_resume e task agentId outcome) = Some idle.
Proof.
  intros Ha. unfold processQueue_resume.
  destruct outcome as [| |result].
  - now apply handleTaskFailure_releases with a.
  - now apply handleTaskFailure_releases with a.
  - destruct (JS.lt (r_confidenceScore result) CONFIDENCE_THRESHOLD).
    + unfold agent_status_of, handleTaskReassignment. rewrite Ha.
      cbn [agents with_taskQueue with_agents].
      apply release_idle. left. split; [reflexivity|congruence].
    + destruct (find_task (id task) (taskQueue e)) as [t|] eqn:Ht.
      * unfold logOutput, logOutput_with.
        pose proof (commit_output_releases e (id task) agentId result t a Ht Ha) as H.
        destruct (parent_to_notify e (id task)); [|exact H].
        now apply aggregate_keeps_idle.
      * assert (Hc : agents (commit_output e (id task) agentId result) = agents e).
        { unfold commit_output. now rewrite Ht. }
        apply handleTaskFailure_releases with a. now rewrite Hc.
Qed.

Lemma resume_releases_agent_witness :
  agent_status_of "solo" (engine low_confidence_dispatched) = Some busy
  /\ agent_status_of "solo"
       (processQueue_resume (engine low_confidence_dispatched) unsure_task "solo"
                            ResolvedNullish) = Some idle.
Proof.
  split; [vm_compute; reflexivity|].
  destruct (get_agent "solo" (agents (engine low_confidence_dispatched))) as [a|] eqn:Ha;
    [|vm_compute in Ha; discriminate].
  exact (resume_releases_agent (engine low_confidence_dispatched) unsure_task "solo"
                               ResolvedNullish a Ha).
Defined.

(** ** The retry bookkeeping along a run *)

Lemma Acct_perm (q q' : list Task) (fl : list Dispatch) :
  Permutation q q' -> Acct q fl -> Acct q' fl.
Proof.
  intros Hp [H1 H2 H3 H4]. constructor.
  - apply (Permutation_NoDup (Permutation_map id Hp) H1).
  - exact H2.
  - intros t Ht. apply H3. apply (Permutation_in _ (Permutation_sym Hp) Ht).
  - intros tid aid Hin. destruct (H4 tid aid Hin) as (t & Ht & Hrest).
    exists t. split; [apply (Permutation_in _ Hp Ht)|exact Hrest].
Qed.

Lemma Acct_add (q : list Task) (fl : list Dispatch) (x : Task) :
  Acct q fl -> ~ In (id x) (map id q) -> accounted x -> Acct (q ++ [x]) fl.
Proof.
  intros [H1 H2 H3 H4] Hfresh Hx. constructor.
  - rewrite map_app. simpl. now apply nodup_snoc.
  - exact H2.
  - intros t Ht. apply in_app_or in Ht. destruct Ht as [Ht|[<-|[]]]; auto.
  - intros tid aid Hin. destruct (H4 tid aid Hin) as (t & Ht & Hrest).
    exists t. split; [apply in_or_app; now left|exact Hrest].
Qed.

Lemma Acct_update (q : list Task) (fl fl' : list Dispatch) (tid : string)
      (f : Task -> Task) :
  Acct q fl ->
  (forall t, id (f t) = id t) ->
  NoDup (map fst fl') ->
  (forall tid' aid, In (tid', aid) fl' -> tid' <> tid -> In (tid', aid) fl) ->
  (forall aid, In (tid, aid) fl' -> exists t, In t q /\ id t = tid) ->
  (forall t, In t q -> id t = tid ->
             accounted (f t)
             /\ (forall aid, In (tid, aid) fl' ->
                             (retryCount (f t) < 3)%nat
                             /\ (status (f t) = processing \/ status (f t) = completed))) ->
  Acct (update_task tid f q) fl'.
Proof.
  intros [H1 H2 H3 H4] Hf Hnd Hold Hnew Hgood. constructor.
  - now rewrite update_task_ids.
  - exact Hnd.
  - intros x Hx. apply (in_update_task_nodup tid f q x H1 Hf) in Hx.
    destruct Hx as [[Hx _]|(t & Ht & Hid & ->)]; [now apply H3|].
    exact (proj1 (Hgood t Ht Hid)).
  - intros tid' aid Hin. destruct (string_dec tid' tid) as [->|Hne].
    + destruct (Hnew aid Hin) as (t & Ht & Hid).
      exists (f t). split; [|split; [now rewrite Hf|]].
      * apply (in_update_task_nodup tid f q (f t) H1 Hf). right. now exists t.
      * exact (proj2 (Hgood t Ht Hid) aid Hin).
    + destruct (H4 tid' aid (Hold tid' aid Hin Hne)) as (t & Ht & Hid & Hrest).
      exists t. split; [|now split].
      apply (in_update_task_nodup tid f q t H1 Hf). left. split; [exact Ht|congruence].
Qed.

(** A mutation that touches neither the status nor the retry bookkeeping,
    or that completes the task. *)
Lemma Acct_update_quiet (q : list Task) (fl : list Dispatch) (tid : string)
      (f : Task -> Task) :
  Acct q fl ->
  (forall t, id (f t) = id t) ->
  (forall t, retryCount (f t) = retryCount t /\ failedAgents (f t) = failedAgents t
             /\ (status (f t) = status t \/ status (f t) = completed)) ->
  Acct (update_task tid f q) fl.
Proof.
  intros HA Hf Hq. apply (Acct_update q fl fl tid f HA Hf (acct_flight_ids _ _ HA)).
  - auto.
  - intros aid Hin. destruct (acct_flight _ _ HA tid aid Hin) as (t & Ht & Hid & _).
    now exists t.
  - intros t Ht Hid. destruct (Hq t) as (Hr & Hfa & Hst).
    destruct (acct_tasks _ _ HA t Ht) as (A1 & A2 & A3 & A4).
    split.
    + unfold accounted. rewrite Hr, Hfa.
      destruct Hst as [-> | ->]; repeat split; auto; try discriminate.
      intros [H|H]; discriminate.
    + intros aid Hin. destruct (acct_flight _ _ HA tid aid Hin) as (t' & Ht' & Hid' & Hc & Hs).
      assert (t' = t) by (apply (nodup_same_id q); auto;
                          [apply (acct_ids _ _ HA)|congruence]).
      subst t'. rewrite Hr. split; [exact Hc|].
      destruct Hst as [-> | ->]; auto.
Qed.

Lemma not_in_flight (q : list Task) (fl : list Dispatch) (t : Task) (aid : string) :
  Acct q fl -> In t q -> status t <> processing -> status t <> completed ->
  ~ In (id t, aid) fl.
Proof.
  intros HA Ht H1 H2 Hin.
  destruct (acct_flight _ _ HA _ _ Hin) as (t' & Ht' & Hid & _ & Hs).
  assert (t' = t) by (apply (nodup_same_id q); auto; apply (acct_ids _ _ HA)).
  subst t'. destruct Hs; contradiction.
Qed.

Lemma Acct_dispatch (q : list Task) (fl : list Dispatch) (t : Task) (aid : string)
      (f : Task -> Task) :
  Acct q fl -> In t q -> status t = pending ->
  (forall x, id (f x) = id x) ->
  (forall x, retryCount (f x) = retryCount x /\ failedAgents (f x) = failedAgents x
             /\ status (f x) = processing) ->
  Acct (update_task (id t) f q) (fl ++ [(id t, aid)]).
Proof.
  intros HA Ht Hs Hf Hfx.
  assert (Hnf : ~ In (id t) (map fst fl)).
  { intros Hin. apply in_map_iff in Hin. destruct Hin as ([tid' aid'] & Heq & Hin).
    simpl in Heq. subst tid'.
    apply (not_in_flight q fl t aid' HA Ht); auto; rewrite Hs; discriminate. }
  apply (Acct_update q fl _ (id t) f HA Hf).
  - rewrite map_app. simpl. apply nodup_snoc; [apply (acct_flight_ids _ _ HA)|exact Hnf].
  - intros tid' aid' Hin Hne. apply in_app_or in Hin.
    destruct Hin as [Hin|[[= <- <-]|[]]]; [exact Hin|contradiction].
  - intros aid' _. now exists t.
  - intros x Hx Hid.
    assert (x = t) by (apply (nodup_same_id q); auto; apply (acct_ids _ _ HA)).
    subst x. destruct (Hfx t) as (Hr & Hfa & Hst).
    destruct (acct_tasks _ _ HA t Ht) as (A1 & A2 & A3 & A4).
    assert (Hlt : (retryCount t < 3)%nat) by (apply A3; now left).
    split.
    + unfold accounted. rewrite Hr, Hfa, Hst.
      repeat split; auto; discriminate.
    + intros _ _. rewrite Hr, Hst. auto.
Qed.

Lemma retry_or_fail_accounted (aid : string) (t : Task) :
  retryCount t = List.length (failedAgents t) -> (retryCount t < 3)%nat ->
  accounted (retry_or_fail aid t).
Proof.
  intros Hc Hlt.
  destruct (retry_or_fail_fields aid t) as (_ & Hf & Hr & Hp & Hx).
  unfold accounted. rewrite Hf, Hr, length_app. simpl.
  split; [lia|]. split; [lia|]. split.
  - intros Hs. destruct (Nat.lt_ge_cases (S (retryCount t)) 3) as [H|H]; [exact H|].
    rewrite (Hx H) in Hs. destruct Hs; discriminate.
  - intros Hs. destruct (Nat.lt_ge_cases (S (retryCount t)) 3) as [H|H]; [|lia].
    destruct (Hp H) as [Hs' _]. rewrite Hs' in Hs. discriminate.
Qed.

Lemma Acct_retry (q : list Task) (fl : list Dispatch) (tid aid : string) :
  Acct q fl -> In (tid, aid) fl ->
  Acct (update_task tid (retry_or_fail aid) q) (remove_dispatch (tid, aid) fl).
Proof.
  intros HA Hin.
  pose proof (acct_flight_ids _ _ HA) as Hnd.
  assert (Hgone : forall aid', ~ In (tid, aid') (remove_dispatch (tid, aid) fl)).
  { intros aid' H. apply (in_remove_dispatch _ _ _ Hnd) in H. destruct H as [H Hne].
    apply Hne. f_equal. apply (nodup_fst_unique fl tid aid' aid Hnd H Hin). }
  apply (Acct_update q fl _ tid (retry_or_fail aid) HA (retry_or_fail_id aid)).
  - now apply remove_dispatch_incl.
  - intros tid' aid' H _. now apply (in_remove_dispatch _ _ _ Hnd) in H.
  - intros aid' H. now apply Hgone in H.
  - intros t Ht Hid. split; [|intros aid' H; now apply Hgone in H].
    destruct (acct_flight _ _ HA tid aid Hin) as (t' & Ht' & Hid' & Hc & _).
    assert (t' = t) by (apply (nodup_same_id q); auto;
                        [apply (acct_ids _ _ HA)|congruence]).
    subst t'. apply retry_or_fail_accounted; [|exact Hc].
    apply (acct_tasks _ _ HA t Ht).
Qed.

Lemma Acct_complete (q : list Task) (fl : list Dispatch) (tid : string) :
  Acct q fl -> Acct (update_task tid (set_status completed) q) fl.
Proof.
  intros HA. apply Acct_update_quiet; auto.
Qed.

Lemma Acct_drop (q : list Task) (fl : list Dispatch) (d : Dispatch) :
  Acct q fl -> Acct q (remove_dispatch d fl).
Proof.
  intros [H1 H2 H3 H4]. constructor; auto.
  - now apply remove_dispatch_incl.
  - intros tid aid Hin. apply (in_remove_dispatch _ _ _ H2) in Hin.
    exact (H4 tid aid (proj1 Hin)).
Qed.

Lemma Acct_aggregate (fuel : nat) :
  forall (e : Engine) (p : string) (fl : list Dispatch),
    Acct (taskQueue e) fl -> Acct (taskQueue (checkAndAggregateParent fuel e p)) fl.
Proof.
  induction fuel as [|fuel IH]; intros e p fl HA; [exact HA|].
  cbn [checkAndAggregateParent].
  destruct (find_task p (taskQueue e)); [|exact HA].
  destruct (TaskStatus_eqb _ completed); [exact HA|].
  destruct (_ && _); [|exact HA].
  unfold logOutput_with.
  assert (H1 : Acct (taskQueue (commit_output e p AGGREGATOR_SYSTEM
                                  (agg_result
                                     (aggregatedResult
                                        (subtaskResults_of e (subtasks_of p (taskQueue e)))
                                        (obj_get p (collaborationSpace e)))))) fl).
  { rewrite commit_output_queue. now apply Acct_complete. }
  destruct (parent_to_notify e p); [|exact H1].
  now apply IH.
Qed.

Lemma Acct_resume (e : Engine) (fl : list Dispatch) (task : Task) (aid : string)
      (outcome : DispatchOutcome) :
  Acct (taskQueue e) fl -> In (id task, aid) fl ->
  find_task (id task) (taskQueue e) = Some task ->
  Acct (taskQueue (processQueue_resume e task aid outcome))
       (remove_dispatch (id task, aid) fl).
Proof.
  intros HA Hin Hfind. unfold processQueue_resume.
  assert (Hfail : Acct (taskQueue (handleTaskFailure e task aid))
                       (remove_dispatch (id task, aid) fl)).
  { unfold handleTaskFailure. cbn [taskQueue with_taskQueue]. now apply Acct_retry. }
  destruct outcome as [| |result]; auto.
  destruct (JS.lt _ _).
  - unfold handleTaskReassignment. cbn [taskQueue with_taskQueue]. now apply Acct_retry.
  - rewrite Hfind. unfold logOutput, logOutput_with.
    assert (H1 : Acct (taskQueue (commit_output e (id task) aid result))
                      (remove_dispatch (id task, aid) fl)).
    { rewrite commit_output_queue. apply Acct_drop. now apply Acct_complete. }
    destruct (parent_to_notify e (id task)); [|exact H1].
    now apply Acct_aggregate.
Qed.

Lemma accounted_new (t : Task) :
  retryCount t = 0%nat -> failedAgents t = [] -> status t = pending -> accounted t.
Proof.
  intros Hr Hf Hs. unfold accounted. rewrite Hr, Hf, Hs. simpl.
  repeat split; auto; try lia. discriminate.
Qed.

Lemma Acct_split (e e' : Engine) (fl : list Dispatch) (t : Task) (uuid : nat -> string) :
  Acct (taskQueue e) fl ->
  In t (taskQueue e) -> status t = pending ->
  fresh_split_ids e uuid = true ->
  handleTaskSplitting e t uuid = Some e' ->
  Acct (taskQueue e') fl.
Proof.
  intros HA Ht Hs Hfresh Hsplit.
  assert (Hf : find_task (id t) (taskQueue e) = Some t).
  { apply find_task_nodup; [apply (acct_ids _ _ HA)|exact Ht]. }
  rewrite (handleTaskSplitting_queue e t uuid Hf) in Hsplit.
  injection Hsplit as <-. cbn [taskQueue with_taskQueue].
  unfold fresh_split_ids in Hfresh.
  apply andb_true_iff in Hfresh. destruct Hfresh as [Hfresh Hdiff].
  apply andb_true_iff in Hfresh. destruct Hfresh as [Hf1 Hf2].
  apply negb_true_iff in Hf1, Hf2, Hdiff.
  apply not_queued in Hf1, Hf2. apply String.eqb_neq in Hdiff.
  set (i1 := "subtask_" ++ uuid 0%nat) in *.
  set (i2 := "subtask_" ++ uuid 1%nat) in *.
  set (q1 := update_task (id t) (split_parent i1 i2) (taskQueue e)).
  assert (Hids : map id q1 = map id (taskQueue e)).
  { unfold q1. now apply update_task_ids. }
  assert (HA1 : Acct q1 fl).
  { unfold q1. apply (Acct_update _ fl fl (id t) _ HA); auto.
    - apply (acct_flight_ids _ _ HA).
    - intros aid _. now exists t.
    - intros x Hx Hid.
      assert (x = t) by (apply (nodup_same_id (taskQueue e)); auto;
                         apply (acct_ids _ _ HA)).
      subst x. destruct (acct_tasks _ _ HA t Ht) as (A1 & A2 & A3 & A4).
      split.
      + unfold accounted. simpl. split; [exact A1|]. split; [exact A2|].
        split; [intros [H|H]; discriminate|discriminate].
      + intros aid Hin. exfalso.
        apply (not_in_flight _ fl t aid HA Ht); auto; rewrite Hs; discriminate. }
  apply (Acct_perm ((q1 ++ [make_subtask (agents e) (id t) i1 (first_half_spec t)])
                      ++ [make_subtask (agents e) (id t) i2 (second_half_spec t)])%list).
  { rewrite <- app_assoc. symmetry. apply sort_perm. }
  apply Acct_add.
  - apply Acct_add; auto.
    + simpl. now rewrite Hids.
    + now apply accounted_new.
  - rewrite map_app, Hids. simpl. intro Hin. apply in_app_or in Hin.
    destruct Hin as [Hin|[Hin|[]]]; [contradiction|].
    apply Hdiff. unfold i1, i2 in Hin. now apply append_inj in Hin.
  - now apply accounted_new.
Qed.

Lemma Acct_tick (e e' : Engine) (fl : list Dispatch) (uuid : nat -> string)
      (d : option Dispatch) :
  Acct (taskQueue e) fl ->
  fresh_split_ids e uuid = true ->
  processQueue_begin e uuid = (e', d) ->
  Acct (taskQueue e')
       (match d with
        | Some x => fl ++ [x]
        | None => fl
        end).
Proof.
  intros HA Hfresh Hpq. destruct d as [[tid aid]|].
  - apply processQueue_begin_dispatch in Hpq.
    destruct Hpq as (t & p & e0 & Hn & -> & _ & _ & He0 & ->).
    apply nextTask_ready in Hn. destruct Hn as [Ht Hr].
    apply isReady_pending in Hr. destruct Hr as [Hs _].
    unfold start_dispatch. cbn [fst taskQueue with_taskQueue with_agents].
    destruct He0 as [-> | ->].
    + apply Acct_dispatch; auto.
    + unfold handleTaskCollaboration. cbn [taskQueue with_taskQueue].
      rewrite update_task_twice by reflexivity.
      apply Acct_dispatch; auto.
  - apply processQueue_begin_idle in Hpq.
    destruct Hpq as [-> | (t & Hn & Hsplit)]; [exact HA|].
    apply nextTask_ready in Hn. destruct Hn as [Ht Hr].
    apply isReady_pending in Hr. destruct Hr as [Hs _].
    now apply (Acct_split e e' fl t uuid).
Qed.

Lemma Acct_apply_op (VALID_DOMAINS : list string) (c c' : Config) (op : Op) :
  Acct (taskQueue (engine c)) (inflight c) ->
  apply_op VALID_DOMAINS c op = Some c' ->
  Acct (taskQueue (engine c')) (inflight c').
Proof.
  intros HA Hop.
  destruct op as [metadata uuid8|taskData uuid|uuid|tid aid outcome];
    cbn [apply_op] in Hop.
  - destruct (registerAgent _ _ _ _) as [[e' aid]|errs] eqn:Hreg;
      [|injection Hop as <-; exact HA].
    destruct (get_agent _ _); [discriminate|].
    injection Hop as <-. cbn [engine inflight].
    unfold registerAgent in Hreg.
    destruct (negb (isValid _)); [discriminate|].
    injection Hreg as <- _. exact HA.
  - destruct (submitTask _ _ _ _) as [[e' tid]|errs] eqn:Hsub;
      [|injection Hop as <-; exact HA].
    destruct (queued _ _) eqn:Hq; [discriminate|].
    injection Hop as <-. cbn [engine inflight].
    unfold submitTask in Hsub.
    destruct (negb (isValid _)); [discriminate|].
    injection Hsub as <- _. cbn [taskQueue with_taskQueue].
    eapply Acct_perm; [symmetry; apply sort_perm|].
    apply Acct_add; auto.
    + simpl. now apply not_queued.
    + now apply accounted_new.
  - destruct (fresh_split_ids _ _) eqn:Hfresh; [|discriminate].
    destruct (processQueue_begin _ _) as [e' d] eqn:Hpq.
    injection Hop as <-. cbn [engine inflight].
    eapply Acct_tick; eauto.
  - destruct (existsb _ _) eqn:Hex; [|discriminate].
    destruct (find_task _ _) as [task|] eqn:Hf; [|discriminate].
    injection Hop as <-. cbn [engine inflight].
    apply existsb_exists in Hex. destruct Hex as (d & Hd & Heq).
    apply dispatch_eqb_eq in Heq. subst d.
    destruct (find_task_id _ _ _ Hf) as [<- _].
    now apply Acct_resume.
Qed.

Lemma Acct_run (VALID_DOMAINS : list string) (ops : list Op) :
  forall c c',
    Acct (taskQueue (engine c)) (inflight c) ->
    run VALID_DOMAINS c ops = Some c' ->
    Acct (taskQueue (engine c')) (inflight c').
Proof.
  induction ops as [|op ops IH]; intros c c' HA Hrun; simpl in Hrun.
  - now injection Hrun as <-.
  - destruct (apply_op VALID_DOMAINS c op) as [c1|] eqn:E; [|discriminate].
    apply (IH c1 c'); auto. eapply Acct_apply_op; eauto.
Qed.

Lemma Acct_initial : Acct (taskQueue (engine initial)) (inflight initial).
Proof.
  constructor; simpl; try apply NoDup_nil; try (intros; contradiction).
Qed.

(** X18.  In every configuration reached from the empty engine by
    registrations, submissions, ticks and returns of dispatches, in any
    interleaving and with any outcomes, every queued task has as many
    retries counted as agents remembered in failedAgents, at most three; a
    pending or processing task has fewer than three, and a failed task
    exactly three. *)
Theorem retry_accounting (VALID_DOMAINS : list string) (ops : list Op) (c : Config) :
  run VALID_DOMAINS initial ops = Some c ->
  forall t, In t (taskQueue (engine c)) ->
    retryCount t = List.length (failedAgents t)
    /\ (retryCount t <= 3)%nat
    /\ (status t = pending \/ status t = processing -> (retryCount t < 3)%nat)
    /\ (status t = failed -> retryCount t = 3%nat).
Proof.
  intros Hrun t Ht.
  apply (acct_tasks _ _ (Acct_run VALID_DOMAINS ops initial c Acct_initial Hrun) t Ht).
Qed.

Lemma retry_accounting_witness :
  run DOMAINS initial exhaust_ops = Some exhausted
  /\ status (task_of "task_T" exhausted) = failed
  /\ retryCount (task_of "task_T" exhausted) = 3%nat.
Proof.
  assert (Hrun : run DOMAINS initial exhaust_ops = Some exhausted)
    by (vm_compute; reflexivity).
  assert (Hst : status (task_of "task_T" exhausted) = failed) by (vm_compute; reflexivity).
  assert (Hin : In (task_of "task_T" exhausted) (taskQueue (engine exhausted))).
  { assert (H : find_task "task_T" (taskQueue (engine exhausted))
                = Some (task_of "task_T" exhausted)) by (vm_compute; reflexivity).
    apply (find_task_id _ _ _ H). }
  split; [exact Hrun|]. split; [exact Hst|].
  apply (retry_accounting DOMAINS exhaust_ops exhausted Hrun _ Hin). exact Hst.
Defined.

(** ** Finished tasks are left alone *)

Lemma keep_other (tid : string) (f : Task -> Task) (q : list Task) (t : Task) :
  In t q -> id t <> tid -> In t (update_task tid f q).
Proof.
  intros Ht Hne. destruct (update_task_in tid f q t Ht) as [H|H]; [exact H|].
  destruct (find_task_id _ _ _ H). contradiction.
Qed.

Lemma terminal_other (q : list Task) (t x : Task) :
  NoDup (map id q) -> In t q -> In x q -> terminal x -> ~ terminal t -> id x <> id t.
Proof.
  intros Hnd Ht Hx Hterm Hopen Heq.
  assert (x = t) by (apply (nodup_same_id q); auto). subst x. contradiction.
Qed.

Lemma processQueue_begin_outputs (e e' : Engine) (uuid : nat -> string)
      (d : option Dispatch) :
  processQueue_begin e uuid = (e', d) -> taskOutputs e' = taskOutputs e.
Proof.
  intros H. destruct d as [[tid aid]|].
  - apply processQueue_begin_dispatch in H.
    destruct H as (t & p & e0 & _ & _ & _ & _ & [-> | ->] & ->); reflexivity.
  - apply processQueue_begin_idle in H.
    destruct H as [-> | (t & _ & H)]; [reflexivity|].
    unfold handleTaskSplitting, decomposeTask in H.
    destruct (find_task (id t) (taskQueue e)); [|discriminate].
    now injection H as <-.
Qed.

Lemma terminal_aggregate (fuel : nat) :
  forall (e : Engine) (p : string) (fl : list Dispatch) (x : Task),
    Inv (taskQueue e) (agents e) fl ->
    In x (taskQueue e) -> terminal x ->
    In x (taskQueue (checkAndAggregateParent fuel e p))
    /\ obj_get (id x) (taskOutputs (checkAndAggregateParent fuel e p))
       = obj_get (id x) (taskOutputs e).
Proof.
  induction fuel as [|fuel IH]; intros e p fl x HI Hx Hterm; [auto|].
  cbn [checkAndAggregateParent].
  destruct (find_task p (taskQueue e)) as [pt|] eqn:Hp; [|auto].
  destruct (TaskStatus_eqb (status pt) completed) eqn:Hs; [auto|].
  destruct ((0 <? List.length (subtasks_of p (taskQueue e)))%nat
            && forallb (fun s => TaskStatus_eqb (status s) completed)
                       (subtasks_of p (taskQueue e))) eqn:Hall; [|auto].
  apply andb_true_iff in Hall. destruct Hall as [Hlen _].
  destruct (subtasks_of p (taskQueue e)) as [|c cs] eqn:Hsubs; [discriminate|].
  assert (Hc : In c (subtasks_of p (taskQueue e))) by (rewrite Hsubs; now left).
  unfold subtasks_of in Hc. apply filter_In in Hc. destruct Hc as [Hc Hpar].
  destruct (parentTaskId c) as [p'|] eqn:Hpc; [|discriminate].
  apply String.eqb_eq in Hpar. subst p'.
  destruct (inv_parents _ _ _ HI c p Hc Hpc) as (pt' & Hpt' & Hi' & Hst').
  apply find_task_id in Hp. destruct Hp as [Hi Hpt].
  assert (pt' = pt) by (apply (nodup_same_id (taskQueue e)); auto;
                        [apply (inv_ids _ _ _ HI)|congruence]).
  subst pt'.
  assert (Hwait : status pt = waiting_for_subtasks).
  { destruct Hst' as [H|H]; [exact H|]. rewrite H in Hs. discriminate. }
  assert (Hne : id x <> p).
  { rewrite <- Hi. apply (terminal_other (taskQueue e)); auto.
    - apply (inv_ids _ _ _ HI).
    - unfold terminal. rewrite Hwait. intros [H|H]; discriminate. }
  unfold logOutput_with.
  set (out := agg_result _).
  set (e1 := commit_output e p AGGREGATOR_SYSTEM out).
  assert (HI1 : Inv (taskQueue e1) (agents e1) fl).
  { unfold e1. rewrite commit_output_queue.
    assert (Hag : agents (commit_output e p AGGREGATOR_SYSTEM out) = agents e).
    { unfold commit_output. destruct (find_task p (taskQueue e)); [|reflexivity].
      cbn [agents with_taskQueue with_taskOutputs].
      rewrite (get_agent_absent _ _ (inv_sentinel _ _ _ HI)). reflexivity. }
    rewrite Hag. apply Inv_update; auto.
    intros t Ht Hid.
    assert (t = pt) by (apply (nodup_same_id (taskQueue e)); auto;
                        [apply (inv_ids _ _ _ HI)|congruence]).
    subst t. rewrite Hwait. simpl. repeat split; auto; discriminate. }
  assert (Hx1 : In x (taskQueue e1)).
  { unfold e1. rewrite commit_output_queue. now apply keep_other. }
  assert (Ho1 : obj_get (id x) (taskOutputs e1) = obj_get (id x) (taskOutputs e)).
  { unfold e1. rewrite commit_output_outputs. now apply obj_get_set_other. }
  destruct (parent_to_notify e p) as [g|]; [|auto].
  destruct (IH e1 g fl x HI1 Hx1 Hterm) as [H1 H2].
  split; [exact H1|congruence].
Qed.

Lemma terminal_step (VALID_DOMAINS : list string) (c c' : Config) (op : Op) (x : Task) :
  Inv_config c -> plain_op op -> apply_op VALID_DOMAINS c op = Some c' ->
  In x (taskQueue (engine c)) -> terminal x ->
  In x (taskQueue (engine c'))
  /\ obj_get (id x) (taskOutputs (engine c')) = obj_get (id x) (taskOutputs (engine c)).
Proof.
  unfold Inv_config. intros HI Hplain Hop Hx Hterm.
  pose proof (inv_ids _ _ _ HI) as Hnd.
  assert (Hpend : forall t, In t (taskQueue (engine c)) -> status t = pending ->
                            id x <> id t).
  { intros t Ht Hs. apply (terminal_other (taskQueue (engine c))); auto.
    unfold terminal. rewrite Hs. intros [H|H]; discriminate. }
  destruct op as [metadata uuid8|taskData uuid|uuid|tid aid outcome];
    cbn [apply_op] in Hop.
  - destruct (registerAgent _ _ _ _) as [[e' aid]|errs] eqn:Hreg;
      [|injection Hop as <-; auto].
    destruct (get_agent _ _); [discriminate|].
    injection Hop as <-. cbn [engine].
    unfold registerAgent in Hreg.
    destruct (negb (isValid _)); [discriminate|].
    injection Hreg as <- _. auto.
  - destruct (submitTask _ _ _ _) as [[e' tid]|errs] eqn:Hsub;
      [|injection Hop as <-; auto].
    destruct (queued _ _); [discriminate|].
    injection Hop as <-. cbn [engine].
    unfold submitTask in Hsub.
    destruct (negb (isValid _)); [discriminate|].
    injection Hsub as <- _. cbn [taskQueue taskOutputs with_taskQueue].
    split; [|reflexivity]. apply sort_queue_in, in_or_app. now left.
  - destruct (fresh_split_ids _ _); [|discriminate].
    destruct (processQueue_begin _ _) as [e' d] eqn:Hpq.
    injection Hop as <-. cbn [engine].
    split; [|now rewrite (processQueue_begin_outputs _ _ _ _ Hpq)].
    destruct d as [[tid aid]|].
    + apply processQueue_begin_dispatch in Hpq.
      destruct Hpq as (t & p & e0 & Hn & -> & _ & _ & He0 & ->).
      apply nextTask_ready in Hn. destruct Hn as [Ht Hr].
      apply isReady_pending in Hr. destruct Hr as [Hs _].
      unfold start_dispatch. cbn [fst taskQueue with_taskQueue with_agents].
      apply keep_other; [|now apply Hpend].
      destruct He0 as [-> | ->]; [exact Hx|].
      unfold handleTaskCollaboration. cbn [taskQueue with_taskQueue].
      apply keep_other; [exact Hx|now apply Hpend].
    + apply processQueue_begin_idle in Hpq.
      destruct Hpq as [-> | (t & Hn & Hsplit)]; [exact Hx|].
      apply nextTask_ready in Hn. destruct Hn as [Ht Hr].
      apply isReady_pending in Hr. destruct Hr as [Hs _].
      rewrite (handleTaskSplitting_queue (engine c) t uuid
                 (find_task_nodup _ _ Hnd Ht)) in Hsplit.
      injection Hsplit as <-. cbn [taskQueue with_taskQueue].
      apply sort_queue_in, in_or_app. left.
      apply keep_other; [exact Hx|now apply Hpend].
  - destruct (existsb _ _) eqn:Hex; [|discriminate].
    destruct (find_task _ _) as [task|] eqn:Hf; [|discriminate].
    injection Hop as <-. cbn [engine].
    apply existsb_exists in Hex. destruct Hex as (d & Hd & Heq).
    apply dispatch_eqb_eq in Heq. subst d.
    destruct (find_task_id _ _ _ Hf) as [Hid Htask].
    destruct (inv_flight _ _ _ HI tid aid Hd) as (t' & Ht' & Hid' & Hs' & _).
    assert (Hne : id x <> tid).
    { rewrite <- Hid'. apply (terminal_other (taskQueue (engine c))); auto.
      unfold terminal. rewrite Hs'. intros [H|H]; discriminate. }
    subst tid. unfold processQueue_resume.
    assert (Hfail : In x (taskQueue (handleTaskFailure (engine c) task aid))
                    /\ obj_get (id x) (taskOutputs (handleTaskFailure (engine c) task aid))
                       = obj_get (id x) (taskOutputs (engine c))).
    { unfold handleTaskFailure. cbn [taskQueue taskOutputs with_taskQueue with_agents].
      split; [now apply keep_other|reflexivity]. }
    destruct outcome as [| |result]; auto.
    destruct (JS.lt _ _).
    + unfold handleTaskReassignment.
      cbn [taskQueue taskOutputs with_taskQueue with_agents].
      split; [now apply keep_other|reflexivity].
    + rewrite Hf. unfold logOutput, logOutput_with.
      set (e1 := commit_output (engine c) (id task) aid result).
      assert (Hx1 : In x (taskQueue e1)).
      { unfold e1. rewrite commit_output_queue. now apply keep_other. }
      assert (Ho1 : obj_get (id x) (taskOutputs e1)
                    = obj_get (id x) (taskOutputs (engine c))).
      { unfold e1. rewrite commit_output_outputs. now apply obj_get_set_other. }
      destruct (parent_to_notify (engine c) (id task)) as [g|]; [|auto].
      pose proof (Inv_commit_release (engine c) (inflight c) (id task) aid result HI Hd)
        as HI1.
      destruct (terminal_aggregate (List.length (taskQueue (engine c))) e1 g _ x
                                   HI1 Hx1 Hterm) as [H1 H2].
      split; [exact H1|congruence].
Qed.

(** X19.  Completed and failed are final in every run in which no agent is
    registered under the aggregator's identifier and no submitted task
    names a parent: once a task is completed or failed, no later
    registration, submission, tick or return of a dispatch alters the task
    or the output stored for it. *)
Theorem terminal_tasks_stay (VALID_DOMAINS : list string) (before after : list Op)
        (c c' : Config) (t : Task) :
  Forall plain_op before -> Forall plain_op after ->
  run VALID_DOMAINS initial before = Some c ->
  run VALID_DOMAINS c after = Some c' ->
  In t (taskQueue (engine c)) ->
  status t = completed \/ status t = failed ->
  In t (taskQueue (engine c'))
  /\ obj_get (id t) (taskOutputs (engine c')) = obj_get (id t) (taskOutputs (engine c)).
Proof.
  intros Hb Ha Hrun1 Hrun2 Ht Hterm.
  pose proof (Inv_run VALID_DOMAINS before initial c Inv_initial Hb Hrun1) as HI.
  clear Hb Hrun1. revert c HI Hrun2 Ht.
  induction after as [|op ops IH]; intros c HI Hrun Ht; simpl in Hrun.
  - injection Hrun as <-. auto.
  - inversion Ha as [|? ? Hop Hrest]; subst.
    destruct (apply_op VALID_DOMAINS c op) as [c1|] eqn:E; [|discriminate].
    destruct (terminal_step VALID_DOMAINS c c1 op t HI Hop E Ht Hterm) as [H1 H2].
    destruct (IH Hrest c1 (Inv_apply_op VALID_DOMAINS c c1 op HI Hop E) Hrun H1)
      as [H3 H4].
    split; [exact H3|congruence].
Qed.

Lemma terminal_tasks_stay_witness :
  (Forall plain_op bumped_ops /\ Forall plain_op later_ops
   /\ run DOMAINS initial bumped_ops = Some bumped_config
   /\ run DOMAINS bumped_config later_ops = Some (run_from bumped_config later_ops)
   /\ status (task_of "task_Z" bumped_config) = completed)
  /\ find_task "task_Z" (taskQueue (engine (run_from bumped_config later_ops)))
     = Some (task_of "task_Z" bumped_config).
Proof.
  assert (H1 : Forall plain_op bumped_ops).
  { repeat constructor; discriminate. }
  assert (H2 : Forall plain_op later_ops).
  { repeat constructor. }
  assert (H3 : run DOMAINS initial bumped_ops = Some bumped_config)
    by (vm_compute; reflexivity).
  assert (H4 : run DOMAINS bumped_config later_ops
               = Some (run_from bumped_config later_ops)) by (vm_compute; reflexivity).
  assert (H5 : status (task_of "task_Z" bumped_config) = completed)
    by (vm_compute; reflexivity).
  assert (H6 : In (task_of "task_Z" bumped_config) (taskQueue (engine bumped_config))).
  { assert (H : find_task "task_Z" (taskQueue (engine bumped_config))
                = Some (task_of "task_Z" bumped_config)) by (vm_compute; reflexivity).
    apply (find_task_id _ _ _ H). }
  split; [repeat first [assumption | split]|].
  destruct (terminal_tasks_stay DOMAINS bumped_ops later_ops bumped_config
                                (run_from bumped_config later_ops) _
                                H1 H2 H3 H4 H6 (or_introl H5)) as [Hin _].
  pose proof (Inv_run DOMAINS later_ops bumped_config _
                      (Inv_run DOMAINS bumped_ops initial _ Inv_initial H1 H3) H2 H4) as HI.
  exact (find_task_nodup _ _ (inv_ids _ _ _ HI) Hin).
Defined.

(** ** The collaboration protocol *)

Lemma get_shared_set_same (r : SharedResult) (l : list SharedResult) :
  get_shared (sr_taskId r) (set_shared r l) = Some r.
Proof.
  unfold get_shared. induction l as [|x l IH]; simpl.
  - now rewrite String.eqb_refl.
  - destruct (String.eqb (sr_taskId x) (sr_taskId r)) eqn:E; simpl.
    + now rewrite String.eqb_refl.
    + now rewrite E.
Qed.


Lemma context_created {V : Type} (k : string) (o : list (string * V)) (d : V) :
  obj_get k (match obj_get k o with
             | Some _ => o
             | None => obj_set k d o
             end)
  = Some (or_else (obj_get k o) d).
Proof.
  destruct (obj_get k o) eqn:E; simpl; [exact E|apply obj_get_set_same].
Qed.

Lemma context_kept {V : Type} (k k' : string) (o : list (string * V)) (d : V) :
  k' <> k ->
  obj_get k' (match obj_get k o with
              | Some _ => o
              | None => obj_set k d o
              end)
  = obj_get k' o.
Proof.
  intros Hne. destruct (obj_get k o); [reflexivity|now apply obj_get_set_other].
Qed.

Lemma context_of_found (tid : string) (q : list Task) (t : Task) :
  find_task tid q = Some t ->
  match truthy (parentTaskId t) with
  | Some p => p
  | None => tid
  end = context_of t.
Proof.
  intros H. destruct (find_task_id _ _ _ H) as [<- _]. reflexivity.
Qed.

(** X20.  A result shared by one task is handed to any task of the same
    context (the same parent, or the parent itself) that requests it by the
    sharer's identifier, whatever was shared under that identifier before:
    SHARE_RESULT followed by REQUEST_INPUT with that [targetTaskId]
    resolves with the shared payload. *)
Theorem collaborate_share_then_request (b : Blackboard) (sharer requester a1 a2 : string)
        (shared request : Payload) (ts tr : Task) :
  plain_key (context_of ts) ->
  plain_key sharer ->
  find_task sharer (taskQueue (core b)) = Some ts ->
  find_task requester (taskQueue (core b)) = Some tr ->
  context_of tr = context_of ts ->
  p_targetTaskId request = Some sharer ->
  sharer <> EmptyString ->
  exists b1 b2,
    collaborate b sharer a1 "SHARE_RESULT" shared = Returned (b1, None)
    /\ collaborate b1 requester a2 "REQUEST_INPUT" request
       = Returned (b2, Some (p_json shared)).
Proof.
  intros _ _ Hs Hr Hctx Htarget Hne.
  unfold collaborate at 1. rewrite Hs, (context_of_found _ _ _ Hs). simpl String.eqb.
  eexists. eexists. split; [reflexivity|].
  unfold collaborate. cbn [core taskQueue with_collaborationSpace collaborationSpace].
  rewrite Hr, (context_of_found _ _ _ Hr), Hctx. simpl String.eqb. cbv iota.
  rewrite obj_get_set_same. rewrite obj_get_set_same. cbn [or_else].
  rewrite (proj2 (truthy_iff _ sharer) (conj Htarget Hne)).
  match goal with
  | |- context [get_shared sharer (set_shared ?r ?l)] =>
      rewrite (get_shared_set_same r l : get_shared sharer (set_shared r l) = Some r)
  end.
  reflexivity.
Qed.

Lemma collaborate_share_then_request_witness :
  (plain_key (context_of (task_of "subtask_S1" split_config))
   /\ plain_key "subtask_S1"
   /\ find_task "subtask_S1" (taskQueue (core split_board))
   = Some (task_of "subtask_S1" split_config)
   /\ find_task "task_P" (taskQueue (core split_board)) = Some (task_of "task_P" split_config)
   /\ context_of (task_of "task_P" split_config)
      = context_of (task_of "subtask_S1" split_config))
  /\ exists b1 b2,
       collaborate split_board "subtask_S1" "junior-1" "SHARE_RESULT"
                   (payload "{draft:1}" None) = Returned (b1, None)
       /\ collaborate b1 "task_P" "senior" "REQUEST_INPUT"
                      (payload "{}" (Some "subtask_S1"))
          = Returned (b2, Some "{draft:1}").
Proof.
  assert (H1 : find_task "subtask_S1" (taskQueue (core split_board))
               = Some (task_of "subtask_S1" split_config)) by (vm_compute; reflexivity).
  assert (H2 : find_task "task_P" (taskQueue (core split_board))
               = Some (task_of "task_P" split_config)) by (vm_compute; reflexivity).
  assert (H3 : context_of (task_of "task_P" split_config)
               = context_of (task_of "subtask_S1" split_config))
    by (vm_compute; reflexivity).
  assert (K1 : plain_key (context_of (task_of "subtask_S1" split_config))).
  { change (context_of (task_of "subtask_S1" split_config)) with "task_P".
    plain_key_tac. }
  assert (K2 : plain_key "subtask_S1") by plain_key_tac.
  split; [repeat first [assumption | split]|].
  apply (collaborate_share_then_request split_board "subtask_S1" "task_P"
           "junior-1" "senior" (payload "{draft:1}" None)
           (payload "{}" (Some "subtask_S1")) _ _ K1 K2 H1 H2 H3);
    [reflexivity|discriminate].
Defined.

(** X21.  Contexts are separate: what a task shares is invisible to requests
    from a task of another context, which are answered as they would have
    been before the share. *)
Theorem collaborate_contexts_isolated (b : Blackboard) (sharer requester a1 a2 : string)
        (shared request : Payload) (ts tr : Task) :
  plain_key (context_of ts) ->
  plain_key (context_of tr) ->
  plain_key sharer ->
  find_task sharer (taskQueue (core b)) = Some ts ->
  find_task requester (taskQueue (core b)) = Some tr ->
  context_of tr <> context_of ts ->
  exists b1 b2 b2' answer,
    collaborate b sharer a1 "SHARE_RESULT" shared = Returned (b1, None)
    /\ collaborate b requester a2 "REQUEST_INPUT" request = Returned (b2', answer)
    /\ collaborate b1 requester a2 "REQUEST_INPUT" request = Returned (b2, answer).
Proof.
  intros _ _ _ Hs Hr Hctx.
  unfold collaborate at 1. rewrite Hs, (context_of_found _ _ _ Hs). simpl String.eqb.
  eexists. eexists. eexists. eexists. split; [reflexivity|].
  unfold collaborate. cbn [core taskQueue with_collaborationSpace collaborationSpace].
  rewrite Hr, (context_of_found _ _ _ Hr). simpl String.eqb. cbv iota.
  rewrite !context_created.
  rewrite (obj_get_set_other (context_of ts) (context_of tr)) by exact Hctx.
  rewrite (context_kept (context_of ts) (context_of tr)) by exact Hctx.
  split; reflexivity.
Qed.

Lemma collaborate_contexts_isolated_witness :
  (plain_key (context_of (task_of "task_A" two_tasks))
   /\ plain_key (context_of (task_of "task_B" two_tasks))
   /\ plain_key "task_A"
   /\ find_task "task_A" (taskQueue (engine two_tasks)) = Some (task_of "task_A" two_tasks)
   /\ find_task "task_B" (taskQueue (engine two_tasks)) = Some (task_of "task_B" two_tasks)
   /\ context_of (task_of "task_B" two_tasks) <> context_of (task_of "task_A" two_tasks))
  /\ exists b1 b2,
       collaborate (blackboard (engine two_tasks)) "task_A" "a1" "SHARE_RESULT"
                   (payload "{secret:1}" None) = Returned (b1, None)
       /\ collaborate b1 "task_B" "a2" "REQUEST_INPUT" (payload "{}" (Some "task_A"))
          = Returned (b2, None).
Proof.
  assert (H1 : find_task "task_A" (taskQueue (engine two_tasks))
               = Some (task_of "task_A" two_tasks)) by (vm_compute; reflexivity).
  assert (H2 : find_task "task_B" (taskQueue (engine two_tasks))
               = Some (task_of "task_B" two_tasks)) by (vm_compute; reflexivity).
  assert (H3 : context_of (task_of "task_B" two_tasks)
               <> context_of (task_of "task_A" two_tasks)) by (vm_compute; discriminate).
  assert (K1 : plain_key (context_of (task_of "task_A" two_tasks))).
  { change (context_of (task_of "task_A" two_tasks)) with "task_A". plain_key_tac. }
  assert (K2 : plain_key (context_of (task_of "task_B" two_tasks))).
  { change (context_of (task_of "task_B" two_tasks)) with "task_B". plain_key_tac. }
  assert (K3 : plain_key "task_A") by plain_key_tac.
  split; [repeat first [assumption | split]|].
  destruct (collaborate_contexts_isolated (blackboard (engine two_tasks)) "task_A" "task_B"
              "a1" "a2" (payload "{secret:1}" None) (payload "{}" (Some "task_A"))
              _ _ K1 K2 K3 H1 H2 H3)
    as (b1 & b2 & b2' & answer & Hshare & Hbefore & Hafter).
  exists b1, b2. split; [exact Hshare|].
  assert (Hans : answer = None) by (vm_compute in Hbefore; now injection Hbefore).
  now rewrite Hans in Hafter.
Defined.






